(** * dl4ds, [models/sp_preups.py]: the pre-upsampling network builders

    A shallow embedding of [net_pin], [unet_pin] and [_check_nblocks].
    The builders assemble a Keras graph; the embedding keeps that graph as
    an append-only list of nodes threaded through a state-and-exception
    monad, together with the lines written by [print]. *)

From Stdlib Require Import ZArith List String Bool Lia QArith.
From Stdlib Require Import DecimalString DecimalZ.
Import ListNotations.

Local Open Scope string_scope.
Local Open Scope list_scope.
Local Open Scope Z_scope.

(** ** Python values used by the builders *)

(** [str(n)] for an integer. *)
Definition str (n : Z) : string := NilEmpty.string_of_int (Z.to_int n).

(** [range(n)]: empty when [n <= 0]. *)
Definition range (n : Z) : list Z := map Z.of_nat (seq 0 (Z.to_nat n)).

(** [n // 2**power].  For [power >= 0] both operands are integers and [//]
    is floor division.  For [power < 0] Python evaluates [2**power] to the
    float [2^power] and [//] to the floor of the float quotient, that is
    [n * 2^(-power)]; the embedding keeps that value as an integer (it is
    only compared with [2]).  The float quotient is that integer as long
    as [n] and the product are within the range floats hold exactly; a
    dimension of [2**1024] or more makes Python raise [OverflowError], and
    a dimension of 0 ends in [ZeroDivisionError] once [2**power]
    underflows.  The embedding does not follow Python there: a
    theorem that asserts a return at a negative depth is stated for
    dimensions between 1 and [2**53]. *)
Definition floordiv_pow2 (n power : Z) : Z :=
  if 0 <=? power then n / 2 ^ power else n * 2 ^ (- power).

(** ** The graph under construction *)

(** A tensor is a reference to an output of a node: the node's position in
    the graph and the index of the output. *)
Definition tensor : Type := nat * nat.

(** An argument that a call may leave to the callee's default. *)
Inductive kwarg (A : Type) : Type :=
| Default
| Passed (a : A).
Arguments Default {A}.
Arguments Passed {A} a.

(** Arguments of [ConvBlock], [ResidualBlock] and [DenseBlock]. *)
Record block_args : Type := mk_block_args {
  kw_filters : Z;
  kw_activation : option string;
  kw_dropout_rate : Q;
  kw_dropout_variant : kwarg (option string);
  kw_normalization : option string;
  kw_attention : kwarg bool;
  kw_name : kwarg string
}.

Inductive layer : Type :=
| Conv2D (n_filters : Z) (kernel_size : Z * Z) (padding : string)
| ConvBlock (a : block_args)
| ResidualBlock (a : block_args)
| DenseBlock (a : block_args)
| TransitionBlock (n_filters : Z)
| EncoderBlock (n_filters : Z) (act : option string) (rate : Q)
    (variant : option string) (norm : option string) (att : bool)
    (name_suffix : string)
| Dropout (rate : Q)
| GaussianDropout (rate : Q)
| SpatialDropout2D (rate : Q)
| MCDropout (rate : Q)
| MCGaussianDropout (rate : Q)
| MCSpatialDropout2D (rate : Q)
| Add
| Concatenate
| LocalizedConvBlock (n_filters : Z) (use_bias : bool)
| UpSampling2D (size : Z) (interpolation : string) (layer_name : string)
| SubpixelConvolutionBlock (scale : Z) (n_filters : Z) (name_suffix : string)
| DeconvolutionBlock (scale : Z) (n_filters : Z) (act : option string)
    (name_suffix : string)
| PadConcat (name_suffix : string).

(** [Input(shape=(h, w, c))], with [None] for an unconstrained dimension. *)
Definition shape3 : Type := option Z * option Z * Z.

Inductive node : Type :=
| InputNode (shape : shape3)
| LayerNode (l : layer) (inputs : list tensor).

(** What a Python variable of the builders can hold: a tensor, or a layer
    object that has not been called. *)
Inductive value : Type :=
| Tensor (t : tensor)
| LayerObj (l : layer).

Record Model : Type := mk_Model {
  inputs : list value;
  outputs : value;
  model_name : string
}.

(** ** State, exceptions and fuel *)

Record world : Type := mk_world {
  graph : list node;
  stdout : list string
}.

Inductive exn : Type :=
| ValueError (argument : string) (given : string) (accepted : list string)
| TypeError (msg : string)
| IndexError.

(** [Timeout]: the fuel of a [while] loop ran out before the loop ended. *)
Inductive outcome (A : Type) : Type :=
| Ok (a : A)
| Raise (e : exn)
| Timeout.
Arguments Ok {A} a.
Arguments Raise {A} e.
Arguments Timeout {A}.

Definition M (A : Type) : Type := world -> outcome A * world.

Definition ret {A} (a : A) : M A := fun w => (Ok a, w).

Definition bind {A B} (m : M A) (k : A -> M B) : M B :=
  fun w =>
    match m w with
    | (Ok a, w') => k a w'
    | (Raise e, w') => (Raise e, w')
    | (Timeout, w') => (Timeout, w')
    end.

Definition raise {A} (e : exn) : M A := fun w => (Raise e, w).

Notation "x <- m ;; k" := (bind m (fun x => k))
  (at level 61, m at next level, right associativity).
Notation "' pat <- m ;; k" := (bind m (fun x => match x with pat => k end))
  (at level 61, pat pattern, m at next level, right associativity).
Notation "m ;;; k" := (bind m (fun _ => k))
  (at level 61, right associativity).

Definition print (s : string) : M unit :=
  fun w => (Ok tt, {| graph := graph w; stdout := stdout w ++ [s] |}).

(** The world with more nodes at the end of its graph. *)
Definition grow (w : world) (ns : list node) : world :=
  {| graph := graph w ++ ns; stdout := stdout w |}.

(** A new node; the answer is its position. *)
Definition add_node (n : node) : M nat :=
  fun w => (Ok (List.length (graph w)), grow w [n]).

Definition Input (shape : shape3) : M value :=
  i <- add_node (InputNode shape) ;; ret (Tensor (i, 0%nat)).

Fixpoint tensors_of (vs : list value) : option (list tensor) :=
  match vs with
  | [] => Some []
  | Tensor t :: vs' =>
      match tensors_of vs' with
      | Some ts => Some (t :: ts)
      | None => None
      end
  | LayerObj _ :: _ => None
  end.

(** [l(...)(x)] or [l(...)([x, y])]: Keras refuses inputs that are not
    tensors; the class of the exception depends on the version of Keras,
    and only the fact that the call raises is used.  On tensors the call
    adds a node.  The blocks of [blocks.py] and Keras itself may refuse
    more - a filter count of 0, a concatenation of tensors whose sizes are
    not known - which the embedding cannot follow without their code: what
    is proved of the graph of a call in general is therefore stated for
    the runs that return a model. *)
Definition call_node (l : layer) (args : list value) : M nat :=
  match tensors_of args with
  | Some ts => add_node (LayerNode l ts)
  | None => raise (TypeError "Inputs to a layer should be tensors.")
  end.

Definition call (l : layer) (args : list value) : M value :=
  i <- call_node l args ;; ret (Tensor (i, 0%nat)).

(** A layer with two outputs ([EncoderBlock]). *)
Definition call2 (l : layer) (args : list value) : M (value * value) :=
  i <- call_node l args ;; ret (Tensor (i, 0%nat), Tensor (i, 1%nat)).

(** [for i in xs: acc = body(i, acc)]. *)
Fixpoint for_each {A S} (xs : list A) (body : A -> S -> M S) (acc : S) : M S :=
  match xs with
  | [] => ret acc
  | x :: xs' => acc' <- body x acc ;; for_each xs' body acc'
  end.

(** ** [_check_nblocks] *)

Definition too_deep (shape : Z * Z) (power : Z) : bool :=
  (floordiv_pow2 (fst shape) power <? 2) || (floordiv_pow2 (snd shape) power <? 2).

Definition nblocks_msg (power : Z) : string :=
  ("`n_blocks` is too large, cannot downsample " ++ str power ++ " times "
   ++ "given the input grid size. Setting `n_blocks` to " ++ str (power - 1))%string.

Fixpoint _check_nblocks (fuel : nat) (shape : Z * Z) (power : Z) : M Z :=
  match fuel with
  | O => fun w => (Timeout, w)
  | S fuel' =>
      if too_deep shape power then
        print (nblocks_msg power) ;;;
        _check_nblocks fuel' shape (power - 1)
      else ret power
  end.

(** ** The builders *)

(** The parameters of [net_pin] and [unet_pin]; [decoder_upsampling] is a
    parameter of [unet_pin] only. *)
Record config : Type := mk_config {
  backbone_block : string;
  n_channels : Z;
  n_aux_channels : Z;
  n_filters : Z;
  n_blocks : Z;
  hr_size : Z * Z;
  n_channels_out : Z;
  activation : option string;
  dropout_rate : Q;
  dropout_variant : option string;
  normalization : option string;
  attention : bool;
  decoder_upsampling : string;
  output_activation : option string;
  localcon_layer : bool
}.

(** [rate > 0]. *)
Definition Qpositive (rate : Q) : bool := negb (Qle_bool rate 0).

(** [enumerate(xs)]. *)
Definition enumerate {A} (xs : list A) : list (Z * A) :=
  combine (map Z.of_nat (seq 0 (List.length xs))) xs.

(** [xs[j]] for [j >= 0]. *)
Definition getitem {A} (xs : list A) (j : Z) : M A :=
  match nth_error xs (Z.to_nat j) with
  | Some a => ret a
  | None => raise IndexError
  end.

Section Builders.

(** The accepted values of [backbone_block] and of [dropout_variant]: the
    tables of [utils], a module that is not among the sources. *)
Variable BACKBONE_BLOCKS : list string.
Variable DROPOUT_VARIANTS : list string.

(** Modelled from the spec: [checkarg_backbone] of [utils] is missing; it
    "maps a possibly-loose input string to the canonical enumeration value
    or raises an argument error naming the invalid value and the closed set
    of accepted values". *)
Definition checkarg_backbone (backbone_block : string) : M string :=
  if existsb (String.eqb backbone_block) BACKBONE_BLOCKS
  then ret backbone_block
  else raise (ValueError "backbone_block" backbone_block BACKBONE_BLOCKS).

(** Modelled from the spec: [checkarg_dropout_variant] of [utils] is
    missing; same contract as [checkarg_backbone], and [None] ("none" in
    the closed set) is accepted as it is. *)
Definition checkarg_dropout_variant (dropout_variant : option string)
  : M (option string) :=
  match dropout_variant with
  | None => ret None
  | Some v =>
      if existsb (String.eqb v) DROPOUT_VARIANTS
      then ret (Some v)
      else raise (ValueError "dropout_variant" v DROPOUT_VARIANTS)
  end.

(** The input layer of either builder; [free] says whether the spatial
    shape is left unconstrained. *)
Definition input_shape (free : bool) (hr_size : Z * Z) (channels : Z) : shape3 :=
  if free then (None, None, channels)
  else (Some (fst hr_size), Some (snd hr_size), channels).

Definition input_layer (free : bool) (hr_size : Z * Z) (channels : Z) : M value :=
  Input (input_shape free hr_size channels).

(** One pass of the loop of [net_pin] (lines 58-73). *)
Definition net_pin_block (c : config) (backbone_block : string)
    (dropout_variant : option string) (b : value) : M value :=
  let a := {| kw_filters := n_filters c; kw_activation := activation c;
              kw_dropout_rate := dropout_rate c;
              kw_dropout_variant := Passed dropout_variant;
              kw_normalization := normalization c;
              kw_attention := Passed (attention c); kw_name := Default |} in
  if (backbone_block =? "convnet")%string then call (ConvBlock a) [b]
  else if (backbone_block =? "resnet")%string then call (ResidualBlock a) [b]
  else if (backbone_block =? "densenet")%string then
    b <- call (DenseBlock a) [b] ;;
    call (TransitionBlock (n_filters c / 2)) [b]
  else ret b.

(** The dropout after the trunk of [net_pin] (lines 76-88).  The last two
    branches bind [b] to the layer object itself. *)
Definition net_pin_dropout (dropout_rate : Q) (dropout_variant : option string)
    (b : value) : M value :=
  if Qpositive dropout_rate then
    match dropout_variant with
    | None => call (Dropout dropout_rate) [b]
    | Some v =>
        if (v =? "gaussian")%string then call (GaussianDropout dropout_rate) [b]
        else if (v =? "spatial")%string then call (SpatialDropout2D dropout_rate) [b]
        else if (v =? "mcdrop")%string then call (MCDropout dropout_rate) [b]
        else if (v =? "mcgaussiandrop")%string then ret (LayerObj (MCGaussianDropout dropout_rate))
        else if (v =? "mcspatialdrop")%string then ret (LayerObj (MCSpatialDropout2D dropout_rate))
        else ret b
    end
  else ret b.

(** The merge of the trunk into [x] (lines 90-95). *)
Definition net_pin_merge (backbone_block : string) (x b : value) : M value :=
  if (backbone_block =? "convnet")%string then ret b
  else if (backbone_block =? "resnet")%string then call Add [x; b]
  else if (backbone_block =? "densenet")%string then call Concatenate [x; b]
  else ret x.

(** The three blocks of the tail: for the auxiliary channels (lines
    106-108), the last but one (113-114) and the last (116-117). *)
Definition aux_block (c : config) (n_filters : Z) : layer :=
  ConvBlock {| kw_filters := n_filters; kw_activation := activation c;
               kw_dropout_rate := 0; kw_dropout_variant := Default;
               kw_normalization := normalization c;
               kw_attention := Passed false; kw_name := Default |}.

Definition penultimate_block (c : config) (n_filters : Z) : layer :=
  ConvBlock {| kw_filters := n_filters; kw_activation := None;
               kw_dropout_rate := dropout_rate c; kw_dropout_variant := Default;
               kw_normalization := normalization c;
               kw_attention := Passed true; kw_name := Default |}.

Definition output_block (c : config) : layer :=
  ConvBlock {| kw_filters := n_channels_out c;
               kw_activation := output_activation c;
               kw_dropout_rate := 0; kw_dropout_variant := Default;
               kw_normalization := normalization c;
               kw_attention := Passed false; kw_name := Default |}.

(** The localized layer, the auxiliary channels, the last two blocks and
    the model: lines 99-123 of [net_pin] and, word for word, lines 202-225
    of [unet_pin]. *)
Definition pin_tail (c : config) (backbone_block : string) (n_filters : Z)
    (x x_in : value) (s_in : option value) : M Model :=
  x <- (if localcon_layer c then
          lws <- call (LocalizedConvBlock 2 true) [x] ;;
          call Concatenate [x; lws]
        else ret x) ;;
  x <- match s_in with
       | Some s_in =>
           s <- call (aux_block c n_filters) [s_in] ;;
           call Concatenate [x; s]
       | None => ret x
       end ;;
  x <- call (penultimate_block c n_filters) [x] ;;
  x <- call (output_block c) [x] ;;
  let model_name := (backbone_block ++ "_pin")%string in
  match s_in with
  | Some s_in => ret {| inputs := [x_in; s_in]; outputs := x; model_name := model_name |}
  | None => ret {| inputs := [x_in]; outputs := x; model_name := model_name |}
  end.

(** The auxiliary input, present when [n_aux_channels > 0]. *)
Definition aux_input (c : config) (free : bool) : M (option value) :=
  let auxvar_array_is_given := 0 <? n_aux_channels c in
  if auxvar_array_is_given then
    s_in <- input_layer free (hr_size c) (n_aux_channels c) ;; ret (Some s_in)
  else ret None.

Definition net_pin (c : config) : M Model :=
  backbone_block <- checkarg_backbone (backbone_block c) ;;
  dropout_variant <- checkarg_dropout_variant (dropout_variant c) ;;
  let free := negb (localcon_layer c) in
  s_in <- aux_input c free ;;
  x_in <- input_layer free (hr_size c) (n_channels c) ;;
  x <- call (Conv2D (n_filters c) (3, 3) "same") [x_in] ;;
  let b := x in
  b <- for_each (range (n_blocks c))
         (fun _ b => net_pin_block c backbone_block dropout_variant b) b ;;
  b <- call (Conv2D (n_filters c) (3, 3) "same") [b] ;;
  b <- net_pin_dropout (dropout_rate c) dropout_variant b ;;
  x <- net_pin_merge backbone_block x b ;;
  pin_tail c backbone_block (n_filters c) x x_in s_in.

(** The variables the encoder loop of [unet_pin] updates. *)
Record enc_state : Type := mk_enc_state {
  enc_x : value;
  enconding_filters : list value;
  n_filters_list : list Z;
  enc_n_filters : Z
}.

(** The block of encoder stage [i] (lines 173-174). *)
Definition encoder_block (c : config) (dropout_variant : option string)
    (n_filters i : Z) : layer :=
  EncoderBlock n_filters (activation c) (dropout_rate c) dropout_variant
    (normalization c) (attention c) (str (i + 1)).

(** One pass of the encoder loop (lines 173-177). *)
Definition encoder_stage (c : config) (dropout_variant : option string)
    (i : Z) (s : enc_state) : M enc_state :=
  '(x, x_skipcon) <- call2 (encoder_block c dropout_variant (enc_n_filters s) i)
                        [enc_x s] ;;
  ret {| enc_x := x;
         enconding_filters := enconding_filters s ++ [x_skipcon];
         n_filters_list := n_filters_list s ++ [enc_n_filters s];
         enc_n_filters := Z.min 256 (enc_n_filters s * 2) |}.

(** The upsampling layer of decoder stage [j] (lines 188-193); no branch
    is taken for a method other than the three. *)
Definition upsampling_layer (c : config) (n_filters j : Z) : option layer :=
  if (decoder_upsampling c =? "spc")%string then
    Some (SubpixelConvolutionBlock 2 n_filters (str (j + 1)))
  else if (decoder_upsampling c =? "rc")%string then
    Some (UpSampling2D 2 "bilinear" ("BilinearUpsampling" ++ str (j + 1))%string)
  else if (decoder_upsampling c =? "dc")%string then
    Some (DeconvolutionBlock 2 n_filters (activation c) (str (j + 1)))
  else None.

Definition decoder_upsample (c : config) (n_filters j : Z) (x : value) : M value :=
  match upsampling_layer c n_filters j with
  | Some l => call l [x]
  | None => ret x
  end.

(** The concatenation and the block of decoder stage [j] (lines 195-198). *)
Definition skip_concat (j : Z) : layer :=
  PadConcat ("_SkipConnection" ++ str (j + 1))%string.

Definition decoder_block (c : config) (dropout_variant : option string)
    (n_filters j : Z) : layer :=
  ConvBlock {| kw_filters := n_filters; kw_activation := activation c;
               kw_dropout_rate := dropout_rate c;
               kw_dropout_variant := Passed dropout_variant;
               kw_normalization := normalization c;
               kw_attention := Passed (attention c);
               kw_name := Passed ("DecoderConvBlock" ++ str (j + 1))%string |}.

(** One pass of the decoder loop (lines 187-198); the state is [x] and
    [n_filters]. *)
Definition decoder_stage (c : config) (dropout_variant : option string)
    (n_filters_list : list Z) (js : Z * value) (s : value * Z) : M (value * Z) :=
  let '(j, skip_connection) := js in
  let '(x, _) := s in
  n_filters <- getitem n_filters_list j ;;
  x <- decoder_upsample c n_filters j x ;;
  x <- call (skip_concat j) [x; skip_connection] ;;
  x <- call (decoder_block c dropout_variant n_filters j) [x] ;;
  ret (x, n_filters).

(** The bottleneck block (lines 180-182): no [attention] argument, and
    [normalization=None]. *)
Definition bottleneck_args (c : config) (dropout_variant : option string)
    (n_filters : Z) : block_args :=
  {| kw_filters := n_filters; kw_activation := activation c;
     kw_dropout_rate := dropout_rate c;
     kw_dropout_variant := Passed dropout_variant;
     kw_normalization := None;
     kw_attention := Default; kw_name := Passed "Bottleneck" |}.

Definition bottleneck (c : config) (dropout_variant : option string)
    (n_filters : Z) : layer :=
  ConvBlock (bottleneck_args c dropout_variant n_filters).

(** Whether [unet_pin] leaves the spatial shape of its inputs free (lines
    157 and 162). *)
Definition unet_free (c : config) : bool :=
  negb (localcon_layer c) && (fst (hr_size c) =? snd (hr_size c)).

(** [unet_pin] from line 152 on, with [n_blocks] already validated. *)
Definition unet_pin_body (c : config) (backbone_block : string)
    (dropout_variant : option string) (n_blocks : Z) : M Model :=
  let free := unet_free c in
  s_in <- aux_input c free ;;
  x_in <- input_layer free (hr_size c) (n_channels c) ;;
  s <- for_each (range n_blocks) (encoder_stage c dropout_variant)
         {| enc_x := x_in; enconding_filters := []; n_filters_list := [];
            enc_n_filters := n_filters c |} ;;
  x <- call (bottleneck c dropout_variant (enc_n_filters s)) [enc_x s] ;;
  let n_filters_list := rev (n_filters_list s) in
  '(x, n_filters) <- for_each (enumerate (rev (enconding_filters s)))
                       (decoder_stage c dropout_variant n_filters_list)
                       (x, enc_n_filters s) ;;
  pin_tail c backbone_block n_filters x x_in s_in.

Definition unet_pin (fuel : nat) (c : config) : M Model :=
  backbone_block <- checkarg_backbone (backbone_block c) ;;
  dropout_variant <- checkarg_dropout_variant (dropout_variant c) ;;
  n_blocks <- _check_nblocks fuel (hr_size c) (n_blocks c) ;;
  unet_pin_body c backbone_block dropout_variant n_blocks.

End Builders.

(** A fresh session: no node yet, nothing printed. *)
Definition fresh : world := {| graph := []; stdout := [] |}.

(** ** The loops of [unet_pin] in closed form

    What the encoder and decoder loops leave behind, written as plain
    recursive functions; the run lemmas below show that the builder
    computes exactly these. *)

(** [n_filters_list] after [n] encoder stages that start at [f]. *)
Fixpoint schedule (f : Z) (n : nat) : list Z :=
  match n with
  | O => []
  | S n' => f :: schedule (Z.min 256 (f * 2)) n'
  end.

(** [n_filters] after [n] encoder stages that start at [f]. *)
Fixpoint final_filters (f : Z) (n : nat) : Z :=
  match n with
  | O => f
  | S n' => final_filters (Z.min 256 (f * 2)) n'
  end.

(** The encoder nodes: stage by stage, the first at position [base] and
    reading [x]. *)
Fixpoint enc_nodes (c : config) (dv : option string) (base : nat)
    (x : tensor) (f : Z) (stages : list Z) : list node :=
  match stages with
  | [] => []
  | i :: rest =>
      LayerNode (encoder_block c dv f i) [x]
      :: enc_nodes c dv (S base) (base, 0%nat) (Z.min 256 (f * 2)) rest
  end.

(** The downsampled output of the last of [n] encoder stages. *)
Fixpoint enc_out (base : nat) (x : tensor) (n : nat) : tensor :=
  match n with
  | O => x
  | S n' => enc_out (S base) (base, 0%nat) n'
  end.

(** The skip tensors recorded by [n] encoder stages. *)
Fixpoint enc_skips (base n : nat) : list tensor :=
  match n with
  | O => []
  | S n' => (base, 1%nat) :: enc_skips (S base) n'
  end.

(** The decoder nodes: each stage is given as its skip tensor and its
    filter count; [j] numbers the first one. *)
Fixpoint dec_nodes (c : config) (dv : option string) (base : nat)
    (x : tensor) (j : Z) (stages : list (tensor * Z)) : list node :=
  match stages with
  | [] => []
  | (skip, f) :: rest =>
      match upsampling_layer c f j with
      | Some l =>
          LayerNode l [x]
          :: LayerNode (skip_concat j) [(base, 0%nat); skip]
          :: LayerNode (decoder_block c dv f j) [(S base, 0%nat)]
          :: dec_nodes c dv (3 + base) ((2 + base)%nat, 0%nat) (j + 1) rest
      | None =>
          LayerNode (skip_concat j) [x; skip]
          :: LayerNode (decoder_block c dv f j) [(base, 0%nat)]
          :: dec_nodes c dv (2 + base) ((1 + base)%nat, 0%nat) (j + 1) rest
      end
  end.

(** The output of the last decoder stage. *)
Fixpoint dec_out (c : config) (base : nat) (x : tensor) (j : Z)
    (stages : list (tensor * Z)) : tensor :=
  match stages with
  | [] => x
  | (_, f) :: rest =>
      match upsampling_layer c f j with
      | Some _ => dec_out c (3 + base) ((2 + base)%nat, 0%nat) (j + 1) rest
      | None => dec_out c (2 + base) ((1 + base)%nat, 0%nat) (j + 1) rest
      end
  end.

(** [n_filters] after the decoder loop: the count of its last stage. *)
Fixpoint dec_filters (f0 : Z) (stages : list (tensor * Z)) : Z :=
  match stages with
  | [] => f0
  | (_, f) :: rest => dec_filters f rest
  end.

(** The nodes of [pin_tail]. *)
Definition tail_nodes (c : config) (n_filters : Z) (base : nat) (x : tensor)
    (s_in : option tensor) : list node :=
  let local := if localcon_layer c
               then [LayerNode (LocalizedConvBlock 2 true) [x];
                     LayerNode Concatenate [x; (base, 0%nat)]]
               else [] in
  let x1 := if localcon_layer c then (S base, 0%nat) else x in
  let base1 := (base + List.length local)%nat in
  let aux := match s_in with
             | Some s => [LayerNode (aux_block c n_filters) [s];
                          LayerNode Concatenate [x1; (base1, 0%nat)]]
             | None => []
             end in
  let x2 := match s_in with Some _ => (S base1, 0%nat) | None => x1 end in
  let base2 := (base1 + List.length aux)%nat in
  local ++ aux ++ [LayerNode (penultimate_block c n_filters) [x2];
                   LayerNode (output_block c) [(base2, 0%nat)]].

(** The output tensor of [pin_tail]. *)
Definition tail_out (c : config) (base : nat) (s_in : option tensor) : tensor :=
  ((base + (if localcon_layer c then 2 else 0)
         + (match s_in with Some _ => 2 | None => 0 end) + 1)%nat, 0%nat).

(** The input nodes of a builder: the auxiliary one first, when there is
    one. *)
Definition input_nodes (c : config) (free : bool) : list node :=
  (if 0 <? n_aux_channels c
   then [InputNode (input_shape free (hr_size c) (n_aux_channels c))]
   else [])
  ++ [InputNode (input_shape free (hr_size c) (n_channels c))].

Definition aux_tensor (c : config) (base : nat) : option tensor :=
  if 0 <? n_aux_channels c then Some (base, 0%nat) else None.

Definition primary_tensor (c : config) (base : nat) : tensor :=
  ((base + (if (0 <? n_aux_channels c)%Z then 1 else 0))%nat, 0%nat).

(** The decoder stages after [n] encoder stages whose first node is at
    [base]: skip tensors and filter counts, both reversed. *)
Definition dec_stages (c : config) (base n : nat) : list (tensor * Z) :=
  combine (rev (enc_skips base n)) (rev (schedule (n_filters c) n)).

(** Everything [unet_pin] adds to a graph of [base] nodes when the
    validated depth is [e]. *)
Definition unet_nodes (c : config) (dv : option string) (e : Z) (base : nat)
  : list node :=
  let n := Z.to_nat e in
  let ins := input_nodes c (unet_free c) in
  let x_in := primary_tensor c base in
  let b1 := (base + List.length ins)%nat in
  let b2 := (b1 + n)%nat in
  let fb := final_filters (n_filters c) n in
  let stages := dec_stages c b1 n in
  let dec := dec_nodes c dv (S b2) (b2, 0%nat) 0 stages in
  ins
  ++ enc_nodes c dv b1 x_in (n_filters c) (range e)
  ++ [LayerNode (bottleneck c dv fb) [enc_out b1 x_in n]]
  ++ dec
  ++ tail_nodes c (dec_filters fb stages) (S b2 + List.length dec)
       (dec_out c (S b2) (b2, 0%nat) 0 stages) (aux_tensor c base).

(** The model [unet_pin] returns. *)
Definition unet_model (c : config) (bb : string) (dv : option string) (e : Z)
    (base : nat) : Model :=
  let n := Z.to_nat e in
  let b1 := (base + List.length (input_nodes c (unet_free c)))%nat in
  let b2 := (b1 + n)%nat in
  let stages := dec_stages c b1 n in
  {| inputs := Tensor (primary_tensor c base)
               :: match aux_tensor c base with
                  | Some s => [Tensor s]
                  | None => []
                  end;
     outputs := Tensor (tail_out c
                  (S b2 + List.length (dec_nodes c dv (S b2) (b2, 0%nat) 0 stages))
                  (aux_tensor c base));
     model_name := (bb ++ "_pin")%string |}.

(** ** Reading a graph back *)

(** Whether both checked arguments are among the accepted values. *)
Definition valid_args (BACKBONE_BLOCKS DROPOUT_VARIANTS : list string)
    (c : config) : bool :=
  existsb (String.eqb (backbone_block c)) BACKBONE_BLOCKS
  && match dropout_variant c with
     | None => true
     | Some v => existsb (String.eqb v) DROPOUT_VARIANTS
     end.

(** The filter counts of the encoder blocks, in the order of creation. *)
Definition encoder_filters (ns : list node) : list Z :=
  flat_map (fun n => match n with
                     | LayerNode (EncoderBlock f _ _ _ _ _ _) _ => [f]
                     | _ => []
                     end) ns.

Definition is_decoder_block (a : block_args) : bool :=
  match kw_name a with
  | Passed s => prefix "DecoderConvBlock" s
  | Default => false
  end.

(** The filter counts of the decoder blocks, in the order of creation. *)
Definition decoder_filters (ns : list node) : list Z :=
  flat_map (fun n => match n with
                     | LayerNode (ConvBlock a) _ =>
                         if is_decoder_block a then [kw_filters a] else []
                     | _ => []
                     end) ns.

(** The skip tensors the decoder concatenates, in the order of use. *)
Definition consumed_skips (ns : list node) : list tensor :=
  flat_map (fun n => match n with
                     | LayerNode (PadConcat _) [_; skip] => [skip]
                     | _ => []
                     end) ns.

(** The skip tensors the encoder records (the second output of each
    encoder block), in the order of recording; [base] is the position of
    the first node of [ns]. *)
Fixpoint recorded_skips (base : nat) (ns : list node) : list tensor :=
  match ns with
  | [] => []
  | n :: rest =>
      match n with
      | LayerNode (EncoderBlock _ _ _ _ _ _ _) _ => [(base, 1%nat)]
      | _ => []
      end ++ recorded_skips (S base) rest
  end.

(** The blocks named Bottleneck, each with its inputs. *)
Definition bottleneck_blocks (ns : list node) : list (block_args * list tensor) :=
  flat_map (fun n => match n with
                     | LayerNode (ConvBlock a) xs =>
                         match kw_name a with
                         | Passed s => if (s =? "Bottleneck")%string
                                       then [(a, xs)] else []
                         | Default => []
                         end
                     | _ => []
                     end) ns.

(** ** Sample calls *)

(** Tables of accepted values for the samples: the backbones and dropout
    variants the builders dispatch on. *)
Definition sample_backbones : list string := ["convnet"; "resnet"; "densenet"].
Definition sample_dropouts : list string :=
  ["gaussian"; "spatial"; "mcdrop"; "mcgaussiandrop"; "mcspatialdrop"].

(** A call with 1 channel and 32 filters, and the defaults of the
    signatures for the parameters not listed. *)
Definition sample (backbone : string) (aux blocks : Z) (hr : Z * Z)
    (variant : option string) (att : bool) (upsampling : string) (localcon : bool)
  : config :=
  {| backbone_block := backbone; n_channels := 1; n_aux_channels := aux;
     n_filters := 32; n_blocks := blocks; hr_size := hr; n_channels_out := 1;
     activation := Some "relu"; dropout_rate := 2 # 10;
     dropout_variant := variant; normalization := None; attention := att;
     decoder_upsampling := upsampling; output_activation := None;
     localcon_layer := localcon |}.

(** An upsampling layer seen as its factor and, when it is built with one,
    its filter count. *)
Definition upsampling_of (l : layer) : option (Z * option Z) :=
  match l with
  | SubpixelConvolutionBlock scale f _ => Some (scale, Some f)
  | DeconvolutionBlock scale f _ _ => Some (scale, Some f)
  | UpSampling2D size _ _ => Some (size, None)
  | _ => None
  end.

(** The upsampling layers of a graph, in the order of creation. *)
Definition upsamplings (ns : list node) : list (Z * option Z) :=
  flat_map (fun n => match n with
                     | LayerNode l _ =>
                         match upsampling_of l with
                         | Some u => [u]
                         | None => []
                         end
                     | InputNode _ => []
                     end) ns.

(** What one decoder stage shows of its upsampling: the factor 2 and,
    except for ['rc'], the filter count of the stage. *)
Definition stage_upsampling (c : config) (f : Z) : Z * option Z :=
  (2, if (decoder_upsampling c =? "rc")%string then None else Some f).

(** Skip concatenations, and lists of nodes without one. *)
Definition is_pad_concat (n : node) : bool :=
  match n with
  | LayerNode (PadConcat _) _ => true
  | _ => false
  end.

Definition no_pad_concat : list node -> Prop :=
  Forall (fun n => is_pad_concat n = false).

(** The tensors the decoder concatenates the skip tensors onto, in the
    order of use. *)
Definition concat_inputs (ns : list node) : list tensor :=
  flat_map (fun n => match n with
                     | LayerNode (PadConcat _) [x; _] => [x]
                     | _ => []
                     end) ns.

Definition sum_channels (cs : list (option Z)) : option Z :=
  fold_right (fun c acc => match c, acc with
                           | Some a, Some b => Some (a + b)
                           | _, _ => None
                           end) (Some 0) cs.

(** Modelled from the spec: the blocks of [blocks.py] are missing, and
    are known "only through their input/output tensor-shape contracts".
    The channel count of the output of a layer: a convolution or a block
    built with a filter count gives that many channels ("producing an
    output with the stage's filter count"); resizing, dropout and [Add]
    keep the channels of their input; a concatenation adds them up; nothing
    is said of a dense block. *)
Definition layer_channels (l : layer) (ins : list (option Z)) : option Z :=
  match l with
  | Conv2D f _ _ | TransitionBlock f | LocalizedConvBlock f _
  | EncoderBlock f _ _ _ _ _ _
  | SubpixelConvolutionBlock _ f _ | DeconvolutionBlock _ f _ _ => Some f
  | ConvBlock a | ResidualBlock a => Some (kw_filters a)
  | DenseBlock _ => None
  | Concatenate | PadConcat _ => sum_channels ins
  | UpSampling2D _ _ _ | Add
  | Dropout _ | GaussianDropout _ | SpatialDropout2D _
  | MCDropout _ | MCGaussianDropout _ | MCSpatialDropout2D _ =>
      match ins with
      | c :: _ => c
      | [] => None
      end
  end.

(** The channel count of a tensor of graph [g]; [fuel] bounds the depth of
    the walk back to the inputs. *)
Fixpoint channels (fuel : nat) (g : list node) (t : tensor) : option Z :=
  match fuel with
  | O => None
  | S fuel' =>
      match nth_error g (fst t) with
      | Some (InputNode (_, _, ch)) => Some ch
      | Some (LayerNode l ins) => layer_channels l (map (channels fuel' g) ins)
      | None => None
      end
  end.

(** ** [net_pin] in closed form *)

(** Layers called one after the other, each on the output of the one
    before; the first is at position [base] and reads [x]. *)
Fixpoint chain_nodes (base : nat) (x : tensor) (ls : list layer) : list node :=
  match ls with
  | [] => []
  | l :: rest => LayerNode l [x] :: chain_nodes (S base) (base, 0%nat) rest
  end.

Fixpoint chain_out (base : nat) (x : tensor) (ls : list layer) : tensor :=
  match ls with
  | [] => x
  | _ :: rest => chain_out (S base) (base, 0%nat) rest
  end.

(** The layers of one pass of the loop of [net_pin]. *)
Definition net_block_layers (c : config) (bb : string) (dv : option string)
  : list layer :=
  let a := {| kw_filters := n_filters c; kw_activation := activation c;
              kw_dropout_rate := dropout_rate c;
              kw_dropout_variant := Passed dv;
              kw_normalization := normalization c;
              kw_attention := Passed (attention c); kw_name := Default |} in
  if (bb =? "convnet")%string then [ConvBlock a]
  else if (bb =? "resnet")%string then [ResidualBlock a]
  else if (bb =? "densenet")%string then
    [DenseBlock a; TransitionBlock (n_filters c / 2)]
  else [].

(** The dropout layer [net_pin] calls on [b], if any. *)
Definition dropout_applied (rate : Q) (dv : option string) : option layer :=
  if Qpositive rate then
    match dv with
    | None => Some (Dropout rate)
    | Some v =>
        if (v =? "gaussian")%string then Some (GaussianDropout rate)
        else if (v =? "spatial")%string then Some (SpatialDropout2D rate)
        else if (v =? "mcdrop")%string then Some (MCDropout rate)
        else None
    end
  else None.

(** The dropout layer [net_pin] binds [b] to without calling it, if any. *)
Definition dropout_unapplied (rate : Q) (dv : option string) : option layer :=
  if Qpositive rate then
    match dv with
    | None => None
    | Some v =>
        if (v =? "gaussian")%string then None
        else if (v =? "spatial")%string then None
        else if (v =? "mcdrop")%string then None
        else if (v =? "mcgaussiandrop")%string then Some (MCGaussianDropout rate)
        else if (v =? "mcspatialdrop")%string then Some (MCSpatialDropout2D rate)
        else None
    end
  else None.

(** The layer that merges [b] into [x], if any. *)
Definition merge_layer (bb : string) : option layer :=
  if (bb =? "convnet")%string then None
  else if (bb =? "resnet")%string then Some Add
  else if (bb =? "densenet")%string then Some Concatenate
  else None.

(** Whether the merge reads [b]. *)
Definition merge_reads_b (bb : string) : bool :=
  (bb =? "convnet")%string || (bb =? "resnet")%string || (bb =? "densenet")%string.

Definition net_loop_layers (c : config) (bb : string) (dv : option string)
  : list layer :=
  flat_map (fun _ => net_block_layers c bb dv) (range (n_blocks c)).

(** The nodes of [net_pin] before the tail, for a graph of [base] nodes,
    and the tensor [x] the tail starts from. *)
Definition net_trunk (c : config) (bb : string) (dv : option string)
    (base : nat) : list node * tensor :=
  let ins := input_nodes c (negb (localcon_layer c)) in
  let b1 := (base + List.length ins)%nat in
  let x := (b1, 0%nat) in
  let loop := chain_nodes (S b1) x (net_loop_layers c bb dv) in
  let b2 := (S b1 + List.length loop)%nat in
  let drop := match dropout_applied (dropout_rate c) dv with
              | Some l => [LayerNode l [(b2, 0%nat)]]
              | None => []
              end in
  let b := ((b2 + List.length drop)%nat, 0%nat) in
  let b3 := (S b2 + List.length drop)%nat in
  let merge := match merge_layer bb with
               | Some l => [LayerNode l [x; b]]
               | None => []
               end in
  let xm := if (bb =? "convnet")%string then b
            else match merge_layer bb with
                 | Some _ => (b3, 0%nat)
                 | None => x
                 end in
  (ins
   ++ [LayerNode (Conv2D (n_filters c) (3, 3) "same") [primary_tensor c base]]
   ++ loop
   ++ [LayerNode (Conv2D (n_filters c) (3, 3) "same")
         [chain_out (S b1) x (net_loop_layers c bb dv)]]
   ++ drop ++ merge,
   xm).

(** Everything [net_pin] adds to a graph of [base] nodes when it returns. *)
Definition net_nodes (c : config) (bb : string) (dv : option string)
    (base : nat) : list node :=
  let trunk := net_trunk c bb dv base in
  fst trunk
  ++ tail_nodes c (n_filters c) (base + List.length (fst trunk)) (snd trunk)
       (aux_tensor c base).

(** The model [net_pin] returns. *)
Definition net_model (c : config) (bb : string) (dv : option string)
    (base : nat) : Model :=
  {| inputs := Tensor (primary_tensor c base)
               :: match aux_tensor c base with
                  | Some s => [Tensor s]
                  | None => []
                  end;
     outputs := Tensor (tail_out c
                  (base + List.length (fst (net_trunk c bb dv base)))
                  (aux_tensor c base));
     model_name := (bb ++ "_pin")%string |}.

(** ** Inputs and auxiliary fusion in a graph *)

(** The tensors of the [Input] nodes; [base] is the position of the first
    node of [ns]. *)
Fixpoint input_tensors (base : nat) (ns : list node) : list tensor :=
  match ns with
  | [] => []
  | n :: rest =>
      match n with
      | InputNode _ => [(base, 0%nat)]
      | LayerNode _ _ => []
      end ++ input_tensors (S base) rest
  end.

(** The tensors that go through a convolution block whose output is at
    once concatenated, as second operand, onto another tensor. *)
Fixpoint aux_fusions (base : nat) (ns : list node) : list tensor :=
  match ns with
  | [] => []
  | n :: rest =>
      match n, rest with
      | LayerNode (ConvBlock _) [s], LayerNode Concatenate [_; (p, O)] :: _ =>
          if (p =? base)%nat then [s] else []
      | _, _ => []
      end ++ aux_fusions (S base) rest
  end.

Definition is_concatenate (n : node) : bool :=
  match n with
  | LayerNode Concatenate _ => true
  | _ => false
  end.

Definition is_conv_block (n : node) : bool :=
  match n with
  | LayerNode (ConvBlock _) _ => true
  | _ => false
  end.

Definition is_input (n : node) : bool :=
  match n with
  | InputNode _ => true
  | LayerNode _ _ => false
  end.

(** Lists of nodes without an [Input], and without a [Concatenate]. *)
Definition no_input : list node -> Prop := Forall (fun n => is_input n = false).
Definition no_concat : list node -> Prop :=
  Forall (fun n => is_concatenate n = false).

(** Whether the merge of a fused tensor can straddle the end of [a] and the
    start of [b]: [a] ends with a convolution block and [b] starts with a
    concatenation. *)
Definition straddles (a b : list node) : bool :=
  match rev a, b with
  | n :: _, n' :: _ => is_conv_block n && is_concatenate n'
  | _, _ => false
  end.

(** What is asked of a model [m] returned for [c], [new] being the nodes
    created from position [base] on: one input, or two when
    [n_aux_channels > 0]; these are the [Input] nodes created; and the
    tensors fused in are the inputs after the first. *)
Definition aux_consistent (c : config) (base : nat) (m : Model)
    (new : list node) : Prop :=
  List.length (inputs m) = (if (0 <? n_aux_channels c)%Z then 2 else 1)%nat
  /\ List.length (input_tensors base new) = List.length (inputs m)
  /\ (forall t, In (Tensor t) (inputs m) <-> In t (input_tensors base new))
  /\ map Tensor (aux_fusions base new) = tl (inputs m)
  /\ (aux_fusions base new <> [] <-> 0 < n_aux_channels c).

(** ** More ways to read a run *)

(** [d, d - 1, ...]: [k] depths counting down from [d]. *)
Fixpoint countdown (d : Z) (k : nat) : list Z :=
  match k with
  | O => []
  | S k' => d :: countdown (d - 1) k'
  end.

(** The shapes of the [Input] nodes, in the order of creation. *)
Definition input_shapes (ns : list node) : list shape3 :=
  flat_map (fun n => match n with
                     | InputNode s => [s]
                     | LayerNode _ _ => []
                     end) ns.

(** The layers called, in the order of the calls. *)
Definition layers_of (ns : list node) : list layer :=
  flat_map (fun n => match n with
                     | InputNode _ => []
                     | LayerNode l _ => [l]
                     end) ns.

(** How many of the layers called satisfy [p]. *)
Definition count_layers (p : layer -> bool) (ns : list node) : nat :=
  List.length (filter p (layers_of ns)).

Definition is_Conv2D (l : layer) : bool :=
  match l with Conv2D _ _ _ => true | _ => false end.
Definition is_ConvBlock (l : layer) : bool :=
  match l with ConvBlock _ => true | _ => false end.
Definition is_ResidualBlock (l : layer) : bool :=
  match l with ResidualBlock _ => true | _ => false end.
Definition is_DenseBlock (l : layer) : bool :=
  match l with DenseBlock _ => true | _ => false end.
Definition is_TransitionBlock (l : layer) : bool :=
  match l with TransitionBlock _ => true | _ => false end.

(** [j, j + 1, ...]: [n] numbers counting up from [j]. *)
Fixpoint count_from (j : Z) (n : nat) : list Z :=
  match n with
  | O => []
  | S n' => j :: count_from (j + 1) n'
  end.

(** The name suffixes of the encoder blocks, the names given to
    convolution blocks, the name suffixes of the skip concatenations and
    the names or suffixes of the upsampling layers, each in the order of
    creation. *)
Definition encoder_suffixes (ns : list node) : list string :=
  flat_map (fun n => match n with
                     | LayerNode (EncoderBlock _ _ _ _ _ _ s) _ => [s]
                     | _ => []
                     end) ns.

Definition block_names (ns : list node) : list string :=
  flat_map (fun n => match n with
                     | LayerNode (ConvBlock a) _ =>
                         match kw_name a with
                         | Passed s => [s]
                         | Default => []
                         end
                     | _ => []
                     end) ns.

Definition concat_suffixes (ns : list node) : list string :=
  flat_map (fun n => match n with
                     | LayerNode (PadConcat s) _ => [s]
                     | _ => []
                     end) ns.

Definition upsampling_names (ns : list node) : list string :=
  flat_map (fun n => match n with
                     | LayerNode (SubpixelConvolutionBlock _ _ s) _ => [s]
                     | LayerNode (DeconvolutionBlock _ _ _ s) _ => [s]
                     | LayerNode (UpSampling2D _ _ s) _ => [s]
                     | _ => []
                     end) ns.

(** Whether node [n] reads an output of the node at position [p]. *)
Definition reads (p : nat) (n : node) : bool :=
  match n with
  | LayerNode _ ins => existsb (fun t => Nat.eqb (fst t) p) ins
  | InputNode _ => false
  end.

(** Whether every node of [ns], the first of which is at position [pos],
    is read by a node that comes after it in [ns] or by one of [after]. *)
Fixpoint all_read (pos : nat) (ns after : list node) : bool :=
  match ns with
  | [] => true
  | _ :: rest => existsb (reads pos) (rest ++ after) && all_read (S pos) rest after
  end.

(** [t] is the first output of a node between position [lo] and [pos]. *)
Definition first_output_before (lo pos : nat) (t : tensor) : Prop :=
  (lo <= fst t < pos)%nat /\ snd t = 0%nat.

(** Every layer of [ns] reads at least one tensor, and only tensors of
    nodes between position [lo] and its own, [pos] being the position of
    the first node of [ns]; a tensor read is a first output, or one of
    [skips]. *)
Fixpoint well_wired (skips : list tensor) (lo pos : nat) (ns : list node)
  : Prop :=
  match ns with
  | [] => True
  | n :: rest =>
      match n with
      | InputNode _ => True
      | LayerNode _ ins =>
          ins <> []
          /\ Forall (fun t => (lo <= fst t < pos)%nat
                              /\ (snd t = 0%nat \/ In t skips)) ins
      end
      /\ well_wired skips lo (S pos) rest
  end.

(** The nodes [new], created from position [base] on, end with the output
    head of the builders: a block of the caller's [n_filters] with no
    activation and attention on, then a block of [n_channels_out] filters
    with the output activation, no dropout and attention off, which reads
    the former and whose output is the output of model [m]; the model is
    named after the backbone. *)
Definition ends_with_output_head (c : config) (base : nat) (m : Model)
    (new : list node) : Prop :=
  exists pre x,
    new = pre
          ++ [LayerNode (ConvBlock
                {| kw_filters := n_filters c; kw_activation := None;
                   kw_dropout_rate := dropout_rate c;
                   kw_dropout_variant := Default;
                   kw_normalization := normalization c;
                   kw_attention := Passed true; kw_name := Default |}) [x];
              LayerNode (ConvBlock
                {| kw_filters := n_channels_out c;
                   kw_activation := output_activation c;
                   kw_dropout_rate := 0; kw_dropout_variant := Default;
                   kw_normalization := normalization c;
                   kw_attention := Passed false; kw_name := Default |})
                [((base + List.length pre)%nat, 0%nat)]]
    /\ outputs m = Tensor (S (base + List.length pre), 0%nat)
    /\ model_name m = (backbone_block c ++ "_pin")%string.

(** * Properties *)

Example str_samples : str 0 = "0" /\ str 12 = "12" /\ str (-1) = "-1".
Proof. repeat split. Qed.

(** ** The depth validator *)

Lemma floordiv_pow2_nonneg n power :
  0 <= power -> floordiv_pow2 n power = n / 2 ^ power.
Proof.
  intros Hp. unfold floordiv_pow2.
  destruct (Z.leb_spec 0 power); [reflexivity | lia].
Qed.

Lemma too_deep_false_iff h w power :
  0 <= power ->
  too_deep (h, w) power = false <-> 2 <= h / 2 ^ power /\ 2 <= w / 2 ^ power.
Proof.
  intros Hp. unfold too_deep. cbn [fst snd].
  rewrite !floordiv_pow2_nonneg by assumption.
  rewrite orb_false_iff, !Z.ltb_ge. reflexivity.
Qed.

Lemma too_deep_zero h w : 2 <= h -> 2 <= w -> too_deep (h, w) 0 = false.
Proof.
  intros Hh Hw. apply too_deep_false_iff; [lia |].
  change (2 ^ 0) with 1. rewrite !Z.div_1_r. lia.
Qed.

(** The loop counts down from [d] to the first depth that is not too deep,
    printing one line per step; [S d] rounds of fuel are enough. *)
Lemma check_nblocks_run h w :
  2 <= h -> 2 <= w ->
  forall fuel d w0,
    0 <= d -> (Z.to_nat d < fuel)%nat ->
    exists e out,
      _check_nblocks fuel (h, w) d w0
        = (Ok e, {| graph := graph w0; stdout := stdout w0 ++ out |})
      /\ 0 <= e <= d
      /\ too_deep (h, w) e = false
      /\ (forall e', e < e' <= d -> too_deep (h, w) e' = true)
      /\ List.length out = Z.to_nat (d - e).
Proof.
  intros Hh Hw. induction fuel as [| fuel IH]; intros d w0 Hd Hfuel; [lia |].
  cbn [_check_nblocks].
  destruct (too_deep (h, w) d) eqn:Hdeep.
  - assert (d <> 0) by (intros ->; rewrite too_deep_zero in Hdeep; congruence).
    destruct (IH (d - 1) {| graph := graph w0;
                            stdout := stdout w0 ++ [nblocks_msg d] |})
      as (e & out & Hrun & He & Hok & Hmax & Hlen); [lia | lia |].
    exists e, (nblocks_msg d :: out).
    unfold bind, print. rewrite Hrun. cbn [graph stdout].
    rewrite <- app_assoc. cbn [app].
    repeat split; try lia; try assumption.
    + intros e' He'. destruct (Z.eq_dec e' d) as [-> | Hne]; [assumption |].
      apply Hmax. lia.
    + cbn [List.length]. rewrite Hlen. lia.
  - exists d, []. rewrite app_nil_r. destruct w0 as [g o]. cbn.
    repeat split; try lia; try assumption.
Qed.

(** C1: for a shape with both dimensions at least 2 and a requested depth
    [d >= 0], [_check_nblocks] ends (any fuel above [d] is enough) and
    returns the largest depth [e <= d] with [h // 2^e >= 2] and
    [w // 2^e >= 2]; (64, 64) with depth 6 gives 5, and (256, 256) with
    depth 6 gives 6. *)
Theorem check_nblocks_largest_valid_depth :
  (forall h w d fuel w0,
      2 <= h -> 2 <= w -> 0 <= d -> (Z.to_nat d < fuel)%nat ->
      exists e w1,
        _check_nblocks fuel (h, w) d w0 = (Ok e, w1)
        /\ 0 <= e <= d
        /\ (2 <= h / 2 ^ e /\ 2 <= w / 2 ^ e)
        /\ (forall e', e < e' <= d -> ~ (2 <= h / 2 ^ e' /\ 2 <= w / 2 ^ e')))
  /\ fst (_check_nblocks 7 (64, 64) 6 fresh) = Ok 5
  /\ fst (_check_nblocks 7 (256, 256) 6 fresh) = Ok 6.
Proof.
  split; [| split; reflexivity].
  intros h w d fuel w0 Hh Hw Hd Hfuel.
  destruct (check_nblocks_run h w Hh Hw fuel d w0 Hd Hfuel)
    as (e & out & Hrun & He & Hok & Hmax & _).
  exists e, {| graph := graph w0; stdout := stdout w0 ++ out |}.
  split; [assumption |]. split; [assumption |]. split.
  - apply too_deep_false_iff; [lia | assumption].
  - intros e' He' Hvalid.
    apply too_deep_false_iff in Hvalid; [| lia].
    rewrite (Hmax e' He') in Hvalid. discriminate.
Qed.

Lemma check_nblocks_largest_valid_depth_witness :
  exists e w1,
    _check_nblocks 4 (17, 9) 3 fresh = (Ok e, w1)
    /\ 0 <= e <= 3
    /\ (2 <= 17 / 2 ^ e /\ 2 <= 9 / 2 ^ e)
    /\ (forall e', e < e' <= 3 -> ~ (2 <= 17 / 2 ^ e' /\ 2 <= 9 / 2 ^ e')).
Proof.
  apply (proj1 check_nblocks_largest_valid_depth 17 9 3 4%nat fresh);
    [lia | lia | lia | vm_compute; lia].
Defined.

(** C9, as the code has it: for a shape with both dimensions at least 2
    and a requested depth [d >= 0], the loop condition is false at depth 0,
    so [_check_nblocks] ends and returns a depth between 0 and [d]. *)
Theorem check_nblocks_terminates_nonneg h w d fuel w0 :
  2 <= h -> 2 <= w -> 0 <= d -> (Z.to_nat d < fuel)%nat ->
  too_deep (h, w) 0 = false
  /\ exists e w1, _check_nblocks fuel (h, w) d w0 = (Ok e, w1) /\ 0 <= e <= d.
Proof.
  intros Hh Hw Hd Hfuel. split; [now apply too_deep_zero |].
  destruct (check_nblocks_run h w Hh Hw fuel d w0 Hd Hfuel)
    as (e & out & Hrun & He & _).
  eauto.
Qed.

Lemma check_nblocks_terminates_nonneg_witness :
  too_deep (2, 3) 0 = false
  /\ exists e w1, _check_nblocks 6 (2, 3) 5 fresh = (Ok e, w1) /\ 0 <= e <= 5.
Proof.
  apply (check_nblocks_terminates_nonneg 2 3 5 6%nat fresh);
    [lia | lia | lia | vm_compute; lia].
Defined.

(** C9 as stated fails on a 1 x 1 grid: [1 // 2**0 = 1 < 2], so the loop
    steps to depth -1, where [1 // 2**-1 = 1 // 0.5 = 2.0]; the validator
    returns -1. *)
Lemma check_nblocks_positive_shape_negative_depth :
  ~ (forall h w d, 0 < h -> 0 < w -> 0 <= d ->
       exists fuel e w1,
         _check_nblocks fuel (h, w) d fresh = (Ok e, w1) /\ 0 <= e).
Proof.
  intros Hclaim.
  destruct (Hclaim 1 1 0) as (fuel & e & w1 & Hrun & He); try lia.
  destruct fuel as [| [| fuel]]; cbn in Hrun; inversion Hrun; subst; lia.
Qed.

(** ** Running the monad *)

Lemma grow_nil w : grow w [] = w.
Proof. destruct w. unfold grow. cbn. now rewrite app_nil_r. Qed.

Lemma grow_grow w a b : grow (grow w a) b = grow w (a ++ b).
Proof. unfold grow. cbn. now rewrite app_assoc. Qed.

Lemma length_graph_grow w a :
  List.length (graph (grow w a)) = (List.length (graph w) + List.length a)%nat.
Proof. unfold grow. cbn. now rewrite length_app. Qed.

Lemma bind_ok {A B} (m : M A) (k : A -> M B) w a w' :
  m w = (Ok a, w') -> bind m k w = k a w'.
Proof. intros H. unfold bind. now rewrite H. Qed.

Lemma call_run1 l x w :
  call l [Tensor x] w
  = (Ok (Tensor (List.length (graph w), 0%nat)), grow w [LayerNode l [x]]).
Proof. reflexivity. Qed.

Lemma call_run2 l x y w :
  call l [Tensor x; Tensor y] w
  = (Ok (Tensor (List.length (graph w), 0%nat)), grow w [LayerNode l [x; y]]).
Proof. reflexivity. Qed.

Lemma call2_run l x w :
  call2 l [Tensor x] w
  = (Ok (Tensor (List.length (graph w), 0%nat),
         Tensor (List.length (graph w), 1%nat)),
     grow w [LayerNode l [x]]).
Proof. reflexivity. Qed.

(** ** The loops of [unet_pin] *)

Lemma encoder_loop_run c dv : forall stages x skips fl f w,
  for_each stages (encoder_stage c dv)
    {| enc_x := Tensor x; enconding_filters := skips; n_filters_list := fl;
       enc_n_filters := f |} w
  = (Ok {| enc_x := Tensor (enc_out (List.length (graph w)) x (List.length stages));
           enconding_filters :=
             skips ++ map Tensor (enc_skips (List.length (graph w)) (List.length stages));
           n_filters_list := fl ++ schedule f (List.length stages);
           enc_n_filters := final_filters f (List.length stages) |},
     grow w (enc_nodes c dv (List.length (graph w)) x f stages)).
Proof.
  induction stages as [| i rest IH]; intros x skips fl f w.
  - cbn. now rewrite !app_nil_r, grow_nil.
  - cbn [for_each]. unfold encoder_stage at 1. cbn [enc_x enc_n_filters].
    erewrite bind_ok; [| erewrite bind_ok; [| apply call2_run]; reflexivity].
    cbn [enconding_filters n_filters_list].
    rewrite IH, length_graph_grow, grow_grow, Nat.add_1_r, <- !app_assoc.
    reflexivity.
Qed.

Lemma bind_ret {A B} (a : A) (k : A -> M B) w : bind (ret a) k w = k a w.
Proof. reflexivity. Qed.

Lemma bind_assoc {A B C} (m : M A) (k : A -> M B) (k' : B -> M C) w :
  bind (bind m k) k' w = bind m (fun a => bind (k a) k') w.
Proof. unfold bind. destruct (m w) as [[a | e |] w']; reflexivity. Qed.

Lemma bind_call1 {B} l x (k : value -> M B) w :
  bind (call l [Tensor x]) k w
  = k (Tensor (List.length (graph w), 0%nat)) (grow w [LayerNode l [x]]).
Proof. reflexivity. Qed.

Lemma bind_call2 {B} l x y (k : value -> M B) w :
  bind (call l [Tensor x; Tensor y]) k w
  = k (Tensor (List.length (graph w), 0%nat)) (grow w [LayerNode l [x; y]]).
Proof. reflexivity. Qed.

Lemma getitem_app {A} (pre : list A) a rest :
  getitem (pre ++ a :: rest) (Z.of_nat (List.length pre)) = ret a.
Proof.
  unfold getitem. rewrite Nat2Z.id, nth_error_app2 by lia.
  now rewrite Nat.sub_diag.
Qed.

(** Symbolic execution of straight-line builder code. *)
Ltac run :=
  repeat first
    [ rewrite bind_assoc
    | rewrite bind_call1 | rewrite bind_call2 | rewrite bind_ret
    | rewrite call_run1 | rewrite call_run2
    | rewrite grow_grow | rewrite length_graph_grow ];
  cbn [List.length app Nat.add].

Lemma decoder_loop_run c dv : forall stages pre x f0 w,
  for_each
    (combine (map Z.of_nat (seq (List.length pre) (List.length stages)))
             (map (fun s => Tensor (fst s)) stages))
    (decoder_stage c dv (pre ++ map snd stages)) (Tensor x, f0) w
  = (Ok (Tensor (dec_out c (List.length (graph w)) x
                   (Z.of_nat (List.length pre)) stages),
         dec_filters f0 stages),
     grow w (dec_nodes c dv (List.length (graph w)) x
               (Z.of_nat (List.length pre)) stages)).
Proof.
  induction stages as [| [skip f] rest IH]; intros pre x f0 w.
  - cbn. now rewrite grow_nil.
  - cbn [List.length seq map combine for_each fst snd].
    unfold decoder_stage at 1.
    rewrite bind_assoc, getitem_app, bind_ret. unfold decoder_upsample.
    specialize (IH (pre ++ [f])).
    rewrite length_app, Nat.add_1_r, <- app_assoc in IH. cbn [app] in IH.
    rewrite Nat2Z.inj_succ, <- Z.add_1_r in IH.
    cbn [dec_out dec_nodes dec_filters].
    destruct (upsampling_layer c f (Z.of_nat (List.length pre))) as [l |];
      run; rewrite IH; run; rewrite ?Nat.add_1_r, ?Nat.add_succ_r, ?Nat.add_0_r;
      reflexivity.
Qed.

(** ** The tail and the whole of [unet_pin] *)

Lemma input_layer_run {B} free hr ch (k : value -> M B) w :
  bind (input_layer free hr ch) k w
  = k (Tensor (List.length (graph w), 0%nat))
      (grow w [InputNode (input_shape free hr ch)]).
Proof. reflexivity. Qed.

Lemma aux_input_run {B} c free (k : option value -> M B) w :
  bind (aux_input c free) k w
  = k (option_map Tensor (aux_tensor c (List.length (graph w))))
      (grow w (if 0 <? n_aux_channels c
               then [InputNode (input_shape free (hr_size c) (n_aux_channels c))]
               else [])).
Proof.
  unfold aux_input, aux_tensor. destruct (0 <? n_aux_channels c).
  - reflexivity.
  - now rewrite bind_ret, grow_nil.
Qed.

Lemma pin_tail_run c bb f x x_in s_in w :
  pin_tail c bb f (Tensor x) (Tensor x_in) (option_map Tensor s_in) w
  = (Ok {| inputs := Tensor x_in :: match s_in with
                                    | Some s => [Tensor s]
                                    | None => []
                                    end;
           outputs := Tensor (tail_out c (List.length (graph w)) s_in);
           model_name := (bb ++ "_pin")%string |},
     grow w (tail_nodes c f (List.length (graph w)) x s_in)).
Proof.
  unfold pin_tail, tail_nodes, tail_out.
  destruct (localcon_layer c), s_in as [s |]; cbn [option_map]; run;
    unfold ret; cbn [List.length app Nat.add];
    rewrite ?Nat.add_0_r, ?Nat.add_1_r, ?Nat.add_succ_r, ?Nat.add_0_r;
    reflexivity.
Qed.

Lemma length_schedule f n : List.length (schedule f n) = n.
Proof. revert f. induction n; intros f; cbn; [reflexivity | now rewrite IHn]. Qed.

Lemma length_enc_skips base n : List.length (enc_skips base n) = n.
Proof. revert base. induction n; intros b; cbn; [reflexivity | now rewrite IHn]. Qed.

Lemma length_enc_nodes c dv base x f stages :
  List.length (enc_nodes c dv base x f stages) = List.length stages.
Proof.
  revert base x f. induction stages; intros b x f; cbn;
    [reflexivity | now rewrite IHstages].
Qed.

Lemma length_range e : List.length (range e) = Z.to_nat e.
Proof. unfold range. now rewrite length_map, length_seq. Qed.

Lemma map_fst_combine {A B} (a : list A) (b : list B) :
  List.length a = List.length b -> map fst (combine a b) = a.
Proof.
  revert b. induction a as [| x a IH]; intros [| y b] H; cbn in *;
    try reflexivity; try discriminate.
  f_equal. apply IH. lia.
Qed.

Lemma map_snd_combine {A B} (a : list A) (b : list B) :
  List.length a = List.length b -> map snd (combine a b) = b.
Proof.
  revert b. induction a as [| x a IH]; intros [| y b] H; cbn in *;
    try reflexivity; try discriminate.
  f_equal. apply IH. lia.
Qed.

Lemma dec_stages_fst c base n :
  map fst (dec_stages c base n) = rev (enc_skips base n).
Proof.
  apply map_fst_combine.
  now rewrite !length_rev, length_enc_skips, length_schedule.
Qed.

Lemma dec_stages_snd c base n :
  map snd (dec_stages c base n) = rev (schedule (n_filters c) n).
Proof.
  apply map_snd_combine.
  now rewrite !length_rev, length_enc_skips, length_schedule.
Qed.

Lemma length_dec_stages c base n : List.length (dec_stages c base n) = n.
Proof.
  rewrite <- (length_map fst), dec_stages_fst, length_rev.
  apply length_enc_skips.
Qed.

(** [unet_pin], once its arguments are checked and its depth validated,
    returns [unet_model] and adds exactly [unet_nodes] to the graph. *)
Lemma unet_pin_body_run c bb dv e w :
  unet_pin_body c bb dv e w
  = (Ok (unet_model c bb dv e (List.length (graph w))),
     grow w (unet_nodes c dv e (List.length (graph w)))).
Proof.
  unfold unet_pin_body.
  rewrite aux_input_run, input_layer_run, grow_grow.
  fold (input_nodes c (unet_free c)).
  erewrite bind_ok; [| apply encoder_loop_run].
  cbn [enc_x enconding_filters n_filters_list enc_n_filters app].
  rewrite length_range.
  set (base := List.length (graph w)).
  set (ins := input_nodes c (unet_free c)).
  assert (Hb1 : List.length (graph (grow w ins)) = (base + List.length ins)%nat)
    by apply length_graph_grow.
  rewrite Hb1.
  set (b1 := (base + List.length ins)%nat).
  set (n := Z.to_nat e).
  assert (Hx : (List.length (graph (grow w
             (if 0 <? n_aux_channels c
              then [InputNode (input_shape (unet_free c) (hr_size c) (n_aux_channels c))]
              else []))), 0%nat) = primary_tensor c base).
  { unfold primary_tensor. rewrite length_graph_grow. fold base.
    destruct (0 <? n_aux_channels c); reflexivity. }
  rewrite Hx.
  rewrite bind_call1, grow_grow.
  assert (Hdec : enumerate (rev (map Tensor (enc_skips b1 n)))
                 = combine (map Z.of_nat (seq (List.length (@nil Z))
                                 (List.length (dec_stages c b1 n))))
                     (map (fun s => Tensor (fst s)) (dec_stages c b1 n))).
  { unfold enumerate. rewrite <- map_rev, length_map, length_rev.
    rewrite length_enc_skips, length_dec_stages.
    rewrite <- (map_map fst Tensor), dec_stages_fst. reflexivity. }
  rewrite Hdec.
  assert (Hfl : rev (schedule (n_filters c) n)
                = [] ++ map snd (dec_stages c b1 n))
    by (now rewrite dec_stages_snd).
  rewrite Hfl.
  erewrite bind_ok; [| apply decoder_loop_run].
  cbn [List.length Z.of_nat].
  rewrite grow_grow, pin_tail_run.
  rewrite !length_graph_grow, !length_app, length_enc_nodes, length_range.
  cbn [List.length]. fold base n.
  unfold unet_model, unet_nodes. fold ins b1 n.
  replace (base + (List.length ins + n + 1))%nat with (S (b1 + n))
    by (unfold b1; lia).
  replace (base + (List.length ins + n))%nat with (b1 + n)%nat
    by (unfold b1; lia).
  rewrite !grow_grow, <- !app_assoc.
  reflexivity.
Qed.

Lemma checkarg_backbone_run BB b w :
  checkarg_backbone BB b w
  = if existsb (String.eqb b) BB then (Ok b, w)
    else (Raise (ValueError "backbone_block" b BB), w).
Proof. unfold checkarg_backbone. now destruct (existsb _ BB). Qed.

Lemma checkarg_dropout_variant_run DV v w :
  checkarg_dropout_variant DV v w
  = match v with
    | None => (Ok None, w)
    | Some s => if existsb (String.eqb s) DV then (Ok (Some s), w)
                else (Raise (ValueError "dropout_variant" s DV), w)
    end.
Proof.
  unfold checkarg_dropout_variant. destruct v as [s |]; [| reflexivity].
  now destruct (existsb _ DV).
Qed.

Lemma check_nblocks_graph fuel shape : forall power w r w',
  _check_nblocks fuel shape power w = (r, w') -> graph w' = graph w.
Proof.
  induction fuel as [| fuel IH]; intros power w r w' H; cbn in H.
  - now inversion H.
  - destruct (too_deep shape power).
    + unfold bind, print in H. cbn in H.
      destruct (_check_nblocks fuel shape (power - 1) _) as [[e | x |] w2] eqn:Hrec;
        inversion H; subst; apply IH in Hrec; exact Hrec.
    + now inversion H.
Qed.

(** Both checks pass, the validator returns [e]: [unet_pin] returns. *)
Lemma unet_pin_run BB DV fuel c w e w' :
  valid_args BB DV c = true ->
  _check_nblocks fuel (hr_size c) (n_blocks c) w = (Ok e, w') ->
  unet_pin BB DV fuel c w
  = (Ok (unet_model c (backbone_block c) (dropout_variant c) e
           (List.length (graph w))),
     grow w' (unet_nodes c (dropout_variant c) e (List.length (graph w)))).
Proof.
  intros Hvalid Hcheck. unfold valid_args in Hvalid.
  apply andb_prop in Hvalid as [Hbb Hdv].
  unfold unet_pin, bind at 1. rewrite checkarg_backbone_run, Hbb.
  unfold bind at 1. rewrite checkarg_dropout_variant_run.
  assert (Hg : graph w' = graph w) by (eapply check_nblocks_graph; eassumption).
  destruct (dropout_variant c) as [v |]; [rewrite Hdv |];
    (erewrite bind_ok; [| exact Hcheck]);
    now rewrite unet_pin_body_run, Hg.
Qed.

(** A model comes back only that way. *)
Lemma unet_pin_inv BB DV fuel c w m w1 :
  unet_pin BB DV fuel c w = (Ok m, w1) ->
  valid_args BB DV c = true
  /\ exists e w',
      _check_nblocks fuel (hr_size c) (n_blocks c) w = (Ok e, w')
      /\ m = unet_model c (backbone_block c) (dropout_variant c) e
               (List.length (graph w))
      /\ graph w1 = graph w ++ unet_nodes c (dropout_variant c) e
                                 (List.length (graph w)).
Proof.
  intros Hrun.
  destruct (valid_args BB DV c) eqn:Hvalid.
  - split; [reflexivity |].
    destruct (_check_nblocks fuel (hr_size c) (n_blocks c) w)
      as [[e | x |] w'] eqn:Hcheck.
    + rewrite (unet_pin_run BB DV fuel c w e w' Hvalid Hcheck) in Hrun.
      inversion Hrun; subst. exists e, w'.
      repeat split. cbn. f_equal. eapply check_nblocks_graph; eassumption.
    + exfalso. unfold valid_args in Hvalid.
      apply andb_prop in Hvalid as [Hbb Hdv].
      unfold unet_pin, bind at 1 in Hrun.
      rewrite checkarg_backbone_run, Hbb in Hrun.
      unfold bind at 1 in Hrun. rewrite checkarg_dropout_variant_run in Hrun.
      destruct (dropout_variant c); [rewrite Hdv in Hrun |];
        unfold bind at 1 in Hrun; rewrite Hcheck in Hrun; discriminate.
    + exfalso. unfold valid_args in Hvalid.
      apply andb_prop in Hvalid as [Hbb Hdv].
      unfold unet_pin, bind at 1 in Hrun.
      rewrite checkarg_backbone_run, Hbb in Hrun.
      unfold bind at 1 in Hrun. rewrite checkarg_dropout_variant_run in Hrun.
      destruct (dropout_variant c); [rewrite Hdv in Hrun |];
        unfold bind at 1 in Hrun; rewrite Hcheck in Hrun; discriminate.
  - exfalso. unfold valid_args in Hvalid.
    unfold unet_pin, bind at 1 in Hrun.
    rewrite checkarg_backbone_run in Hrun.
    destruct (existsb (String.eqb (backbone_block c)) BB); [| discriminate].
    unfold bind at 1 in Hrun. rewrite checkarg_dropout_variant_run in Hrun.
    destruct (dropout_variant c) as [v |]; [| discriminate].
    cbn in Hvalid. rewrite Hvalid in Hrun. discriminate.
Qed.

(** ** What the graph of [unet_pin] contains *)

Lemma upsampling_layer_cases c f j :
  upsampling_layer c f j = Some (SubpixelConvolutionBlock 2 f (str (j + 1)))
  \/ upsampling_layer c f j
     = Some (UpSampling2D 2 "bilinear" ("BilinearUpsampling" ++ str (j + 1))%string)
  \/ upsampling_layer c f j
     = Some (DeconvolutionBlock 2 f (activation c) (str (j + 1)))
  \/ upsampling_layer c f j = None.
Proof.
  unfold upsampling_layer.
  destruct (decoder_upsampling c =? "spc")%string; [now left |].
  destruct (decoder_upsampling c =? "rc")%string; [now right; left |].
  destruct (decoder_upsampling c =? "dc")%string; [now right; right; left |].
  now right; right; right.
Qed.

Lemma decoder_block_named c dv f j :
  is_decoder_block
    {| kw_filters := f; kw_activation := activation c;
       kw_dropout_rate := dropout_rate c; kw_dropout_variant := Passed dv;
       kw_normalization := normalization c;
       kw_attention := Passed (attention c);
       kw_name := Passed ("DecoderConvBlock" ++ str (j + 1))%string |} = true.
Proof.
  unfold is_decoder_block. cbn [kw_name].
  generalize (str (j + 1)). intros s. cbn. now destruct s.
Qed.

Lemma recorded_skips_app base a b :
  recorded_skips base (a ++ b)
  = recorded_skips base a ++ recorded_skips (base + List.length a) b.
Proof.
  revert base. induction a as [| n a IH]; intros base; cbn [app recorded_skips List.length].
  - now rewrite Nat.add_0_r.
  - rewrite IH, <- app_assoc. now rewrite Nat.add_succ_comm.
Qed.

Lemma recorded_skips_none base ns :
  encoder_filters ns = [] -> recorded_skips base ns = [].
Proof.
  revert base. induction ns as [| n ns IH]; intros base H; [reflexivity |].
  unfold encoder_filters in H. cbn [flat_map] in H.
  apply app_eq_nil in H as [Hn Hns].
  cbn [recorded_skips]. rewrite (IH _ Hns), app_nil_r.
  destruct n as [| [] ?]; try reflexivity. discriminate.
Qed.

Section Segments.

Variables (c : config) (dv : option string).

Lemma input_nodes_observed free :
  encoder_filters (input_nodes c free) = []
  /\ decoder_filters (input_nodes c free) = []
  /\ consumed_skips (input_nodes c free) = []
  /\ bottleneck_blocks (input_nodes c free) = [].
Proof. unfold input_nodes. destruct (0 <? n_aux_channels c); repeat split. Qed.

Lemma enc_nodes_observed : forall stages base x f,
  encoder_filters (enc_nodes c dv base x f stages) = schedule f (List.length stages)
  /\ decoder_filters (enc_nodes c dv base x f stages) = []
  /\ consumed_skips (enc_nodes c dv base x f stages) = []
  /\ bottleneck_blocks (enc_nodes c dv base x f stages) = []
  /\ recorded_skips base (enc_nodes c dv base x f stages)
     = enc_skips base (List.length stages).
Proof.
  induction stages as [| i rest IH]; intros base x f; [repeat split |].
  destruct (IH (S base) (base, 0%nat) (Z.min 256 (f * 2)))
    as (He & Hd & Hc & Hb & Hr).
  cbn [enc_nodes List.length schedule enc_skips].
  unfold encoder_filters, decoder_filters, consumed_skips, bottleneck_blocks in *.
  cbn [flat_map encoder_block recorded_skips app].
  rewrite He, Hd, Hc, Hb, Hr. repeat split.
Qed.

Lemma bottleneck_observed f x :
  let b := [LayerNode (bottleneck c dv f) [x]] in
  encoder_filters b = []
  /\ decoder_filters b = []
  /\ consumed_skips b = []
  /\ bottleneck_blocks b
     = [({| kw_filters := f; kw_activation := activation c;
            kw_dropout_rate := dropout_rate c;
            kw_dropout_variant := Passed dv; kw_normalization := None;
            kw_attention := Default; kw_name := Passed "Bottleneck" |}, [x])].
Proof. repeat split. Qed.

Lemma dec_nodes_observed : forall stages base x j,
  encoder_filters (dec_nodes c dv base x j stages) = []
  /\ decoder_filters (dec_nodes c dv base x j stages) = map snd stages
  /\ consumed_skips (dec_nodes c dv base x j stages) = map fst stages
  /\ bottleneck_blocks (dec_nodes c dv base x j stages) = [].
Proof.
  induction stages as [| [skip f] rest IH]; intros base x j; [repeat split |].
  cbn [dec_nodes map fst snd].
  assert (Hname : forall s, (("DecoderConvBlock" ++ s)%string =? "Bottleneck")%string = false)
    by reflexivity.
  destruct (upsampling_layer_cases c f j) as [H | [H | [H | H]]]; rewrite H;
    [ destruct (IH (3 + base)%nat ((2 + base)%nat, 0%nat) (j + 1)) as (He & Hd & Hc & Hb)
    | destruct (IH (3 + base)%nat ((2 + base)%nat, 0%nat) (j + 1)) as (He & Hd & Hc & Hb)
    | destruct (IH (3 + base)%nat ((2 + base)%nat, 0%nat) (j + 1)) as (He & Hd & Hc & Hb)
    | destruct (IH (2 + base)%nat ((1 + base)%nat, 0%nat) (j + 1)) as (He & Hd & Hc & Hb) ];
    unfold encoder_filters, decoder_filters, consumed_skips, bottleneck_blocks in *;
    cbn [flat_map skip_concat decoder_block kw_name kw_filters app];
    rewrite ?decoder_block_named, ?Hname, He, Hd, Hc, Hb; repeat split.
Qed.

Lemma tail_nodes_observed f base x s_in :
  encoder_filters (tail_nodes c f base x s_in) = []
  /\ decoder_filters (tail_nodes c f base x s_in) = []
  /\ consumed_skips (tail_nodes c f base x s_in) = []
  /\ bottleneck_blocks (tail_nodes c f base x s_in) = [].
Proof.
  unfold tail_nodes. destruct (localcon_layer c), s_in; repeat split.
Qed.

End Segments.

Lemma enc_skips_ge base n t : In t (enc_skips base n) -> (base <= fst t)%nat.
Proof.
  revert base. induction n as [| n IH]; intros base H; cbn in H; [contradiction |].
  destruct H as [<- | H]; [cbn; lia |]. apply IH in H. lia.
Qed.

Lemma NoDup_enc_skips base n : NoDup (enc_skips base n).
Proof.
  revert base. induction n as [| n IH]; intros base; cbn; constructor.
  - intros H. apply enc_skips_ge in H. cbn in H. lia.
  - apply IH.
Qed.

Lemma schedule_head f n a : nth_error (schedule f n) 0 = Some a -> a = f.
Proof. destruct n; cbn; congruence. Qed.

Lemma schedule_step : forall n f i a b,
  nth_error (schedule f n) i = Some a ->
  nth_error (schedule f n) (S i) = Some b ->
  b = Z.min 256 (a * 2).
Proof.
  induction n as [| n IH]; intros f i a b Ha Hb; [discriminate |].
  destruct i as [| i]; cbn in Ha, Hb.
  - inversion Ha; subst. now apply schedule_head in Hb.
  - eapply IH; eassumption.
Qed.

Lemma final_filters_last : forall n f,
  final_filters f (S n) = Z.min 256 (last (schedule f (S n)) 0 * 2).
Proof.
  induction n as [| n IH]; intros f; [reflexivity |].
  change (final_filters f (S (S n)))
    with (final_filters (Z.min 256 (f * 2)) (S n)).
  rewrite IH. reflexivity.
Qed.

(** The encoder and decoder blocks, the skip tensors and the bottleneck
    found in the nodes [unet_pin] creates. *)
Lemma unet_nodes_observed c dv e base :
  let n := Z.to_nat e in
  let b1 := (base + List.length (input_nodes c (unet_free c)))%nat in
  let new := unet_nodes c dv e base in
  encoder_filters new = schedule (n_filters c) n
  /\ decoder_filters new = rev (schedule (n_filters c) n)
  /\ consumed_skips new = rev (enc_skips b1 n)
  /\ recorded_skips base new = enc_skips b1 n
  /\ bottleneck_blocks new
     = [({| kw_filters := final_filters (n_filters c) n;
            kw_activation := activation c;
            kw_dropout_rate := dropout_rate c;
            kw_dropout_variant := Passed dv; kw_normalization := None;
            kw_attention := Default; kw_name := Passed "Bottleneck" |},
         [enc_out b1 (primary_tensor c base) n])].
Proof.
  intros n b1 new. subst new. unfold unet_nodes. fold n b1.
  set (ins := input_nodes c (unet_free c)).
  set (x_in := primary_tensor c base).
  set (enc := enc_nodes c dv b1 x_in (n_filters c) (range e)).
  set (fb := final_filters (n_filters c) n).
  set (bot := [LayerNode (bottleneck c dv fb) [enc_out b1 x_in n]]).
  set (dec := dec_nodes c dv (S (b1 + n)) ((b1 + n)%nat, 0%nat) 0 (dec_stages c b1 n)).
  set (tl := tail_nodes c _ _ _ _).
  destruct (input_nodes_observed c (unet_free c)) as (Ie & Id & Ic & Ib).
  destruct (enc_nodes_observed c dv (range e) b1 x_in (n_filters c))
    as (Ee & Ed & Ec & Eb & Er).
  rewrite length_range in Ee, Er.
  destruct (bottleneck_observed c dv fb (enc_out b1 x_in n)) as (Be & Bd & Bc & Bb).
  destruct (dec_nodes_observed c dv (dec_stages c b1 n) (S (b1 + n))
              ((b1 + n)%nat, 0%nat) 0) as (De & Dd & Dc & Db).
  rewrite dec_stages_snd in Dd. rewrite dec_stages_fst in Dc.
  destruct (tail_nodes_observed c (dec_filters fb (dec_stages c b1 n))
              (S (b1 + n) + List.length dec)
              (dec_out c (S (b1 + n)) ((b1 + n)%nat, 0%nat) 0 (dec_stages c b1 n))
              (aux_tensor c base)) as (Te & Td & Tc & Tb).
  fold ins enc bot dec tl in Ie, Id, Ic, Ib, Ee, Ed, Ec, Eb, Er, Be, Bd, Bc, Bb,
    De, Dd, Dc, Db, Te, Td, Tc, Tb.
  assert (Hrest : encoder_filters (bot ++ dec ++ tl) = []).
  { unfold encoder_filters in *. rewrite !flat_map_app. now rewrite Be, De, Te. }
  repeat split.
  - unfold encoder_filters in *. rewrite !flat_map_app.
    now rewrite Ie, Ee, Be, De, Te, !app_nil_r.
  - unfold decoder_filters in *. rewrite !flat_map_app.
    now rewrite Id, Ed, Bd, Dd, Td, !app_nil_r.
  - unfold consumed_skips in *. rewrite !flat_map_app.
    now rewrite Ic, Ec, Bc, Dc, Tc, !app_nil_r.
  - rewrite (recorded_skips_app base ins).
    change (base + List.length ins)%nat with b1.
    rewrite (recorded_skips_app b1 enc).
    rewrite (recorded_skips_none base ins Ie), Er.
    now rewrite (recorded_skips_none _ _ Hrest), app_nil_r.
  - unfold bottleneck_blocks in *. rewrite !flat_map_app.
    now rewrite Ib, Eb, Bb, Db, Tb, !app_nil_r.
Qed.

Lemma hd_error_rev {A} (l : list A) :
  hd_error (rev l) = nth_error l (Nat.pred (List.length l)).
Proof.
  destruct l as [| a l] using rev_ind; [reflexivity |].
  rewrite rev_app_distr, length_app, Nat.add_1_r. cbn [rev app hd_error Nat.pred].
  rewrite nth_error_app2 by lia. now rewrite Nat.sub_diag.
Qed.

(** ** The filter schedule *)

(** C4: the encoder filter counts start at [n_filters] and double from one
    stage to the next, capped at 256; the filter counts of the decoder
    blocks are that very list reversed, so the first decoder count is the
    last encoder count; with [n_filters = 32] and an effective depth of 4
    the lists are [32, 64, 128, 256] and [256, 128, 64, 32]. *)
Theorem unet_filter_schedule_reversed BB DV c fuel w m w1 :
  unet_pin BB DV fuel c w = (Ok m, w1) ->
  exists e w' new,
    _check_nblocks fuel (hr_size c) (n_blocks c) w = (Ok e, w')
    /\ graph w1 = graph w ++ new
    /\ List.length (encoder_filters new) = Z.to_nat e
    /\ (forall a, nth_error (encoder_filters new) 0 = Some a -> a = n_filters c)
    /\ (forall i a b,
           nth_error (encoder_filters new) i = Some a ->
           nth_error (encoder_filters new) (S i) = Some b ->
           b = Z.min 256 (a * 2))
    /\ decoder_filters new = rev (encoder_filters new)
    /\ hd_error (decoder_filters new)
       = nth_error (encoder_filters new)
           (Nat.pred (List.length (encoder_filters new)))
    /\ (n_filters c = 32 -> e = 4 ->
        encoder_filters new = [32; 64; 128; 256]
        /\ decoder_filters new = [256; 128; 64; 32]).
Proof.
  intros Hrun.
  destruct (unet_pin_inv BB DV fuel c w m w1 Hrun) as (_ & e & w' & Hcheck & _ & Hgraph).
  exists e, w', (unet_nodes c (dropout_variant c) e (List.length (graph w))).
  destruct (unet_nodes_observed c (dropout_variant c) e (List.length (graph w)))
    as (He & Hd & _).
  rewrite Hd, He.
  split; [exact Hcheck |]. split; [exact Hgraph |].
  split; [apply length_schedule |].
  split; [intros a; apply schedule_head |].
  split; [intros i a b; apply schedule_step |].
  split; [reflexivity |].
  split; [apply hd_error_rev |].
  intros Hf ->. rewrite Hf. split; reflexivity.
Qed.

Lemma unet_filter_schedule_reversed_witness :
  exists e w' new,
    _check_nblocks 5 (64, 64) 4 fresh = (Ok e, w')
    /\ graph (snd (unet_pin sample_backbones sample_dropouts 5
                     (sample "convnet" 0 4 (64, 64) (Some "spatial") false "rc" false)
                     fresh))
       = graph fresh ++ new
    /\ List.length (encoder_filters new) = Z.to_nat e
    /\ (forall a, nth_error (encoder_filters new) 0 = Some a -> a = 32)
    /\ (forall i a b,
           nth_error (encoder_filters new) i = Some a ->
           nth_error (encoder_filters new) (S i) = Some b ->
           b = Z.min 256 (a * 2))
    /\ decoder_filters new = rev (encoder_filters new)
    /\ hd_error (decoder_filters new)
       = nth_error (encoder_filters new)
           (Nat.pred (List.length (encoder_filters new)))
    /\ (32 = 32 -> e = 4 ->
        encoder_filters new = [32; 64; 128; 256]
        /\ decoder_filters new = [256; 128; 64; 32]).
Proof.
  eapply (unet_filter_schedule_reversed sample_backbones sample_dropouts
            (sample "convnet" 0 4 (64, 64) (Some "spatial") false "rc" false)
            5 fresh).
  vm_compute. reflexivity.
Defined.

(** ** Decoder stages and skip connections *)

(** C5, as the code has it: the decoder has as many stages as the encoder,
    [range] of the validated depth [e] - so exactly [e] whenever [e] is not
    negative, whatever depth was requested - and the skip tensors it
    concatenates are the recorded ones, each once, in reverse order of
    recording. *)
Theorem unet_decoder_stages_follow_validated_depth BB DV c fuel w m w1 :
  unet_pin BB DV fuel c w = (Ok m, w1) ->
  exists e w' new,
    _check_nblocks fuel (hr_size c) (n_blocks c) w = (Ok e, w')
    /\ graph w1 = graph w ++ new
    /\ List.length (decoder_filters new) = Z.to_nat e
    /\ List.length (encoder_filters new) = Z.to_nat e
    /\ (0 <= e -> Z.of_nat (List.length (decoder_filters new)) = e)
    /\ List.length (recorded_skips (List.length (graph w)) new) = Z.to_nat e
    /\ NoDup (recorded_skips (List.length (graph w)) new)
    /\ consumed_skips new = rev (recorded_skips (List.length (graph w)) new).
Proof.
  intros Hrun.
  destruct (unet_pin_inv BB DV fuel c w m w1 Hrun) as (_ & e & w' & Hcheck & _ & Hgraph).
  exists e, w', (unet_nodes c (dropout_variant c) e (List.length (graph w))).
  destruct (unet_nodes_observed c (dropout_variant c) e (List.length (graph w)))
    as (He & Hd & Hc & Hr & _).
  rewrite Hd, He, Hc, Hr, length_rev, length_schedule, length_enc_skips.
  repeat split; try assumption.
  - intros Hpos. now apply Z2Nat.id.
  - apply NoDup_enc_skips.
Qed.

Lemma unet_decoder_stages_follow_validated_depth_witness :
  exists e w' new,
    _check_nblocks 7 (64, 64) 6 fresh = (Ok e, w')
    /\ graph (snd (unet_pin sample_backbones sample_dropouts 7
                     (sample "convnet" 0 6 (64, 64) (Some "spatial") false "rc" false)
                     fresh))
       = graph fresh ++ new
    /\ List.length (decoder_filters new) = Z.to_nat e
    /\ List.length (encoder_filters new) = Z.to_nat e
    /\ (0 <= e -> Z.of_nat (List.length (decoder_filters new)) = e)
    /\ List.length (recorded_skips (List.length (graph fresh)) new) = Z.to_nat e
    /\ NoDup (recorded_skips (List.length (graph fresh)) new)
    /\ consumed_skips new = rev (recorded_skips (List.length (graph fresh)) new).
Proof.
  eapply (unet_decoder_stages_follow_validated_depth sample_backbones sample_dropouts
            (sample "convnet" 0 6 (64, 64) (Some "spatial") false "rc" false)
            7 fresh).
  vm_compute. reflexivity.
Defined.

(** C5 as stated fails on a 1 x 1 grid: the validator returns -1, and
    [range(-1)] is empty, so there are no decoder stages, not -1 of them. *)
Lemma unet_decoder_stages_differ_from_negative_depth :
  ~ (forall c fuel m w1 e w',
        unet_pin sample_backbones sample_dropouts fuel c fresh = (Ok m, w1) ->
        _check_nblocks fuel (hr_size c) (n_blocks c) fresh = (Ok e, w') ->
        Z.of_nat (List.length (decoder_filters (graph w1))) = e).
Proof.
  intros Hclaim.
  set (c := sample "convnet" 0 0 (1, 1) (Some "spatial") false "rc" false).
  assert (H : Z.of_nat (List.length (decoder_filters
                (graph (snd (unet_pin sample_backbones sample_dropouts 2 c fresh)))))
              = -1).
  { eapply Hclaim with (c := c) (fuel := 2%nat); vm_compute; reflexivity. }
  vm_compute in H. discriminate.
Qed.

(** ** The bottleneck *)

Lemma enc_out_last : forall k base x,
  enc_out base x (S k) = ((base + k)%nat, 0%nat)
  /\ forall d, last (enc_skips base (S k)) d = ((base + k)%nat, 1%nat).
Proof.
  induction k as [| k IH]; intros base x.
  - cbn. now rewrite Nat.add_0_r.
  - destruct (IH (S base) (base, 0%nat)) as [Hout Hlast].
    change (enc_out base x (S (S k))) with (enc_out (S base) (base, 0%nat) (S k)).
    rewrite Hout, Nat.add_succ_comm. split; [reflexivity |].
    intros d. change (enc_skips base (S (S k)))
      with ((base, 1%nat) :: enc_skips (S base) (S k)).
    specialize (Hlast d). cbn [enc_skips] in *. cbn [last] in *.
    now rewrite Hlast, Nat.add_succ_comm.
Qed.

(** C7, as the code has it: there is one block named Bottleneck; its
    filter count is [n_filters] as the encoder loop leaves it - the count
    of the last encoder stage doubled and capped at 256, or the original
    [n_filters] when there is no stage - and it reads the downsampled
    output of the last encoder stage; activation and dropout come from the
    caller, [normalization] is [None], and no [attention] argument is
    passed, whatever the caller's [attention] is. *)
Theorem unet_bottleneck_block BB DV c fuel w m w1 :
  unet_pin BB DV fuel c w = (Ok m, w1) ->
  exists e w' new a x,
    _check_nblocks fuel (hr_size c) (n_blocks c) w = (Ok e, w')
    /\ graph w1 = graph w ++ new
    /\ bottleneck_blocks new = [(a, [x])]
    /\ kw_filters a = final_filters (n_filters c) (Z.to_nat e)
    /\ (encoder_filters new = [] -> kw_filters a = n_filters c)
    /\ (encoder_filters new <> [] ->
        kw_filters a = Z.min 256 (last (encoder_filters new) 0 * 2)
        /\ forall p k, last (recorded_skips (List.length (graph w)) new) (p, k)
                       = (fst x, 1%nat))
    /\ kw_activation a = activation c
    /\ kw_dropout_rate a = dropout_rate c
    /\ kw_dropout_variant a = Passed (dropout_variant c)
    /\ kw_normalization a = None
    /\ kw_attention a = Default.
Proof.
  intros Hrun.
  destruct (unet_pin_inv BB DV fuel c w m w1 Hrun) as (_ & e & w' & Hcheck & _ & Hgraph).
  destruct (unet_nodes_observed c (dropout_variant c) e (List.length (graph w)))
    as (He & _ & _ & Hr & Hb).
  eexists e, w', _, _, _.
  split; [exact Hcheck |]. split; [exact Hgraph |]. split; [exact Hb |].
  rewrite He, Hr. cbn [kw_filters kw_activation kw_dropout_rate
                       kw_dropout_variant kw_normalization kw_attention].
  split; [reflexivity |].
  split; [intros H; destruct (Z.to_nat e); [reflexivity | discriminate H] |].
  split; [| repeat split].
  intros Hne. destruct (Z.to_nat e) as [| k]; [now destruct Hne |].
  split; [apply final_filters_last |]. intros p q.
  set (b1 := (List.length (graph w) + _)%nat).
  destruct (enc_out_last k b1 (primary_tensor c (List.length (graph w))))
    as [Hout Hlast].
  rewrite Hout, Hlast. reflexivity.
Qed.

Lemma unet_bottleneck_block_witness :
  exists e w' new a x,
    _check_nblocks 3 (64, 64) 2 fresh = (Ok e, w')
    /\ graph (snd (unet_pin sample_backbones sample_dropouts 3
                     (sample "convnet" 0 2 (64, 64) (Some "spatial") true "rc" false)
                     fresh))
       = graph fresh ++ new
    /\ bottleneck_blocks new = [(a, [x])]
    /\ kw_filters a = final_filters 32 (Z.to_nat e)
    /\ (encoder_filters new = [] -> kw_filters a = 32)
    /\ (encoder_filters new <> [] ->
        kw_filters a = Z.min 256 (last (encoder_filters new) 0 * 2)
        /\ forall p k, last (recorded_skips (List.length (graph fresh)) new) (p, k)
                       = (fst x, 1%nat))
    /\ kw_activation a = Some "relu"
    /\ kw_dropout_rate a = 2 # 10
    /\ kw_dropout_variant a = Passed (Some "spatial")
    /\ kw_normalization a = None
    /\ kw_attention a = Default.
Proof.
  eapply (unet_bottleneck_block sample_backbones sample_dropouts
            (sample "convnet" 0 2 (64, 64) (Some "spatial") true "rc" false)
            3 fresh).
  vm_compute. reflexivity.
Defined.

(** C7 as stated fails for [attention=True]: the bottleneck block is
    built without an [attention] argument. *)
Lemma unet_bottleneck_ignores_attention :
  ~ (forall c fuel m w1 a xs,
        unet_pin sample_backbones sample_dropouts fuel c fresh = (Ok m, w1) ->
        In (a, xs) (bottleneck_blocks (graph w1)) ->
        kw_attention a = Passed (attention c)).
Proof.
  intros Hclaim.
  set (c := sample "convnet" 0 2 (64, 64) (Some "spatial") true "rc" false).
  assert (H : kw_attention (bottleneck_args c (Some "spatial") 128)
              = Passed (attention c)).
  { eapply Hclaim with (fuel := 3%nat) (xs := [(2%nat, 0%nat)]).
    - vm_compute. reflexivity.
    - vm_compute. left. reflexivity. }
  discriminate.
Qed.

(** ** Depth zero *)





(** ** Decoder upsampling *)

Lemma upsamplings_enc_nodes c dv : forall stages base x f,
  upsamplings (enc_nodes c dv base x f stages) = [].
Proof.
  induction stages as [| i rest IH]; intros base x f; [reflexivity |].
  cbn [enc_nodes]. unfold upsamplings in *. cbn [flat_map encoder_block upsampling_of app].
  apply IH.
Qed.

Lemma upsamplings_tail_nodes c f base x s_in :
  upsamplings (tail_nodes c f base x s_in) = [].
Proof. unfold tail_nodes. now destruct (localcon_layer c), s_in. Qed.

Lemma upsamplings_input_nodes c free : upsamplings (input_nodes c free) = [].
Proof. unfold input_nodes. now destruct (0 <? n_aux_channels c). Qed.

Lemma upsampling_layer_known c f j :
  In (decoder_upsampling c) ["spc"; "rc"; "dc"] ->
  exists l, upsampling_layer c f j = Some l
            /\ upsampling_of l = Some (stage_upsampling c f).
Proof.
  unfold upsampling_layer, stage_upsampling.
  intros [H | [H | [H | []]]]; rewrite <- H; cbn; eexists; split; reflexivity.
Qed.

Lemma upsamplings_dec_nodes c dv :
  In (decoder_upsampling c) ["spc"; "rc"; "dc"] ->
  forall stages base x j,
    upsamplings (dec_nodes c dv base x j stages)
    = map (fun s => stage_upsampling c (snd s)) stages.
Proof.
  intros Hdu. induction stages as [| [skip f] rest IH]; intros base x j;
    [reflexivity |].
  cbn [dec_nodes map snd].
  destruct (upsampling_layer_known c f j Hdu) as (l & -> & Hl).
  unfold upsamplings in *.
  cbn [flat_map skip_concat decoder_block upsampling_of app].
  now rewrite Hl, IH.
Qed.

Lemma upsamplings_app a b : upsamplings (a ++ b) = upsamplings a ++ upsamplings b.
Proof. apply flat_map_app. Qed.

Lemma concat_inputs_app a b :
  concat_inputs (a ++ b) = concat_inputs a ++ concat_inputs b.
Proof. apply flat_map_app. Qed.

Lemma concat_inputs_enc_nodes c dv : forall stages base x f,
  concat_inputs (enc_nodes c dv base x f stages) = [].
Proof.
  induction stages as [| i rest IH]; intros base x f; [reflexivity |].
  cbn [enc_nodes]. unfold concat_inputs in *. cbn [flat_map encoder_block app].
  apply IH.
Qed.

Lemma concat_inputs_tail_nodes c f base x s_in :
  concat_inputs (tail_nodes c f base x s_in) = [].
Proof. unfold tail_nodes. now destruct (localcon_layer c), s_in. Qed.

Lemma concat_inputs_input_nodes c free : concat_inputs (input_nodes c free) = [].
Proof. unfold input_nodes. now destruct (0 <? n_aux_channels c). Qed.

Lemma length_concat_inputs_dec_nodes c dv : forall stages base x j,
  List.length (concat_inputs (dec_nodes c dv base x j stages)) = List.length stages.
Proof.
  induction stages as [| [skip f] rest IH]; intros base x j; [reflexivity |].
  cbn [dec_nodes List.length].
  destruct (upsampling_layer_cases c f j) as [H | [H | [H | H]]]; rewrite H;
    unfold concat_inputs in *;
    cbn [flat_map skip_concat decoder_block app List.length];
    now rewrite IH.
Qed.

Lemma no_pad_concat_app a b :
  no_pad_concat a -> no_pad_concat b -> no_pad_concat (a ++ b).
Proof. intros Ha Hb. apply Forall_app. now split. Qed.

Lemma no_pad_concat_nth ns q s ins :
  no_pad_concat ns -> nth_error ns q <> Some (LayerNode (PadConcat s) ins).
Proof.
  intros Hns Hq. apply nth_error_In in Hq.
  unfold no_pad_concat in Hns. rewrite Forall_forall in Hns.
  apply Hns in Hq. discriminate.
Qed.

Lemma no_pad_concat_input_nodes c free : no_pad_concat (input_nodes c free).
Proof.
  unfold input_nodes. destruct (0 <? n_aux_channels c); repeat constructor.
Qed.

Lemma no_pad_concat_enc_nodes c dv : forall stages base x f,
  no_pad_concat (enc_nodes c dv base x f stages).
Proof.
  induction stages as [| i rest IH]; intros base x f; constructor;
    [reflexivity | apply IH].
Qed.

Lemma no_pad_concat_tail_nodes c f base x s_in :
  no_pad_concat (tail_nodes c f base x s_in).
Proof.
  unfold tail_nodes. destruct (localcon_layer c), s_in; repeat constructor.
Qed.

(** One decoder stage around each skip concatenation of the decoder
    nodes: the upsampling layer of the method just before it, whose output
    it reads, and the block of the stage just after it. *)
Lemma dec_nodes_concat c dv :
  In (decoder_upsampling c) ["spc"; "rc"; "dc"] ->
  forall stages pos x j q s ins,
    nth_error (dec_nodes c dv pos x j stages) q
    = Some (LayerNode (PadConcat s) ins) ->
    exists p k f up xin skip,
      q = S p
      /\ ins = [((pos + p)%nat, 0%nat); skip]
      /\ upsampling_layer c f k = Some up
      /\ nth_error (dec_nodes c dv pos x j stages) p = Some (LayerNode up [xin])
      /\ nth_error (dec_nodes c dv pos x j stages) (S q)
         = Some (LayerNode (decoder_block c dv f k) [((pos + q)%nat, 0%nat)]).
Proof.
  intros Hdu.
  induction stages as [| [skip f] rest IH]; intros pos x j q s ins Hq.
  - destruct q; discriminate.
  - cbn [dec_nodes] in *.
    destruct (upsampling_layer_known c f j Hdu) as (l & Hl & Hof).
    rewrite Hl in *.
    destruct q as [| [| [| q']]]; cbn [nth_error] in Hq.
    + inversion Hq; subst. discriminate.
    + inversion Hq; subst.
      exists 0%nat, j, f, l, x, skip. rewrite Nat.add_0_r.
      repeat split; try assumption.
      cbn [nth_error]. now rewrite Nat.add_1_r.
    + discriminate.
    + destruct (IH (3 + pos)%nat ((2 + pos)%nat, 0%nat) (j + 1) q' s ins Hq)
        as (p' & k & f' & up & xin & skip' & -> & -> & Hup & Hp & Hblock).
      exists (3 + p')%nat, k, f', up, xin, skip'.
      split; [reflexivity |].
      split;
        [now replace (pos + (3 + p'))%nat with (3 + pos + p')%nat by lia |].
      split; [exact Hup |].
      split; [exact Hp |].
      replace (pos + S (S (S (S p'))))%nat with (3 + pos + S p')%nat by lia.
      exact Hblock.
Qed.

(** C6, as the code has it: for each of the three methods every skip
    concatenation of the decoder reads, as its first input, the output of
    the node created just before it, and that node is the upsampling
    layer of the method, of factor 2: a [SubpixelConvolutionBlock] built
    with the filter count of the stage for ['spc'], a [DeconvolutionBlock]
    built with it for ['dc'], and for ['rc'] the bilinear [UpSampling2D]
    alone, which takes no filter count - no convolution stands between it
    and the concatenation.  In all three the node created just after the
    concatenation is the block of the stage, with the filter count of the
    stage, and reads the concatenation.  There is one upsampling layer and
    one concatenation per decoder stage. *)
Theorem unet_decoder_upsampling_layers BB DV c fuel w m w1 :
  unet_pin BB DV fuel c w = (Ok m, w1) ->
  In (decoder_upsampling c) ["spc"; "rc"; "dc"] ->
  exists new,
    graph w1 = graph w ++ new
    /\ upsamplings new
       = map (fun f => (2, if (decoder_upsampling c =? "rc")%string
                           then None else Some f))
           (decoder_filters new)
    /\ List.length (concat_inputs new) = List.length (decoder_filters new)
    /\ forall q s ins,
         nth_error new q = Some (LayerNode (PadConcat s) ins) ->
         exists p j f up xin skip,
           q = S p
           /\ ins = [((List.length (graph w) + p)%nat, 0%nat); skip]
           /\ nth_error new p = Some (LayerNode up [xin])
           /\ (decoder_upsampling c = "spc" ->
               up = SubpixelConvolutionBlock 2 f (str (j + 1)))
           /\ (decoder_upsampling c = "rc" ->
               up = UpSampling2D 2 "bilinear"
                      ("BilinearUpsampling" ++ str (j + 1))%string)
           /\ (decoder_upsampling c = "dc" ->
               up = DeconvolutionBlock 2 f (activation c) (str (j + 1)))
           /\ nth_error new (S q)
              = Some (LayerNode
                        (ConvBlock
                           {| kw_filters := f; kw_activation := activation c;
                              kw_dropout_rate := dropout_rate c;
                              kw_dropout_variant := Passed (dropout_variant c);
                              kw_normalization := normalization c;
                              kw_attention := Passed (attention c);
                              kw_name := Passed ("DecoderConvBlock"
                                                 ++ str (j + 1))%string |})
                        [((List.length (graph w) + q)%nat, 0%nat)]).
Proof.
  intros Hrun Hdu.
  destruct (unet_pin_inv BB DV fuel c w m w1 Hrun) as (_ & e & w' & Hcheck & _ & Hgraph).
  exists (unet_nodes c (dropout_variant c) e (List.length (graph w))).
  split; [exact Hgraph |].
  destruct (unet_nodes_observed c (dropout_variant c) e (List.length (graph w)))
    as (_ & Hd & _).
  rewrite Hd. unfold unet_nodes.
  set (base := List.length (graph w)).
  set (ins := input_nodes c (unet_free c)).
  set (b1 := (base + List.length ins)%nat). set (n := Z.to_nat e).
  split; [| split].
  - rewrite !upsamplings_app.
    subst ins.
    rewrite upsamplings_input_nodes, upsamplings_enc_nodes, upsamplings_tail_nodes.
    rewrite (upsamplings_dec_nodes c _ Hdu), !app_nil_r. cbn [app].
    cbn [upsamplings flat_map bottleneck upsampling_of app].
    rewrite <- (dec_stages_snd c b1 n), map_map. reflexivity.
  - rewrite !concat_inputs_app.
    subst ins.
    rewrite concat_inputs_input_nodes, concat_inputs_enc_nodes, concat_inputs_tail_nodes.
    rewrite !app_nil_r. cbn [app].
    rewrite !length_app, length_concat_inputs_dec_nodes, length_rev, length_schedule.
    rewrite length_dec_stages. reflexivity.
  - set (enc := enc_nodes c (dropout_variant c) b1 (primary_tensor c base)
                  (n_filters c) (range e)).
    set (bot := [LayerNode _ _]).
    set (dec := dec_nodes c (dropout_variant c) (S (b1 + n)) ((b1 + n)%nat, 0%nat) 0
                  (dec_stages c b1 n)).
    set (tl := tail_nodes _ _ _ _ _).
    set (pre := ins ++ enc ++ bot).
    assert (Hpre : no_pad_concat pre).
    { subst pre. apply no_pad_concat_app; [apply no_pad_concat_input_nodes |].
      apply no_pad_concat_app; [apply no_pad_concat_enc_nodes |].
      subst bot. repeat constructor. }
    assert (Hlen : (base + List.length pre = S (b1 + n))%nat).
    { subst pre enc bot. rewrite !length_app, length_enc_nodes, length_range.
      cbn [List.length]. subst b1 n. lia. }
    replace (ins ++ enc ++ bot ++ dec ++ tl) with (pre ++ dec ++ tl)
      by (subst pre; now rewrite <- !app_assoc).
    intros q s xs Hq.
    destruct (Nat.lt_ge_cases q (List.length pre)) as [Hlt | Hge].
    { rewrite nth_error_app1 in Hq by assumption.
      now apply no_pad_concat_nth in Hq. }
    rewrite nth_error_app2 in Hq by assumption.
    destruct (Nat.lt_ge_cases (q - List.length pre) (List.length dec)) as [Hlt | Hge'].
    2:{ rewrite nth_error_app2 in Hq by assumption.
        apply no_pad_concat_nth in Hq; [contradiction |].
        subst tl. apply no_pad_concat_tail_nodes. }
    rewrite nth_error_app1 in Hq by assumption.
    destruct (dec_nodes_concat c (dropout_variant c) Hdu _ _ _ _ _ _ _ Hq)
      as (p & k & f & up & xin & skip & Hqp & -> & Hup & Hp & Hblock).
    fold dec in Hp, Hblock.
    assert (Hp_lt : (p < List.length dec)%nat)
      by (apply nth_error_Some; rewrite Hp; discriminate).
    assert (Hb_lt : (S (q - List.length pre) < List.length dec)%nat)
      by (apply nth_error_Some; rewrite Hblock; discriminate).
    exists (List.length pre + p)%nat, k, f, up, xin, skip.
    split; [lia |].
    split;
      [now replace (base + (List.length pre + p))%nat with (S (b1 + n) + p)%nat
         by lia |].
    split.
    { rewrite nth_error_app2 by lia.
      replace (List.length pre + p - List.length pre)%nat with p by lia.
      rewrite nth_error_app1 by assumption. exact Hp. }
    unfold upsampling_layer in Hup.
    split.
    { intros H. rewrite H in Hup. cbn in Hup. now inversion Hup. }
    split.
    { intros H. rewrite H in Hup. cbn in Hup. now inversion Hup. }
    split.
    { intros H. rewrite H in Hup. cbn in Hup. now inversion Hup. }
    rewrite nth_error_app2 by lia.
    replace (S q - List.length pre)%nat with (S (q - List.length pre)) by lia.
    rewrite nth_error_app1 by assumption. rewrite Hblock.
    unfold decoder_block.
    now replace (S (b1 + n) + (q - List.length pre))%nat with (base + q)%nat by lia.
Qed.

Lemma unet_decoder_upsampling_layers_witness :
  exists new,
    graph (snd (unet_pin sample_backbones sample_dropouts 3
                  (sample "convnet" 0 2 (64, 48) (Some "spatial") false "spc" false)
                  fresh))
    = graph fresh ++ new
    /\ upsamplings new
       = map (fun f => (2, if ("spc" =? "rc")%string then None else Some f))
           (decoder_filters new)
    /\ List.length (concat_inputs new) = List.length (decoder_filters new)
    /\ forall q s ins,
         nth_error new q = Some (LayerNode (PadConcat s) ins) ->
         exists p j f up xin skip,
           q = S p
           /\ ins = [((List.length (graph fresh) + p)%nat, 0%nat); skip]
           /\ nth_error new p = Some (LayerNode up [xin])
           /\ ("spc" = "spc" ->
               up = SubpixelConvolutionBlock 2 f (str (j + 1)))
           /\ ("spc" = "rc" ->
               up = UpSampling2D 2 "bilinear"
                      ("BilinearUpsampling" ++ str (j + 1))%string)
           /\ ("spc" = "dc" ->
               up = DeconvolutionBlock 2 f (Some "relu") (str (j + 1)))
           /\ nth_error new (S q)
              = Some (LayerNode
                        (ConvBlock
                           {| kw_filters := f; kw_activation := Some "relu";
                              kw_dropout_rate := 2 # 10;
                              kw_dropout_variant := Passed (Some "spatial");
                              kw_normalization := None;
                              kw_attention := Passed false;
                              kw_name := Passed ("DecoderConvBlock"
                                                 ++ str (j + 1))%string |})
                        [((List.length (graph fresh) + q)%nat, 0%nat)]).
Proof.
  eapply (unet_decoder_upsampling_layers sample_backbones sample_dropouts
            (sample "convnet" 0 2 (64, 48) (Some "spatial") false "spc" false)
            3 fresh).
  - vm_compute. reflexivity.
  - left. reflexivity.
Defined.

(** C6 as stated fails for ['rc']: with 32 filters and one stage on a
    64 x 48 grid the bilinear [UpSampling2D] reads the 64-channel
    bottleneck and there is no convolution before the concatenation, so
    the upsampled tensor has 64 channels, not the 32 of the stage. *)
Lemma unet_rc_upsampling_keeps_input_channels :
  ~ (forall c fuel m w1 j x f,
        In (decoder_upsampling c) ["spc"; "rc"; "dc"] ->
        unet_pin sample_backbones sample_dropouts fuel c fresh = (Ok m, w1) ->
        nth_error (concat_inputs (graph w1)) j = Some x ->
        nth_error (decoder_filters (graph w1)) j = Some f ->
        channels (List.length (graph w1)) (graph w1) x = Some f).
Proof.
  intros Hclaim.
  set (c := sample "convnet" 0 1 (64, 48) (Some "spatial") false "rc" false).
  set (w1 := snd (unet_pin sample_backbones sample_dropouts 2 c fresh)).
  assert (H : channels (List.length (graph w1)) (graph w1) (3%nat, 0%nat) = Some 32).
  { eapply Hclaim with (c := c) (fuel := 2%nat) (j := 0%nat).
    - right. left. reflexivity.
    - vm_compute. reflexivity.
    - vm_compute. reflexivity.
    - vm_compute. reflexivity. }
  vm_compute in H. discriminate.
Qed.

(** ** Running [net_pin] *)

Lemma length_chain_nodes : forall ls base x,
  List.length (chain_nodes base x ls) = List.length ls.
Proof. induction ls; intros base x; cbn; [reflexivity | now rewrite IHls]. Qed.

Lemma chain_nodes_app : forall a b base x,
  chain_nodes base x (a ++ b)
  = chain_nodes base x a
    ++ chain_nodes (base + List.length a) (chain_out base x a) b.
Proof.
  induction a as [| l a IH]; intros b base x; cbn [app chain_nodes chain_out List.length].
  - now rewrite Nat.add_0_r.
  - now rewrite IH, Nat.add_succ_comm.
Qed.

Lemma chain_out_app : forall a b base x,
  chain_out base x (a ++ b)
  = chain_out (base + List.length a) (chain_out base x a) b.
Proof.
  induction a as [| l a IH]; intros b base x; cbn [app chain_out List.length].
  - now rewrite Nat.add_0_r.
  - now rewrite IH, Nat.add_succ_comm.
Qed.

Lemma net_pin_block_run c bb dv b w :
  net_pin_block c bb dv (Tensor b) w
  = (Ok (Tensor (chain_out (List.length (graph w)) b (net_block_layers c bb dv))),
     grow w (chain_nodes (List.length (graph w)) b (net_block_layers c bb dv))).
Proof.
  unfold net_pin_block, net_block_layers.
  destruct (bb =? "convnet")%string; [reflexivity |].
  destruct (bb =? "resnet")%string; [reflexivity |].
  destruct (bb =? "densenet")%string; [| cbn; now rewrite grow_nil].
  run. cbn [chain_out chain_nodes]. now rewrite Nat.add_1_r.
Qed.

Lemma net_loop_run c bb dv : forall (stages : list Z) b w,
  for_each stages (fun _ b => net_pin_block c bb dv b) (Tensor b) w
  = (Ok (Tensor (chain_out (List.length (graph w)) b
                   (flat_map (fun _ => net_block_layers c bb dv) stages))),
     grow w (chain_nodes (List.length (graph w)) b
               (flat_map (fun _ => net_block_layers c bb dv) stages))).
Proof.
  induction stages as [| i rest IH]; intros b w.
  - cbn. now rewrite grow_nil.
  - cbn [for_each flat_map].
    erewrite bind_ok; [| apply net_pin_block_run].
    rewrite IH, grow_grow, length_graph_grow, length_chain_nodes.
    now rewrite chain_nodes_app, chain_out_app.
Qed.

Lemma net_pin_dropout_run rate dv b w :
  net_pin_dropout rate dv (Tensor b) w
  = match dropout_unapplied rate dv, dropout_applied rate dv with
    | Some l, _ => (Ok (LayerObj l), w)
    | None, Some l => (Ok (Tensor (List.length (graph w), 0%nat)),
                       grow w [LayerNode l [b]])
    | None, None => (Ok (Tensor b), w)
    end.
Proof.
  unfold net_pin_dropout, dropout_unapplied, dropout_applied.
  destruct (Qpositive rate); [| reflexivity].
  destruct dv as [v |]; [| reflexivity].
  destruct (v =? "gaussian")%string; [reflexivity |].
  destruct (v =? "spatial")%string; [reflexivity |].
  destruct (v =? "mcdrop")%string; [reflexivity |].
  destruct (v =? "mcgaussiandrop")%string; [reflexivity |].
  destruct (v =? "mcspatialdrop")%string; reflexivity.
Qed.

Lemma dropout_exclusive rate dv l :
  dropout_unapplied rate dv = Some l -> dropout_applied rate dv = None.
Proof.
  unfold dropout_unapplied, dropout_applied.
  destruct (Qpositive rate); [| discriminate].
  destruct dv as [v |]; [| discriminate].
  destruct (v =? "gaussian")%string; [discriminate |].
  destruct (v =? "spatial")%string; [discriminate |].
  destruct (v =? "mcdrop")%string; [discriminate | reflexivity].
Qed.

(** The tail cannot start from a layer object. *)
Lemma pin_tail_layer_object c bb f l x_in s_in w :
  exists e w', pin_tail c bb f (LayerObj l) (Tensor x_in) (option_map Tensor s_in) w
               = (Raise e, w').
Proof.
  unfold pin_tail. destruct (localcon_layer c); [eexists _, _; reflexivity |].
  destruct s_in as [s |]; eexists _, _; reflexivity.
Qed.

Ltac same_up_to_arith :=
  repeat lazymatch goal with
         | |- @eq nat _ _ => lia
         | |- ?a = ?a => reflexivity
         | |- _ => f_equal
         end.

Lemma length_input_nodes c free :
  List.length (input_nodes c free)
  = ((if (0 <? n_aux_channels c)%Z then 1 else 0) + 1)%nat.
Proof. unfold input_nodes. now destruct (0 <? n_aux_channels c). Qed.

(** [net_pin] from line 39 to the dropout of line 88, with both arguments
    already checked; [k] is the rest of the function. *)
Lemma net_trunk_run c bb dv (k : option value -> value -> value -> value -> M Model) w :
  let base := List.length (graph w) in
  let free := negb (localcon_layer c) in
  let ins := input_nodes c free in
  let b1 := (base + List.length ins)%nat in
  let loop := chain_nodes (S b1) (b1, 0%nat) (net_loop_layers c bb dv) in
  let b2 := (S b1 + List.length loop)%nat in
  let conv x := LayerNode (Conv2D (n_filters c) (3, 3) "same") [x] in
  let before := ins ++ [conv (primary_tensor c base)] ++ loop
                ++ [conv (chain_out (S b1) (b1, 0%nat) (net_loop_layers c bb dv))] in
  (s_in <- aux_input c free ;;
   x_in <- input_layer free (hr_size c) (n_channels c) ;;
   x <- call (Conv2D (n_filters c) (3, 3) "same") [x_in] ;;
   b <- for_each (range (n_blocks c))
          (fun _ b => net_pin_block c bb dv b) x ;;
   b <- call (Conv2D (n_filters c) (3, 3) "same") [b] ;;
   b <- net_pin_dropout (dropout_rate c) dv b ;;
   k s_in x_in x b) w
  = match dropout_unapplied (dropout_rate c) dv, dropout_applied (dropout_rate c) dv with
    | Some l, _ =>
        k (option_map Tensor (aux_tensor c base)) (Tensor (primary_tensor c base))
          (Tensor (b1, 0%nat)) (LayerObj l) (grow w before)
    | None, Some l =>
        k (option_map Tensor (aux_tensor c base)) (Tensor (primary_tensor c base))
          (Tensor (b1, 0%nat)) (Tensor (S b2, 0%nat))
          (grow w (before ++ [LayerNode l [(b2, 0%nat)]]))
    | None, None =>
        k (option_map Tensor (aux_tensor c base)) (Tensor (primary_tensor c base))
          (Tensor (b1, 0%nat)) (Tensor (b2, 0%nat)) (grow w before)
    end.
Proof.
  intros base free ins b1 loop b2 conv before.
  rewrite aux_input_run, input_layer_run, grow_grow.
  fold (input_nodes c free). fold ins.
  assert (Hx : (List.length (graph (grow w
             (if 0 <? n_aux_channels c
              then [InputNode (input_shape free (hr_size c) (n_aux_channels c))]
              else []))), 0%nat) = primary_tensor c base).
  { unfold primary_tensor. rewrite length_graph_grow. fold base.
    destruct (0 <? n_aux_channels c); reflexivity. }
  rewrite Hx. rewrite bind_call1, grow_grow, length_graph_grow.
  fold base b1.
  erewrite bind_ok; [| apply net_loop_run].
  fold (net_loop_layers c bb dv).
  rewrite length_graph_grow, length_app. cbn [List.length]. fold base.
  replace (base + (List.length ins + 1))%nat with (S b1) by (unfold b1; lia).
  fold loop.
  rewrite bind_call1, !grow_grow, length_graph_grow, !length_app.
  cbn [List.length]. fold base.
  replace (base + (List.length ins + 1 + List.length loop))%nat with b2
    by (unfold b2, b1; lia).
  assert (Hbefore :
    ((ins ++ [LayerNode (Conv2D (n_filters c) (3, 3) "same")
                [primary_tensor c base]]) ++ loop)
    ++ [LayerNode (Conv2D (n_filters c) (3, 3) "same")
          [chain_out (S b1) (b1, 0%nat) (net_loop_layers c bb dv)]] = before)
    by (unfold before, conv; now rewrite <- !app_assoc).
  unfold bind at 1. rewrite net_pin_dropout_run, Hbefore.
  assert (Hlen : List.length (graph (grow w before)) = S b2).
  { rewrite length_graph_grow. unfold before. rewrite !length_app.
    cbn [List.length]. fold base loop. unfold b2, b1. lia. }
  rewrite Hlen.
  destruct (dropout_unapplied (dropout_rate c) dv) as [l |]; [reflexivity |].
  destruct (dropout_applied (dropout_rate c) dv) as [l |]; [| reflexivity].
  now rewrite grow_grow.
Qed.

Ltac flatten_lists :=
  repeat (cbn [fst snd List.length app];
          progress (repeat first
            [ rewrite <- app_assoc | rewrite app_nil_r
            | rewrite length_app | rewrite length_chain_nodes ])).

Ltac finish_net_run :=
  rewrite ?bind_ret, ?bind_call2, ?pin_tail_run, ?grow_grow, ?length_graph_grow;
  flatten_lists; cbn [fst snd List.length app];
  same_up_to_arith.

(** Both checks pass and either the dropout leaves a tensor in [b] or the
    merge does not read [b]: [net_pin] returns. *)
Lemma net_pin_run BB DV c w :
  valid_args BB DV c = true ->
  dropout_unapplied (dropout_rate c) (dropout_variant c) = None
  \/ merge_reads_b (backbone_block c) = false ->
  net_pin BB DV c w
  = (Ok (net_model c (backbone_block c) (dropout_variant c) (List.length (graph w))),
     grow w (net_nodes c (backbone_block c) (dropout_variant c)
               (List.length (graph w)))).
Proof.
  intros Hvalid Hok. unfold valid_args in Hvalid.
  apply andb_prop in Hvalid as [Hbb Hdv].
  unfold net_pin, bind at 1. rewrite checkarg_backbone_run, Hbb.
  unfold bind at 1. rewrite checkarg_dropout_variant_run.
  assert (Hcheck :
    match dropout_variant c with
    | Some s => if existsb (String.eqb s) DV then (Ok (Some s), w)
                else (Raise (ValueError "dropout_variant" s DV), w)
    | None => (Ok None, w)
    end = (Ok (dropout_variant c), w)).
  { destruct (dropout_variant c); [now rewrite Hdv | reflexivity]. }
  rewrite Hcheck. clear Hcheck.
  set (bb := backbone_block c) in *. set (dv := dropout_variant c) in *.
  rewrite (net_trunk_run c bb dv
             (fun s_in x_in x b =>
                x <- net_pin_merge bb x b ;;
                pin_tail c bb (n_filters c) x x_in s_in) w).
  unfold net_pin_merge, merge_reads_b, net_model, net_nodes, net_trunk,
    merge_layer in *.
  destruct (dropout_unapplied (dropout_rate c) dv) as [l |] eqn:Hun.
  - destruct Hok as [Hok | Hok]; [discriminate |].
    rewrite (dropout_exclusive _ _ _ Hun).
    destruct (bb =? "convnet")%string; [discriminate |].
    destruct (bb =? "resnet")%string; [discriminate |].
    destruct (bb =? "densenet")%string; [discriminate |].
    finish_net_run.
  - clear Hok.
    destruct (dropout_applied (dropout_rate c) dv) as [l |];
      (destruct (bb =? "convnet")%string;
       [ | destruct (bb =? "resnet")%string;
           [ | destruct (bb =? "densenet")%string ] ]);
      finish_net_run.
Qed.

(** A layer object left in [b] and a merge that reads it: [net_pin]
    raises. *)
Lemma net_pin_unapplied_raises BB DV c w l :
  valid_args BB DV c = true ->
  dropout_unapplied (dropout_rate c) (dropout_variant c) = Some l ->
  merge_reads_b (backbone_block c) = true ->
  exists e w', net_pin BB DV c w = (Raise e, w').
Proof.
  intros Hvalid Hun Hreads. unfold valid_args in Hvalid.
  apply andb_prop in Hvalid as [Hbb Hdv].
  unfold net_pin, bind at 1. rewrite checkarg_backbone_run, Hbb.
  unfold bind at 1. rewrite checkarg_dropout_variant_run.
  assert (Hcheck :
    match dropout_variant c with
    | Some s => if existsb (String.eqb s) DV then (Ok (Some s), w)
                else (Raise (ValueError "dropout_variant" s DV), w)
    | None => (Ok None, w)
    end = (Ok (dropout_variant c), w)).
  { destruct (dropout_variant c); [now rewrite Hdv | reflexivity]. }
  rewrite Hcheck. clear Hcheck.
  set (bb := backbone_block c) in *. set (dv := dropout_variant c) in *.
  rewrite (net_trunk_run c bb dv
             (fun s_in x_in x b =>
                x <- net_pin_merge bb x b ;;
                pin_tail c bb (n_filters c) x x_in s_in) w).
  rewrite Hun. unfold net_pin_merge, merge_reads_b in *.
  destruct (bb =? "convnet")%string.
  - rewrite bind_ret. apply pin_tail_layer_object.
  - destruct (bb =? "resnet")%string; [eexists _, _; reflexivity |].
    destruct (bb =? "densenet")%string; [eexists _, _; reflexivity |].
    discriminate.
Qed.

(** A model comes back from [net_pin] only as [net_pin_run] says. *)
Lemma net_pin_inv BB DV c w m w1 :
  net_pin BB DV c w = (Ok m, w1) ->
  valid_args BB DV c = true
  /\ m = net_model c (backbone_block c) (dropout_variant c) (List.length (graph w))
  /\ w1 = grow w (net_nodes c (backbone_block c) (dropout_variant c)
                    (List.length (graph w))).
Proof.
  intros Hrun.
  destruct (valid_args BB DV c) eqn:Hvalid.
  - split; [reflexivity |].
    destruct (dropout_unapplied (dropout_rate c) (dropout_variant c)) as [l |] eqn:Hun.
    + destruct (merge_reads_b (backbone_block c)) eqn:Hreads.
      * destruct (net_pin_unapplied_raises BB DV c w l Hvalid Hun Hreads)
          as (e & w' & Hraise).
        rewrite Hraise in Hrun. discriminate.
      * rewrite (net_pin_run BB DV c w Hvalid (or_intror Hreads)) in Hrun.
        now inversion Hrun.
    + rewrite (net_pin_run BB DV c w Hvalid (or_introl Hun)) in Hrun.
      now inversion Hrun.
  - exfalso. unfold valid_args in Hvalid.
    unfold net_pin, bind at 1 in Hrun.
    rewrite checkarg_backbone_run in Hrun.
    destruct (existsb (String.eqb (backbone_block c)) BB); [| discriminate].
    unfold bind at 1 in Hrun. rewrite checkarg_dropout_variant_run in Hrun.
    destruct (dropout_variant c) as [v |]; [| discriminate].
    cbn in Hvalid. rewrite Hvalid in Hrun. discriminate.
Qed.

(** ** Rejected arguments *)

Lemma existsb_eqb_false s l : existsb (String.eqb s) l = false <-> ~ In s l.
Proof.
  split.
  - intros H Hin. assert (existsb (String.eqb s) l = true); [| congruence].
    apply existsb_exists. exists s. split; [assumption | apply String.eqb_refl].
  - intros H. destruct (existsb (String.eqb s) l) eqn:E; [| reflexivity].
    apply existsb_exists in E as (x & Hx & Heq).
    apply String.eqb_eq in Heq. subst. contradiction.
Qed.

Lemma valid_args_false_iff BB DV c :
  valid_args BB DV c = false
  <-> (~ In (backbone_block c) BB
       \/ exists v, dropout_variant c = Some v /\ ~ In v DV).
Proof.
  unfold valid_args. rewrite andb_false_iff, existsb_eqb_false. split.
  - intros [H | H]; [now left | right].
    destruct (dropout_variant c) as [v |]; [| discriminate].
    exists v. split; [reflexivity | now apply existsb_eqb_false].
  - intros [H | (v & -> & H)]; [now left | right].
    now apply existsb_eqb_false.
Qed.

(** C3, as the code has it: a backbone or a dropout variant outside the
    accepted values makes either builder raise an argument error that
    carries the offending value and the closed set, with no graph node
    created and nothing printed; a second call from there does the same.
    (The decoder upsampling method is not checked.) *)
Theorem invalid_backbone_or_dropout_raises_before_any_node BB DV c w :
  ~ In (backbone_block c) BB
  \/ (exists v, dropout_variant c = Some v /\ ~ In v DV) ->
  exists e,
    (e = ValueError "backbone_block" (backbone_block c) BB
     \/ exists v, dropout_variant c = Some v
                  /\ e = ValueError "dropout_variant" v DV)
    /\ net_pin BB DV c w = (Raise e, w)
    /\ net_pin BB DV c (snd (net_pin BB DV c w)) = (Raise e, w)
    /\ forall fuel,
         unet_pin BB DV fuel c w = (Raise e, w)
         /\ unet_pin BB DV fuel c (snd (unet_pin BB DV fuel c w)) = (Raise e, w).
Proof.
  intros Hinvalid. apply valid_args_false_iff in Hinvalid.
  unfold valid_args in Hinvalid.
  assert (Hrun : exists e,
    (e = ValueError "backbone_block" (backbone_block c) BB
     \/ exists v, dropout_variant c = Some v
                  /\ e = ValueError "dropout_variant" v DV)
    /\ net_pin BB DV c w = (Raise e, w)
    /\ forall fuel, unet_pin BB DV fuel c w = (Raise e, w)).
  { destruct (existsb (String.eqb (backbone_block c)) BB) eqn:Hbb.
    - destruct (dropout_variant c) as [v |] eqn:Hdv; [| discriminate].
      cbn in Hinvalid.
      exists (ValueError "dropout_variant" v DV).
      split; [right; exists v; split; reflexivity |].
      split; [| intros fuel];
        unfold net_pin, unet_pin, bind at 1;
        rewrite checkarg_backbone_run, Hbb;
        unfold bind at 1;
        rewrite checkarg_dropout_variant_run, Hdv, Hinvalid; reflexivity.
    - exists (ValueError "backbone_block" (backbone_block c) BB).
      split; [left; reflexivity |].
      split; [| intros fuel];
        unfold net_pin, unet_pin, bind at 1;
        rewrite checkarg_backbone_run, Hbb; reflexivity. }
  destruct Hrun as (e & He & Hnet & Hunet).
  exists e. split; [exact He |]. split; [exact Hnet |].
  split; [now rewrite Hnet |].
  intros fuel. split; [apply Hunet |]. now rewrite Hunet.
Qed.

Lemma invalid_backbone_or_dropout_raises_before_any_node_witness :
  exists e,
    (e = ValueError "backbone_block" "transformer" sample_backbones
     \/ exists v, Some "spatial" = Some v
                  /\ e = ValueError "dropout_variant" v sample_dropouts)
    /\ net_pin sample_backbones sample_dropouts
         (sample "transformer" 0 4 (64, 64) (Some "spatial") false "rc" false) fresh
       = (Raise e, fresh)
    /\ net_pin sample_backbones sample_dropouts
         (sample "transformer" 0 4 (64, 64) (Some "spatial") false "rc" false)
         (snd (net_pin sample_backbones sample_dropouts
                 (sample "transformer" 0 4 (64, 64) (Some "spatial") false "rc" false)
                 fresh))
       = (Raise e, fresh)
    /\ forall fuel,
         unet_pin sample_backbones sample_dropouts fuel
           (sample "transformer" 0 4 (64, 64) (Some "spatial") false "rc" false) fresh
         = (Raise e, fresh)
         /\ unet_pin sample_backbones sample_dropouts fuel
              (sample "transformer" 0 4 (64, 64) (Some "spatial") false "rc" false)
              (snd (unet_pin sample_backbones sample_dropouts fuel
                      (sample "transformer" 0 4 (64, 64) (Some "spatial") false "rc" false)
                      fresh))
            = (Raise e, fresh).
Proof.
  apply (invalid_backbone_or_dropout_raises_before_any_node
           sample_backbones sample_dropouts
           (sample "transformer" 0 4 (64, 64) (Some "spatial") false "rc" false)
           fresh).
  left. apply existsb_eqb_false. reflexivity.
Defined.

(** C3 as stated fails for the decoder upsampling method: [unet_pin]
    never checks it, and here, on a 2 x 2 grid, returns a model for
    ['transformer']. *)
Lemma unet_accepts_unknown_decoder_upsampling :
  ~ (forall c fuel w,
        ~ In (decoder_upsampling c) ["spc"; "rc"; "dc"] ->
        exists e, unet_pin sample_backbones sample_dropouts fuel c w = (Raise e, w)).
Proof.
  intros Hclaim.
  destruct (Hclaim (sample "convnet" 0 0 (2, 2) (Some "spatial") false "transformer" false)
              1%nat fresh) as (e & He).
  - cbn. intros [H | [H | [H | []]]]; discriminate.
  - vm_compute in He. discriminate.
Qed.

(** ** Dropout after the trunk of [net_pin] *)

(** C2, at the inputs where it fails: for a positive rate the branches for
    ['mcgaussiandrop'] and ['mcspatialdrop'] bind [b] to the layer itself
    and create no node, whereas the sibling branch for ['mcdrop'] calls the
    layer on [b]; with such a [b], [net_pin] ends in a [TypeError]. *)
Theorem net_pin_mc_dropout_left_uncalled rate b w :
  net_pin_dropout rate (Some "mcgaussiandrop") (Tensor b) w
  = (if Qpositive rate then Ok (LayerObj (MCGaussianDropout rate))
     else Ok (Tensor b), w)
  /\ net_pin_dropout rate (Some "mcspatialdrop") (Tensor b) w
     = (if Qpositive rate then Ok (LayerObj (MCSpatialDropout2D rate))
        else Ok (Tensor b), w)
  /\ net_pin_dropout rate (Some "mcdrop") (Tensor b) w
     = (if Qpositive rate
        then (Ok (Tensor (List.length (graph w), 0%nat)),
              grow w [LayerNode (MCDropout rate) [b]])
        else (Ok (Tensor b), w))
  /\ fst (net_pin sample_backbones sample_dropouts
            (sample "convnet" 0 2 (64, 64) (Some "mcgaussiandrop") false "rc" false)
            fresh)
     = Raise (TypeError "Inputs to a layer should be tensors.")
  /\ fst (net_pin sample_backbones sample_dropouts
            (sample "resnet" 0 2 (64, 64) (Some "mcspatialdrop") false "rc" false)
            fresh)
     = Raise (TypeError "Inputs to a layer should be tensors.").
Proof.
  unfold net_pin_dropout.
  repeat split; try (destruct (Qpositive rate); reflexivity).
Qed.

(** ** Inputs and auxiliary fusion *)

Lemma input_tensors_app : forall a b base,
  input_tensors base (a ++ b)
  = input_tensors base a ++ input_tensors (base + List.length a) b.
Proof.
  induction a as [| n a IH]; intros b base; cbn [app input_tensors List.length].
  - now rewrite Nat.add_0_r.
  - now rewrite IH, <- app_assoc, Nat.add_succ_comm.
Qed.

Lemma input_tensors_no_input : forall ns base,
  no_input ns -> input_tensors base ns = [].
Proof.
  induction ns as [| n ns IH]; intros base H; [reflexivity |].
  inversion H as [| ? ? Hn Hns]; subst. cbn [input_tensors].
  rewrite (IH _ Hns). destruct n; [discriminate | reflexivity].
Qed.

Lemma aux_fusions_head n rest base :
  is_conv_block n = false
  \/ match rest with
     | n' :: _ => is_concatenate n' = false
     | [] => True
     end ->
  aux_fusions base (n :: rest) = aux_fusions (S base) rest.
Proof.
  intros H. cbn [aux_fusions].
  destruct n as [| l xs]; [reflexivity |].
  destruct l; try reflexivity.
  destruct H as [H | H]; [discriminate |].
  destruct xs as [| s [| ? ?]]; try reflexivity.
  destruct rest as [| [| l' ys] rest']; try reflexivity.
  destruct l'; try reflexivity. discriminate.
Qed.

Lemma aux_fusions_no_concat : forall ns base,
  no_concat ns -> aux_fusions base ns = [].
Proof.
  induction ns as [| n ns IH]; intros base H; [reflexivity |].
  inversion H as [| ? ? Hn Hns]; subst.
  rewrite aux_fusions_head; [now apply IH |].
  right. destruct ns as [| n' ns']; [exact I |]. now inversion Hns.
Qed.

Lemma aux_fusions_same_head n n' r r' base :
  exists h,
    aux_fusions base (n :: n' :: r) = h ++ aux_fusions (S base) (n' :: r)
    /\ aux_fusions base (n :: n' :: r') = h ++ aux_fusions (S base) (n' :: r').
Proof. eexists. split; reflexivity. Qed.

Lemma aux_fusions_app : forall a b base,
  straddles a b = false ->
  aux_fusions base (a ++ b)
  = aux_fusions base a ++ aux_fusions (base + List.length a) b.
Proof.
  induction a as [| n a IH]; intros b base H.
  - cbn. now rewrite Nat.add_0_r.
  - destruct a as [| n' a'].
    + cbn [app List.length]. rewrite Nat.add_1_r.
      unfold straddles in H. cbn [rev app] in H.
      rewrite aux_fusions_head.
      * rewrite (aux_fusions_head n [] base) by (right; exact I). reflexivity.
      * destruct b as [| n' b']; [right; exact I |].
        apply andb_false_iff in H. destruct H; [now left | now right].
    + assert (Hrest : straddles (n' :: a') b = false).
      { unfold straddles in *. cbn [rev] in *.
        destruct (rev a' ++ [n']) eqn:E; [now destruct (rev a') |].
        cbn [app] in H. exact H. }
      specialize (IH b (S base) Hrest).
      destruct (aux_fusions_same_head n n' (a' ++ b) a' base) as (h & H1 & H2).
      change ((n :: n' :: a') ++ b) with (n :: n' :: a' ++ b).
      change ((n' :: a') ++ b) with (n' :: a' ++ b) in IH.
      rewrite H1, H2, IH, <- app_assoc.
      cbn [List.length]. now rewrite Nat.add_succ_comm.
Qed.

Lemma straddles_after_plain a n b :
  is_conv_block n = false -> straddles (a ++ [n]) b = false.
Proof.
  intros H. unfold straddles. rewrite rev_unit.
  destruct b; [reflexivity |]. now rewrite H.
Qed.

Lemma straddles_before_plain a n b :
  is_concatenate n = false -> straddles a (n :: b) = false.
Proof.
  intros H. unfold straddles. destruct (rev a); [reflexivity |].
  rewrite H. apply andb_false_r.
Qed.

Lemma straddles_nil_r a : straddles a [] = false.
Proof. unfold straddles. now destruct (rev a). Qed.

Section Plain.

Variables (c : config) (dv : option string).

Lemma plain_input_nodes free : no_concat (input_nodes c free).
Proof.
  unfold input_nodes. destruct (0 <? n_aux_channels c); repeat constructor.
Qed.

Lemma plain_enc_nodes : forall stages base x f,
  no_input (enc_nodes c dv base x f stages)
  /\ no_concat (enc_nodes c dv base x f stages).
Proof.
  induction stages as [| i rest IH]; intros base x f;
    [split; constructor |].
  destruct (IH (S base) (base, 0%nat) (Z.min 256 (f * 2))) as [Hi Hc].
  split; constructor; try assumption; reflexivity.
Qed.

Lemma plain_dec_nodes : forall stages base x j,
  no_input (dec_nodes c dv base x j stages)
  /\ no_concat (dec_nodes c dv base x j stages).
Proof.
  induction stages as [| [skip f] rest IH]; intros base x j;
    [split; constructor |].
  cbn [dec_nodes].
  destruct (upsampling_layer_cases c f j) as [H | [H | [H | H]]]; rewrite H;
    [ destruct (IH (3 + base)%nat ((2 + base)%nat, 0%nat) (j + 1)) as [Hi Hc]
    | destruct (IH (3 + base)%nat ((2 + base)%nat, 0%nat) (j + 1)) as [Hi Hc]
    | destruct (IH (3 + base)%nat ((2 + base)%nat, 0%nat) (j + 1)) as [Hi Hc]
    | destruct (IH (2 + base)%nat ((1 + base)%nat, 0%nat) (j + 1)) as [Hi Hc] ];
    split; repeat (constructor; [reflexivity |]); assumption.
Qed.

Lemma plain_chain_nodes : forall ls base x,
  Forall (fun l => l <> Concatenate) ls ->
  no_input (chain_nodes base x ls) /\ no_concat (chain_nodes base x ls).
Proof.
  induction ls as [| l ls IH]; intros base x H; [split; constructor |].
  inversion H as [| ? ? Hl Hls]; subst.
  destruct (IH (S base) (base, 0%nat) Hls) as [Hi Hc].
  split; constructor; try assumption; [reflexivity |].
  destruct l; try reflexivity. contradiction.
Qed.

Lemma net_loop_layers_plain bb :
  Forall (fun l => l <> Concatenate) (net_loop_layers c bb dv).
Proof.
  unfold net_loop_layers. apply Forall_flat_map, Forall_forall. intros i _.
  unfold net_block_layers.
  destruct (bb =? "convnet")%string; [repeat constructor; discriminate |].
  destruct (bb =? "resnet")%string; [repeat constructor; discriminate |].
  destruct (bb =? "densenet")%string; repeat constructor; discriminate.
Qed.

Lemma tail_nodes_no_input f base x s_in : no_input (tail_nodes c f base x s_in).
Proof.
  unfold tail_nodes. destruct (localcon_layer c), s_in; repeat constructor.
Qed.

Lemma straddles_tail a f base x s_in :
  straddles a (tail_nodes c f base x s_in) = false.
Proof.
  unfold tail_nodes.
  destruct (localcon_layer c), s_in; apply straddles_before_plain; reflexivity.
Qed.

(** The tail fuses the auxiliary tensor, when there is one, and nothing
    else. *)
Lemma aux_fusions_tail f base x s_in :
  aux_fusions base (tail_nodes c f base x s_in)
  = match s_in with
    | Some s => [s]
    | None => []
    end.
Proof.
  unfold tail_nodes.
  destruct (localcon_layer c), s_in as [s |];
    cbn [app List.length aux_fusions aux_block penultimate_block output_block];
    rewrite ?Nat.add_0_r;
    try replace (base + 2)%nat with (S (S base)) by lia;
    rewrite ?Nat.eqb_refl; reflexivity.
Qed.

End Plain.

Lemma input_tensors_input_nodes c free base :
  input_tensors base (input_nodes c free)
  = if 0 <? n_aux_channels c then [(base, 0%nat); (S base, 0%nat)]
    else [(base, 0%nat)].
Proof. unfold input_nodes. now destruct (0 <? n_aux_channels c). Qed.

Lemma aux_consistent_intro c free base m new :
  inputs m = Tensor (primary_tensor c base)
             :: match aux_tensor c base with
                | Some s => [Tensor s]
                | None => []
                end ->
  input_tensors base new = input_tensors base (input_nodes c free) ->
  aux_fusions base new = match aux_tensor c base with
                         | Some s => [s]
                         | None => []
                         end ->
  aux_consistent c base m new.
Proof.
  intros Hin Hnodes Hfused. unfold aux_consistent.
  rewrite Hin, Hnodes, Hfused, input_tensors_input_nodes.
  unfold primary_tensor, aux_tensor.
  destruct (0 <? n_aux_channels c) eqn:Haux.
  - apply Z.ltb_lt in Haux. rewrite Nat.add_1_r. cbn [List.length map tl].
    repeat split; try reflexivity;
      try (intros _; assumption); try (intros _; discriminate).
    + intros [H | [H | []]]; inversion H; subst; cbn; auto.
    + intros [H | [H | []]]; subst; cbn; auto.
  - apply Z.ltb_ge in Haux. rewrite Nat.add_0_r. cbn [List.length map tl].
    repeat split; try reflexivity;
      try (intros H; now destruct H); try (intros H; lia).
    + intros [H | []]; inversion H; subst; cbn; auto.
    + intros [H | []]; subst; cbn; auto.
Qed.

Lemma no_input_app a b : no_input a -> no_input b -> no_input (a ++ b).
Proof. intros Ha Hb. apply Forall_app. now split. Qed.

Lemma no_concat_app a b : no_concat a -> no_concat b -> no_concat (a ++ b).
Proof. intros Ha Hb. apply Forall_app. now split. Qed.

Lemma unet_nodes_aux c dv e base :
  input_tensors base (unet_nodes c dv e base)
  = input_tensors base (input_nodes c (unet_free c))
  /\ aux_fusions base (unet_nodes c dv e base)
     = match aux_tensor c base with
       | Some s => [s]
       | None => []
       end.
Proof.
  unfold unet_nodes.
  set (ins := input_nodes c (unet_free c)).
  set (b1 := (base + List.length ins)%nat). set (n := Z.to_nat e).
  set (enc := enc_nodes c dv b1 (primary_tensor c base) (n_filters c) (range e)).
  set (bot := [LayerNode _ _]).
  set (dec := dec_nodes c dv (S (b1 + n)) ((b1 + n)%nat, 0%nat) 0 (dec_stages c b1 n)).
  set (tl := tail_nodes c _ _ _ _).
  destruct (plain_enc_nodes c dv (range e) b1 (primary_tensor c base) (n_filters c))
    as [Ei Ec].
  destruct (plain_dec_nodes c dv (dec_stages c b1 n) (S (b1 + n)) ((b1 + n)%nat, 0%nat) 0)
    as [Di Dc].
  fold enc in Ei, Ec. fold dec in Di, Dc.
  split.
  - rewrite input_tensors_app, (input_tensors_no_input (enc ++ bot ++ dec ++ tl)).
    + apply app_nil_r.
    + apply no_input_app; [assumption |].
      apply no_input_app; [repeat constructor |].
      apply no_input_app; [assumption | apply tail_nodes_no_input].
  - replace (ins ++ enc ++ bot ++ dec ++ tl) with ((ins ++ enc ++ bot ++ dec) ++ tl)
      by (now rewrite <- !app_assoc).
    rewrite aux_fusions_app by apply straddles_tail.
    rewrite aux_fusions_no_concat.
    + cbn [app]. subst tl.
      replace (base + List.length (ins ++ enc ++ bot ++ dec))%nat
        with (S (b1 + n) + List.length dec)%nat.
      * apply aux_fusions_tail.
      * rewrite !length_app. subst enc bot.
        rewrite length_enc_nodes, length_range.
        cbn [List.length]. subst n b1. lia.
    + apply no_concat_app; [apply plain_input_nodes |].
      apply no_concat_app; [assumption |].
      apply no_concat_app; [repeat constructor | assumption].
Qed.

Lemma dropout_applied_cases rate dv l :
  dropout_applied rate dv = Some l ->
  l = Dropout rate \/ l = GaussianDropout rate
  \/ l = SpatialDropout2D rate \/ l = MCDropout rate.
Proof.
  unfold dropout_applied. destruct (Qpositive rate); [| discriminate].
  destruct dv as [v |]; [| intros [= <-]; now left].
  destruct (v =? "gaussian")%string; [intros [= <-]; now right; left |].
  destruct (v =? "spatial")%string; [intros [= <-]; now right; right; left |].
  destruct (v =? "mcdrop")%string; [intros [= <-]; now right; right; right |].
  discriminate.
Qed.

Lemma merge_layer_cases bb l :
  merge_layer bb = Some l -> l = Add \/ l = Concatenate.
Proof.
  unfold merge_layer. destruct (bb =? "convnet")%string; [discriminate |].
  destruct (bb =? "resnet")%string; [intros [= <-]; now left |].
  destruct (bb =? "densenet")%string; [intros [= <-]; now right | discriminate].
Qed.

Lemma net_nodes_aux c bb dv base :
  input_tensors base (net_nodes c bb dv base)
  = input_tensors base (input_nodes c (negb (localcon_layer c)))
  /\ aux_fusions base (net_nodes c bb dv base)
     = match aux_tensor c base with
       | Some s => [s]
       | None => []
       end.
Proof.
  unfold net_nodes.
  rewrite aux_fusions_app by apply straddles_tail.
  rewrite aux_fusions_tail, input_tensors_app.
  rewrite (input_tensors_no_input (tail_nodes _ _ _ _ _))
    by apply tail_nodes_no_input.
  rewrite app_nil_r.
  unfold net_trunk. cbn [fst snd].
  set (ins := input_nodes c (negb (localcon_layer c))).
  set (b1 := (base + List.length ins)%nat).
  set (loop := chain_nodes (S b1) (b1, 0%nat) (net_loop_layers c bb dv)).
  set (conv1 := LayerNode _ [primary_tensor c base]).
  set (conv2 := LayerNode _ [chain_out _ _ _]).
  destruct (plain_chain_nodes (net_loop_layers c bb dv) (S b1) (b1, 0%nat)
              (net_loop_layers_plain c dv bb)) as [Li Lc].
  fold loop in Li, Lc.
  set (drop := match dropout_applied (dropout_rate c) dv with
               | Some l => [LayerNode l [((S b1 + List.length loop)%nat, 0%nat)]]
               | None => []
               end).
  set (merge := match merge_layer bb with
                | Some l => [LayerNode l _]
                | None => []
                end).
  assert (Hdrop : no_input drop /\ no_concat drop
                  /\ straddles (((ins ++ [conv1]) ++ loop ++ [conv2]) ++ drop) merge
                     = false).
  { subst drop.
    destruct (dropout_applied (dropout_rate c) dv) as [l |] eqn:Hl.
    - apply dropout_applied_cases in Hl.
      split; [repeat constructor |].
      split; [destruct Hl as [-> | [-> | [-> | ->]]]; repeat constructor |].
      apply straddles_after_plain.
      destruct Hl as [-> | [-> | [-> | ->]]]; reflexivity.
    - split; [constructor |]. split; [constructor |].
      rewrite app_nil_r, app_assoc. now apply straddles_after_plain. }
  destruct Hdrop as (Di & Dc & Hstr).
  assert (Hmerge : no_input merge /\ aux_fusions
            (base + List.length (((ins ++ [conv1]) ++ loop ++ [conv2]) ++ drop))
            merge = []).
  { subst merge. destruct (merge_layer bb) as [l |]; split;
      try constructor; try reflexivity; try constructor.
    now rewrite aux_fusions_head by (right; exact I). }
  destruct Hmerge as (Mi & Mf).
  split.
  - rewrite input_tensors_app, (input_tensors_no_input (_ ++ _)).
    + apply app_nil_r.
    + apply no_input_app; [repeat constructor |].
      apply no_input_app; [assumption |].
      apply no_input_app; [repeat constructor |].
      apply no_input_app; assumption.
  - replace (ins ++ [conv1] ++ loop ++ [conv2] ++ drop ++ merge)
      with ((((ins ++ [conv1]) ++ loop ++ [conv2]) ++ drop) ++ merge)
      by (now rewrite <- !app_assoc).
    rewrite aux_fusions_app by exact Hstr.
    rewrite Mf, aux_fusions_no_concat; [reflexivity |].
    apply no_concat_app; [| assumption].
    apply no_concat_app;
      [apply no_concat_app; [apply plain_input_nodes | repeat constructor] |].
    apply no_concat_app; [assumption | repeat constructor].
Qed.

(** C8: a model returned by either builder has two inputs when
    [n_aux_channels > 0] and one otherwise; they are the [Input] nodes the
    call created; and the tensors that go through a convolution block and
    are concatenated onto the trunk are the inputs after the first one, so
    that the fusion takes place exactly when there is an auxiliary input. *)
Theorem builders_inputs_follow_aux_channels BB DV c w :
  (forall m w1,
      net_pin BB DV c w = (Ok m, w1) ->
      exists new,
        graph w1 = graph w ++ new
        /\ aux_consistent c (List.length (graph w)) m new)
  /\ (forall fuel m w1,
         unet_pin BB DV fuel c w = (Ok m, w1) ->
         exists new,
           graph w1 = graph w ++ new
           /\ aux_consistent c (List.length (graph w)) m new).
Proof.
  split.
  - intros m w1 Hrun.
    destruct (net_pin_inv BB DV c w m w1 Hrun) as (_ & -> & ->).
    eexists. split; [reflexivity |].
    destruct (net_nodes_aux c (backbone_block c) (dropout_variant c)
                (List.length (graph w))) as [Hi Hf].
    eapply aux_consistent_intro; [reflexivity | exact Hi | exact Hf].
  - intros fuel m w1 Hrun.
    destruct (unet_pin_inv BB DV fuel c w m w1 Hrun)
      as (_ & e & w' & _ & -> & Hgraph).
    eexists. split; [exact Hgraph |].
    destruct (unet_nodes_aux c (dropout_variant c) e (List.length (graph w)))
      as [Hi Hf].
    eapply aux_consistent_intro; [reflexivity | exact Hi | exact Hf].
Qed.

Lemma builders_inputs_follow_aux_channels_witness :
  (exists new,
      graph (snd (net_pin sample_backbones sample_dropouts
                    (sample "densenet" 2 2 (64, 48) (Some "mcdrop") false "rc" true)
                    fresh))
      = graph fresh ++ new
      /\ aux_consistent
           (sample "densenet" 2 2 (64, 48) (Some "mcdrop") false "rc" true)
           (List.length (graph fresh))
           (net_model (sample "densenet" 2 2 (64, 48) (Some "mcdrop") false "rc" true)
              "densenet" (Some "mcdrop") 0)
           new)
  /\ (exists new,
         graph (snd (unet_pin sample_backbones sample_dropouts 4
                       (sample "densenet" 2 2 (64, 48) (Some "mcdrop") false "rc" true)
                       fresh))
         = graph fresh ++ new
         /\ aux_consistent
              (sample "densenet" 2 2 (64, 48) (Some "mcdrop") false "rc" true)
              (List.length (graph fresh))
              (unet_model (sample "densenet" 2 2 (64, 48) (Some "mcdrop") false "rc" true)
                 "densenet" (Some "mcdrop") 2 0)
              new).
Proof.
  destruct (builders_inputs_follow_aux_channels sample_backbones sample_dropouts
              (sample "densenet" 2 2 (64, 48) (Some "mcdrop") false "rc" true)
              fresh) as (Hnet & Hunet).
  split; [apply Hnet; vm_compute; reflexivity |].
  apply (Hunet 4%nat); vm_compute; reflexivity.
Defined.

(** * Further properties *)

(** ** The depth validator: diagnostics, closed form, idempotence *)

(** A depth the validator returns passes the size test. *)
Lemma check_nblocks_returns fuel shape : forall power w0 e w1,
  _check_nblocks fuel shape power w0 = (Ok e, w1) -> too_deep shape e = false.
Proof.
  induction fuel as [| fuel IH]; intros power w0 e w1 Hrun; [discriminate |].
  cbn [_check_nblocks] in Hrun.
  destruct (too_deep shape power) eqn:Hdeep.
  - unfold bind, print in Hrun. now apply IH in Hrun.
  - now inversion Hrun; subst.
Qed.

(** Whatever the shape and the requested depth, when [_check_nblocks]
    returns it returns a depth [e] at most the requested one, that is not
    too deep while every depth above it up to the requested one is; it
    creates no graph node and prints one line per step down, for the
    depths from the requested one to [e + 1], in that order. *)
Theorem check_nblocks_prints_each_reduction fuel shape : forall power w0 e w1,
  _check_nblocks fuel shape power w0 = (Ok e, w1) ->
  e <= power
  /\ too_deep shape e = false
  /\ (forall e', e < e' <= power -> too_deep shape e' = true)
  /\ graph w1 = graph w0
  /\ stdout w1
     = stdout w0 ++ map nblocks_msg (countdown power (Z.to_nat (power - e))).
Proof.
  induction fuel as [| fuel IH]; intros power w0 e w1 Hrun; [discriminate |].
  cbn [_check_nblocks] in Hrun.
  destruct (too_deep shape power) eqn:Hdeep.
  - unfold bind, print in Hrun.
    apply IH in Hrun as (Hle & Hok & Hmax & Hgraph & Hout).
    cbn [graph stdout] in Hgraph, Hout.
    split; [lia |]. split; [exact Hok |]. split.
    + intros e' He'. destruct (Z.eq_dec e' power) as [-> | Hne]; [exact Hdeep |].
      apply Hmax. lia.
    + split; [exact Hgraph |].
      rewrite Hout, <- app_assoc.
      replace (Z.to_nat (power - e)) with (S (Z.to_nat (power - 1 - e))) by lia.
      reflexivity.
  - inversion Hrun; subst.
    split; [lia |]. split; [exact Hdeep |]. split; [intros e' He'; lia |].
    split; [reflexivity |].
    rewrite Z.sub_diag. cbn. now rewrite app_nil_r.
Qed.

Lemma check_nblocks_prints_each_reduction_witness :
  5 <= 7
  /\ too_deep (64, 100) 5 = false
  /\ (forall e', 5 < e' <= 7 -> too_deep (64, 100) e' = true)
  /\ graph (snd (_check_nblocks 3 (64, 100) 7 fresh)) = graph fresh
  /\ stdout (snd (_check_nblocks 3 (64, 100) 7 fresh))
     = stdout fresh ++ map nblocks_msg (countdown 7 (Z.to_nat (7 - 5))).
Proof.
  apply (check_nblocks_prints_each_reduction 3 (64, 100) 7 fresh 5
           (snd (_check_nblocks 3 (64, 100) 7 fresh))).
  reflexivity.
Defined.

Lemma valid_depth_iff_log2 h e :
  0 < h -> 0 <= e -> (2 <= h / 2 ^ e <-> e + 1 <= Z.log2 h).
Proof.
  intros Hh He.
  assert (Hpow : 0 < 2 ^ e) by (apply Z.pow_pos_nonneg; lia).
  rewrite <- Z.log2_le_pow2 by assumption.
  rewrite Z.pow_add_r by lia. change (2 ^ 1) with 2.
  split; intros H.
  - assert (2 ^ e * 2 <= h); [| lia].
    transitivity (2 ^ e * (h / 2 ^ e)).
    + apply Z.mul_le_mono_nonneg_l; lia.
    + apply Z.mul_div_le. assumption.
  - apply Z.div_le_lower_bound; lia.
Qed.

Lemma too_deep_iff_log2 h w e :
  0 < h -> 0 < w -> 0 <= e ->
  too_deep (h, w) e = false <-> e <= Z.log2 (Z.min h w) - 1.
Proof.
  intros Hh Hw He.
  rewrite too_deep_false_iff by assumption.
  rewrite (valid_depth_iff_log2 h e Hh He), (valid_depth_iff_log2 w e Hw He).
  destruct (Z.min_spec h w) as [[Hlt ->] | [Hle ->]].
  - assert (Z.log2 h <= Z.log2 w) by (apply Z.log2_le_mono; lia). lia.
  - assert (Z.log2 w <= Z.log2 h) by (apply Z.log2_le_mono; lia). lia.
Qed.

(** For a grid with both dimensions at least 2 and a requested depth
    [d >= 0], the validated depth is [d] capped at
    [log2 (min h w) - 1]: the number of halvings that leave at least 2
    cells along the shorter side. *)
Theorem check_nblocks_closed_form h w d fuel w0 :
  2 <= h -> 2 <= w -> 0 <= d -> (Z.to_nat d < fuel)%nat ->
  fst (_check_nblocks fuel (h, w) d w0)
  = Ok (Z.min d (Z.log2 (Z.min h w) - 1)).
Proof.
  intros Hh Hw Hd Hfuel.
  destruct (check_nblocks_run h w Hh Hw fuel d w0 Hd Hfuel)
    as (e & out & Hrun & He & Hok & Hmax & _).
  rewrite Hrun. cbn [fst]. f_equal.
  set (L := Z.log2 (Z.min h w) - 1).
  assert (HL : 0 <= L).
  { assert (Z.log2 2 <= Z.log2 (Z.min h w)) by (apply Z.log2_le_mono; lia).
    change (Z.log2 2) with 1 in *. unfold L. lia. }
  apply too_deep_iff_log2 in Hok; [| lia | lia | lia]. fold L in Hok.
  destruct (Z.le_gt_cases d L) as [HdL | HdL].
  - rewrite Z.min_l by assumption.
    destruct (Z.eq_dec e d) as [-> | Hne]; [reflexivity |].
    assert (Hdeep : too_deep (h, w) d = true) by (apply Hmax; lia).
    assert (Hvalid : too_deep (h, w) d = false)
      by (apply too_deep_iff_log2; [lia | lia | lia | exact HdL]).
    congruence.
  - rewrite Z.min_r by lia.
    destruct (Z.eq_dec e L) as [-> | Hne]; [reflexivity |].
    assert (Hdeep : too_deep (h, w) L = true) by (apply Hmax; lia).
    assert (Hvalid : too_deep (h, w) L = false)
      by (apply too_deep_iff_log2; [lia | lia | lia | fold L; lia]).
    congruence.
Qed.

Lemma check_nblocks_closed_form_witness :
  fst (_check_nblocks 10 (100, 37) 9 fresh)
  = Ok (Z.min 9 (Z.log2 (Z.min 100 37) - 1)).
Proof.
  apply (check_nblocks_closed_form 100 37 9 10%nat fresh);
    [lia | lia | lia | vm_compute; lia].
Defined.

(** Validating a validated depth changes nothing: the depth comes back as
    it is, with a single round of the loop, and nothing is printed. *)
Theorem check_nblocks_idempotent fuel shape power w0 e w1 w2 :
  _check_nblocks fuel shape power w0 = (Ok e, w1) ->
  _check_nblocks 1 shape e w2 = (Ok e, w2).
Proof.
  intros Hrun.
  apply check_nblocks_returns in Hrun.
  cbn [_check_nblocks]. now rewrite Hrun.
Qed.

Lemma check_nblocks_idempotent_witness :
  _check_nblocks 1 (64, 64) 5 fresh = (Ok 5, fresh).
Proof.
  apply (check_nblocks_idempotent 7 (64, 64) 6 fresh 5
           (snd (_check_nblocks 7 (64, 64) 6 fresh)) fresh).
  reflexivity.
Defined.

(** ** The encoder of [unet_pin]: filter counts in closed form *)

Lemma cap_absorbs_doubling f p :
  1 <= p -> Z.min 256 (Z.min 256 (f * 2) * p) = Z.min 256 (f * 2 * p).
Proof. intros Hp. destruct (Z.le_gt_cases (f * 2) 256); nia. Qed.

Lemma schedule_nth : forall n f i a,
  nth_error (schedule f n) (S i) = Some a ->
  a = Z.min 256 (f * 2 ^ Z.of_nat (S i)).
Proof.
  induction n as [| n IH]; intros f i a H; [discriminate |].
  cbn [schedule nth_error] in H.
  destruct i as [| i].
  - apply schedule_head in H. subst. now rewrite Z.pow_1_r.
  - apply IH in H. subst.
    rewrite (Nat2Z.inj_succ (S i)), Z.pow_succ_r by lia.
    assert (0 < 2 ^ Z.of_nat (S i)) by (apply Z.pow_pos_nonneg; lia).
    rewrite cap_absorbs_doubling by lia.
    f_equal. ring.
Qed.

Lemma final_filters_closed : forall n f,
  final_filters f (S n) = Z.min 256 (f * 2 ^ Z.of_nat (S n)).
Proof.
  induction n as [| n IH]; intros f.
  - cbn [final_filters]. now rewrite Z.pow_1_r.
  - change (final_filters f (S (S n)))
      with (final_filters (Z.min 256 (f * 2)) (S n)).
    rewrite IH, (Nat2Z.inj_succ (S n)), Z.pow_succ_r by lia.
    assert (0 < 2 ^ Z.of_nat (S n)) by (apply Z.pow_pos_nonneg; lia).
    rewrite cap_absorbs_doubling by lia.
    f_equal. ring.
Qed.

(** In a graph built by [unet_pin] the first encoder stage has
    [n_filters] filters, uncapped, stage [i >= 1] (counting from 0) has
    [min(256, n_filters * 2^i)], and the bottleneck after [n >= 1] stages
    has [min(256, n_filters * 2^n)]. *)
Theorem unet_encoder_filters_closed_form BB DV c fuel w m w1 :
  unet_pin BB DV fuel c w = (Ok m, w1) ->
  exists new,
    graph w1 = graph w ++ new
    /\ (forall a, nth_error (encoder_filters new) 0 = Some a -> a = n_filters c)
    /\ (forall i a,
           nth_error (encoder_filters new) (S i) = Some a ->
           a = Z.min 256 (n_filters c * 2 ^ Z.of_nat (S i)))
    /\ (forall a xs n,
           In (a, xs) (bottleneck_blocks new) ->
           List.length (encoder_filters new) = S n ->
           kw_filters a = Z.min 256 (n_filters c * 2 ^ Z.of_nat (S n))).
Proof.
  intros Hrun.
  destruct (unet_pin_inv BB DV fuel c w m w1 Hrun) as (_ & e & w' & _ & _ & Hgraph).
  exists (unet_nodes c (dropout_variant c) e (List.length (graph w))).
  destruct (unet_nodes_observed c (dropout_variant c) e (List.length (graph w)))
    as (He & _ & _ & _ & Hb).
  rewrite He, Hb. split; [exact Hgraph |].
  split; [intros a; apply schedule_head |].
  split; [intros i a; apply schedule_nth |].
  intros a xs n [H | []] Hlen. inversion H; subst. cbn [kw_filters].
  rewrite length_schedule in Hlen. rewrite Hlen. apply final_filters_closed.
Qed.

Lemma unet_encoder_filters_closed_form_witness :
  exists new,
    graph (snd (unet_pin sample_backbones sample_dropouts 6
                  (sample "convnet" 0 5 (64, 64) (Some "spatial") false "rc" false)
                  fresh))
    = graph fresh ++ new
    /\ (forall a, nth_error (encoder_filters new) 0 = Some a -> a = 32)
    /\ (forall i a,
           nth_error (encoder_filters new) (S i) = Some a ->
           a = Z.min 256 (32 * 2 ^ Z.of_nat (S i)))
    /\ (forall a xs n,
           In (a, xs) (bottleneck_blocks new) ->
           List.length (encoder_filters new) = S n ->
           kw_filters a = Z.min 256 (32 * 2 ^ Z.of_nat (S n))).
Proof.
  eapply (unet_encoder_filters_closed_form sample_backbones sample_dropouts
            (sample "convnet" 0 5 (64, 64) (Some "spatial") false "rc" false)
            6 fresh).
  vm_compute. reflexivity.
Defined.

(** ** Skip connections meet the filter count of their encoder stage *)

Lemma combine_snoc {A B} (a : list A) (b : list B) x y :
  List.length a = List.length b ->
  combine (a ++ [x]) (b ++ [y]) = combine a b ++ [(x, y)].
Proof.
  revert b. induction a as [| a0 a IH]; intros [| b0 b] H; cbn in *;
    try reflexivity; try discriminate.
  f_equal. apply IH. lia.
Qed.

Lemma rev_combine {A B} : forall (a : list A) (b : list B),
  List.length a = List.length b ->
  rev (combine a b) = combine (rev a) (rev b).
Proof.
  induction a as [| a0 a IH]; intros [| b0 b] H; cbn in *;
    try reflexivity; try discriminate.
  rewrite IH by lia. symmetry. apply combine_snoc.
  rewrite !length_rev. lia.
Qed.

(** In a graph built by [unet_pin], pairing each skip tensor with the
    filter count of its stage gives, on the decoder side, the encoder's
    pairs in reverse: a skip tensor is concatenated in the decoder stage
    whose block has the filter count of the encoder block that recorded
    it. *)
Theorem unet_skip_meets_its_filter_count BB DV c fuel w m w1 :
  unet_pin BB DV fuel c w = (Ok m, w1) ->
  exists new,
    graph w1 = graph w ++ new
    /\ List.length (recorded_skips (List.length (graph w)) new)
       = List.length (encoder_filters new)
    /\ List.length (consumed_skips new) = List.length (decoder_filters new)
    /\ combine (consumed_skips new) (decoder_filters new)
       = rev (combine (recorded_skips (List.length (graph w)) new)
                (encoder_filters new)).
Proof.
  intros Hrun.
  destruct (unet_pin_inv BB DV fuel c w m w1 Hrun) as (_ & e & w' & _ & _ & Hgraph).
  exists (unet_nodes c (dropout_variant c) e (List.length (graph w))).
  destruct (unet_nodes_observed c (dropout_variant c) e (List.length (graph w)))
    as (He & Hd & Hc & Hr & _).
  rewrite He, Hd, Hc, Hr, !length_rev, length_enc_skips, length_schedule.
  repeat split; try assumption.
  symmetry. apply rev_combine. now rewrite length_enc_skips, length_schedule.
Qed.

Lemma unet_skip_meets_its_filter_count_witness :
  exists new,
    graph (snd (unet_pin sample_backbones sample_dropouts 4
                  (sample "convnet" 2 3 (64, 48) (Some "spatial") false "dc" false)
                  fresh))
    = graph fresh ++ new
    /\ List.length (recorded_skips (List.length (graph fresh)) new)
       = List.length (encoder_filters new)
    /\ List.length (consumed_skips new) = List.length (decoder_filters new)
    /\ combine (consumed_skips new) (decoder_filters new)
       = rev (combine (recorded_skips (List.length (graph fresh)) new)
                (encoder_filters new)).
Proof.
  eapply (unet_skip_meets_its_filter_count sample_backbones sample_dropouts
            (sample "convnet" 2 3 (64, 48) (Some "spatial") false "dc" false)
            4 fresh).
  vm_compute. reflexivity.
Defined.

(** ** The inputs of the builders *)

Lemma input_shapes_app a b : input_shapes (a ++ b) = input_shapes a ++ input_shapes b.
Proof. apply flat_map_app. Qed.

Lemma input_shapes_no_input ns : no_input ns -> input_shapes ns = [].
Proof.
  induction 1 as [| n ns Hn _ IH]; [reflexivity |].
  destruct n; [discriminate |]. exact IH.
Qed.

Lemma input_shapes_input_nodes c free :
  input_shapes (input_nodes c free)
  = map (input_shape free (hr_size c))
      ((if 0 <? n_aux_channels c then [n_aux_channels c] else [])
       ++ [n_channels c]).
Proof. unfold input_nodes. now destruct (0 <? n_aux_channels c). Qed.

Lemma net_trunk_no_input c bb dv base :
  exists rest,
    fst (net_trunk c bb dv base)
    = input_nodes c (negb (localcon_layer c)) ++ rest
    /\ no_input rest.
Proof.
  unfold net_trunk. cbn [fst]. eexists. split; [reflexivity |].
  destruct (plain_chain_nodes (net_loop_layers c bb dv)
              (S (base + List.length (input_nodes c (negb (localcon_layer c)))))
              ((base + List.length (input_nodes c (negb (localcon_layer c))))%nat, 0%nat)
              (net_loop_layers_plain c dv bb)) as [Li _].
  apply no_input_app; [repeat constructor |].
  apply no_input_app; [exact Li |].
  apply no_input_app; [repeat constructor |].
  apply no_input_app.
  - destruct (dropout_applied (dropout_rate c) dv); repeat constructor.
  - destruct (merge_layer bb); repeat constructor.
Qed.

Lemma net_nodes_no_input c bb dv base :
  exists rest,
    net_nodes c bb dv base = input_nodes c (negb (localcon_layer c)) ++ rest
    /\ no_input rest.
Proof.
  unfold net_nodes.
  destruct (net_trunk_no_input c bb dv base) as (rest & -> & Hrest).
  eexists. rewrite <- app_assoc. split; [reflexivity |].
  apply no_input_app; [exact Hrest | apply tail_nodes_no_input].
Qed.

Lemma unet_nodes_no_input c dv e base :
  exists rest,
    unet_nodes c dv e base = input_nodes c (unet_free c) ++ rest
    /\ no_input rest.
Proof.
  unfold unet_nodes. eexists. split; [reflexivity |].
  apply no_input_app; [apply plain_enc_nodes |].
  apply no_input_app; [repeat constructor |].
  apply no_input_app; [apply plain_dec_nodes | apply tail_nodes_no_input].
Qed.

(** The inputs a builder creates are the auxiliary one, when
    [n_aux_channels > 0], then the primary one, with [n_aux_channels] and
    [n_channels] channels.  With [localcon_layer] both builders fix their
    spatial shape to [hr_size]; without it [net_pin] leaves the shape
    unconstrained, and so does [unet_pin] on a square grid, while on a
    grid that is not square [unet_pin] fixes it to [hr_size] all the
    same. *)
Theorem builders_input_shapes BB DV c w :
  let channels := (if 0 <? n_aux_channels c then [n_aux_channels c] else [])
                  ++ [n_channels c] in
  let fixed ch := (Some (fst (hr_size c)), Some (snd (hr_size c)), ch) in
  let unconstrained ch : shape3 := (None, None, ch) in
  (forall m w1,
      net_pin BB DV c w = (Ok m, w1) ->
      exists new,
        graph w1 = graph w ++ new
        /\ input_shapes new
           = map (if localcon_layer c then fixed else unconstrained) channels)
  /\ (forall fuel m w1,
         unet_pin BB DV fuel c w = (Ok m, w1) ->
         exists new,
           graph w1 = graph w ++ new
           /\ input_shapes new
              = map (if localcon_layer c then fixed
                     else if fst (hr_size c) =? snd (hr_size c) then unconstrained
                          else fixed) channels).
Proof.
  intros channels fixed unconstrained. split.
  - intros m w1 Hrun.
    destruct (net_pin_inv BB DV c w m w1 Hrun) as (_ & _ & ->).
    eexists. split; [reflexivity |].
    destruct (net_nodes_no_input c (backbone_block c) (dropout_variant c)
                (List.length (graph w))) as (rest & -> & Hrest).
    rewrite input_shapes_app, (input_shapes_no_input rest Hrest), app_nil_r.
    rewrite input_shapes_input_nodes. fold channels.
    unfold input_shape. now destruct (localcon_layer c).
  - intros fuel m w1 Hrun.
    destruct (unet_pin_inv BB DV fuel c w m w1 Hrun) as (_ & e & w' & _ & _ & Hgraph).
    eexists. split; [exact Hgraph |].
    destruct (unet_nodes_no_input c (dropout_variant c) e (List.length (graph w)))
      as (rest & -> & Hrest).
    rewrite input_shapes_app, (input_shapes_no_input rest Hrest), app_nil_r.
    rewrite input_shapes_input_nodes. fold channels.
    unfold input_shape, unet_free.
    destruct (localcon_layer c); [reflexivity |].
    now destruct (fst (hr_size c) =? snd (hr_size c)).
Qed.

Lemma builders_input_shapes_witness :
  (exists new,
      graph (snd (net_pin sample_backbones sample_dropouts
                    (sample "resnet" 3 2 (64, 48) (Some "spatial") false "rc" false)
                    fresh))
      = graph fresh ++ new
      /\ input_shapes new = [(None, None, 3); (None, None, 1)])
  /\ (exists new,
         graph (snd (unet_pin sample_backbones sample_dropouts 3
                       (sample "resnet" 3 2 (64, 48) (Some "spatial") false "rc" false)
                       fresh))
         = graph fresh ++ new
         /\ input_shapes new = [(Some 64, Some 48, 3); (Some 64, Some 48, 1)]).
Proof.
  destruct (builders_input_shapes sample_backbones sample_dropouts
              (sample "resnet" 3 2 (64, 48) (Some "spatial") false "rc" false)
              fresh) as [Hnet Hunet].
  split.
  - eapply Hnet. vm_compute. reflexivity.
  - eapply (Hunet 3%nat). vm_compute. reflexivity.
Defined.

(** ** The output head *)

Lemma tail_nodes_ends c f base x s_in :
  exists pre x2,
    tail_nodes c f base x s_in
    = pre ++ [LayerNode (penultimate_block c f) [x2];
              LayerNode (output_block c) [((base + List.length pre)%nat, 0%nat)]]
    /\ tail_out c base s_in = (S (base + List.length pre), 0%nat).
Proof.
  unfold tail_nodes, tail_out.
  destruct (localcon_layer c), s_in as [s |]; cbn [List.length app Nat.add].
  - exists [LayerNode (LocalizedConvBlock 2 true) [x];
            LayerNode Concatenate [x; (base, 0%nat)];
            LayerNode (aux_block c f) [s];
            LayerNode Concatenate [(S base, 0%nat); ((base + 2)%nat, 0%nat)]],
      (S (base + 2), 0%nat).
    cbn [List.length app]. split; same_up_to_arith.
  - exists [LayerNode (LocalizedConvBlock 2 true) [x];
            LayerNode Concatenate [x; (base, 0%nat)]],
      (S base, 0%nat).
    cbn [List.length app]. split; same_up_to_arith.
  - exists [LayerNode (aux_block c f) [s];
            LayerNode Concatenate [x; ((base + 0)%nat, 0%nat)]],
      (S (base + 0), 0%nat).
    cbn [List.length app]. split; same_up_to_arith.
  - exists [], x. cbn [List.length app]. split; same_up_to_arith.
Qed.

Lemma last_cons_default {A} (a : A) l d d' : last (a :: l) d = last (a :: l) d'.
Proof.
  revert a. induction l as [| b l IH]; intros a; [reflexivity |].
  change (last (a :: b :: l) d) with (last (b :: l) d).
  change (last (a :: b :: l) d') with (last (b :: l) d'). apply IH.
Qed.

Lemma dec_filters_last : forall stages f0,
  dec_filters f0 stages = last (map snd stages) f0.
Proof.
  induction stages as [| [skip f] rest IH]; intros f0; [reflexivity |].
  cbn [dec_filters map snd]. rewrite IH.
  destruct rest as [| s rest]; [reflexivity |].
  cbn [map]. change (last (f :: snd s :: map snd rest) f0)
    with (last (snd s :: map snd rest) f0).
  apply last_cons_default.
Qed.

(** The decoder loop leaves [n_filters] at the caller's value. *)
Lemma dec_filters_dec_stages c base n :
  dec_filters (final_filters (n_filters c) n) (dec_stages c base n)
  = n_filters c.
Proof.
  rewrite dec_filters_last, dec_stages_snd.
  destruct n as [| n]; [reflexivity |].
  cbn [schedule rev]. apply last_last.
Qed.

Lemma ends_with_output_head_tail c base m pre0 x s_in :
  outputs m = Tensor (tail_out c (base + List.length pre0) s_in) ->
  model_name m = (backbone_block c ++ "_pin")%string ->
  ends_with_output_head c base m
    (pre0 ++ tail_nodes c (n_filters c) (base + List.length pre0) x s_in).
Proof.
  intros Hout Hname.
  destruct (tail_nodes_ends c (n_filters c) (base + List.length pre0) x s_in)
    as (pre & x2 & Htail & Hlast).
  exists (pre0 ++ pre), x2. rewrite Htail, Hout, Hlast, <- app_assoc, length_app.
  rewrite Nat.add_assoc. repeat split; assumption.
Qed.

(** Whatever the backbone, the depth and the branches taken, a graph
    returned by either builder ends with the same two blocks: one with the
    caller's [n_filters] - also in [unet_pin], whose decoder loop leaves
    [n_filters] at that value -, no activation and attention on, then one
    with [n_channels_out] filters, the output activation, no dropout and
    attention off; the model's output is the output of the latter, and its
    name is the backbone followed by [_pin]. *)
Theorem builders_output_head BB DV c w :
  (forall m w1,
      net_pin BB DV c w = (Ok m, w1) ->
      exists new,
        graph w1 = graph w ++ new
        /\ ends_with_output_head c (List.length (graph w)) m new)
  /\ (forall fuel m w1,
         unet_pin BB DV fuel c w = (Ok m, w1) ->
         exists new,
           graph w1 = graph w ++ new
           /\ ends_with_output_head c (List.length (graph w)) m new).
Proof.
  split.
  - intros m w1 Hrun.
    destruct (net_pin_inv BB DV c w m w1 Hrun) as (_ & -> & ->).
    eexists. split; [reflexivity |].
    unfold net_nodes. apply ends_with_output_head_tail; reflexivity.
  - intros fuel m w1 Hrun.
    destruct (unet_pin_inv BB DV fuel c w m w1 Hrun)
      as (_ & e & w' & _ & -> & Hgraph).
    eexists. split; [exact Hgraph |].
    unfold unet_nodes, unet_model.
    set (base := List.length (graph w)).
    set (ins := input_nodes c (unet_free c)).
    set (b1 := (base + List.length ins)%nat). set (n := Z.to_nat e).
    set (enc := enc_nodes c (dropout_variant c) b1 (primary_tensor c base)
                  (n_filters c) (range e)).
    set (bot := [LayerNode _ _]).
    set (dec := dec_nodes c (dropout_variant c) (S (b1 + n)) ((b1 + n)%nat, 0%nat) 0
                  (dec_stages c b1 n)).
    rewrite dec_filters_dec_stages.
    assert (Hlen : (S (b1 + n) + List.length dec
                    = base + List.length (ins ++ enc ++ bot ++ dec))%nat).
    { rewrite !length_app. subst enc bot.
      rewrite length_enc_nodes, length_range. cbn [List.length].
      subst n b1. lia. }
    rewrite Hlen.
    replace (ins ++ enc ++ bot ++ dec ++ tail_nodes c (n_filters c)
               (base + List.length (ins ++ enc ++ bot ++ dec))
               (dec_out c (S (b1 + n)) ((b1 + n)%nat, 0%nat) 0 (dec_stages c b1 n))
               (aux_tensor c base))
      with ((ins ++ enc ++ bot ++ dec) ++ tail_nodes c (n_filters c)
               (base + List.length (ins ++ enc ++ bot ++ dec))
               (dec_out c (S (b1 + n)) ((b1 + n)%nat, 0%nat) 0 (dec_stages c b1 n))
               (aux_tensor c base))
      by (now rewrite <- !app_assoc).
    apply ends_with_output_head_tail; reflexivity.
Qed.

Lemma builders_output_head_witness :
  (exists new,
      graph (snd (net_pin sample_backbones sample_dropouts
                    (sample "densenet" 1 3 (64, 64) None true "rc" true) fresh))
      = graph fresh ++ new
      /\ ends_with_output_head
           (sample "densenet" 1 3 (64, 64) None true "rc" true)
           (List.length (graph fresh))
           (net_model (sample "densenet" 1 3 (64, 64) None true "rc" true)
              "densenet" None 0)
           new)
  /\ (exists new,
         graph (snd (unet_pin sample_backbones sample_dropouts 4
                       (sample "densenet" 1 3 (64, 64) None true "rc" true) fresh))
         = graph fresh ++ new
         /\ ends_with_output_head
              (sample "densenet" 1 3 (64, 64) None true "rc" true)
              (List.length (graph fresh))
              (unet_model (sample "densenet" 1 3 (64, 64) None true "rc" true)
                 "densenet" None 3 0)
              new).
Proof.
  destruct (builders_output_head sample_backbones sample_dropouts
              (sample "densenet" 1 3 (64, 64) None true "rc" true) fresh)
    as [Hnet Hunet].
  split.
  - apply Hnet. vm_compute. reflexivity.
  - apply (Hunet 4%nat). vm_compute. reflexivity.
Defined.

(** ** The layers of [net_pin] *)

Lemma layers_of_app a b : layers_of (a ++ b) = layers_of a ++ layers_of b.
Proof. apply flat_map_app. Qed.

Lemma layers_of_chain_nodes : forall ls base x,
  layers_of (chain_nodes base x ls) = ls.
Proof.
  induction ls as [| l ls IH]; intros base x; [reflexivity |].
  cbn [chain_nodes]. unfold layers_of in *. cbn [flat_map app]. now rewrite IH.
Qed.

Lemma layers_of_input_nodes c free : layers_of (input_nodes c free) = [].
Proof. unfold input_nodes. now destruct (0 <? n_aux_channels c). Qed.

Lemma layers_of_tail_nodes c f base x s_in :
  layers_of (tail_nodes c f base x s_in)
  = (if localcon_layer c then [LocalizedConvBlock 2 true; Concatenate] else [])
    ++ match s_in with
       | Some _ => [aux_block c f; Concatenate]
       | None => []
       end
    ++ [penultimate_block c f; output_block c].
Proof. unfold tail_nodes. now destruct (localcon_layer c), s_in. Qed.

Lemma layers_of_net_nodes c bb dv base :
  layers_of (net_nodes c bb dv base)
  = [Conv2D (n_filters c) (3, 3) "same"]
    ++ net_loop_layers c bb dv
    ++ [Conv2D (n_filters c) (3, 3) "same"]
    ++ match dropout_applied (dropout_rate c) dv with
       | Some l => [l]
       | None => []
       end
    ++ match merge_layer bb with
       | Some l => [l]
       | None => []
       end
    ++ (if localcon_layer c then [LocalizedConvBlock 2 true; Concatenate] else [])
    ++ match aux_tensor c base with
       | Some _ => [aux_block c (n_filters c); Concatenate]
       | None => []
       end
    ++ [penultimate_block c (n_filters c); output_block c].
Proof.
  unfold net_nodes, net_trunk. cbn [fst snd].
  rewrite !layers_of_app, layers_of_input_nodes, layers_of_chain_nodes,
    layers_of_tail_nodes.
  destruct (dropout_applied (dropout_rate c) dv), (merge_layer bb);
    unfold layers_of; cbn [flat_map app]; rewrite ?app_nil_r, <- ?app_assoc;
    reflexivity.
Qed.

Lemma length_filter_repeated {A B} (p : B -> bool) (L : list B) (l : list A) :
  List.length (filter p (flat_map (fun _ => L) l))
  = (List.length l * List.length (filter p L))%nat.
Proof.
  induction l as [| a l IH]; [reflexivity |].
  cbn [flat_map List.length]. rewrite filter_app, length_app, IH. lia.
Qed.

Lemma backbone_excludes bb s t :
  s <> t -> (bb =? s)%string = true -> (bb =? t)%string = false.
Proof.
  intros Hne Hs. apply String.eqb_eq in Hs. subst.
  now apply String.eqb_neq.
Qed.

(** ** Every layer of [net_pin] reaches the output *)

Lemma all_read_app after : forall a b pos,
  all_read pos a (b ++ after) = true ->
  all_read (pos + List.length a) b after = true ->
  all_read pos (a ++ b) after = true.
Proof.
  induction a as [| n a IH]; intros b pos Ha Hb; cbn [app List.length all_read] in *.
  - now rewrite Nat.add_0_r in Hb.
  - apply andb_true_iff in Ha as [Hn Ha]. apply andb_true_iff. split.
    + now rewrite <- app_assoc.
    + apply IH; [exact Ha |]. now rewrite Nat.add_succ_comm.
Qed.

Lemma chain_out_cons : forall rest pos x l,
  chain_out pos x (l :: rest) = ((pos + List.length rest)%nat, 0%nat).
Proof.
  induction rest as [| l' rest IH]; intros pos x l.
  - cbn. now rewrite Nat.add_0_r.
  - change (chain_out pos x (l :: l' :: rest))
      with (chain_out (S pos) (pos, 0%nat) (l' :: rest)).
    rewrite IH. cbn [List.length]. f_equal. lia.
Qed.

Lemma reads_head p l ins more :
  existsb (fun t => Nat.eqb (fst t) p) ins = true ->
  existsb (reads p) (LayerNode l ins :: more) = true.
Proof. intros H. cbn [existsb reads]. now rewrite H. Qed.

Lemma all_read_chain after : forall ls pos pos' x,
  pos = pos' ->
  (ls <> [] -> existsb (reads (pos + List.length ls - 1)) after = true) ->
  all_read pos (chain_nodes pos' x ls) after = true.
Proof.
  induction ls as [| l rest IH]; intros pos pos' x <- Hlast; [reflexivity |].
  cbn [chain_nodes all_read]. apply andb_true_iff. split.
  - destruct rest as [| l' rest'].
    + cbn [chain_nodes app].
      replace pos with (pos + List.length [l] - 1)%nat at 1 by (cbn; lia).
      apply Hlast. discriminate.
    + cbn [chain_nodes app]. apply reads_head. cbn. now rewrite Nat.eqb_refl.
  - apply IH; [reflexivity |]. intros Hne.
    replace (S pos + List.length rest - 1)%nat
      with (pos + List.length (l :: rest) - 1)%nat by (cbn [List.length]; lia).
    apply Hlast. discriminate.
Qed.

(** The input of a chain is read by its first layer, or by the layer
    that reads its output when the chain is empty. *)
Lemma reads_chain_or_next p pos x ls l' more :
  p = fst x ->
  existsb (reads p) (chain_nodes pos x ls ++ LayerNode l' [chain_out pos x ls] :: more)
  = true.
Proof.
  intros ->. destruct ls as [| l rest]; cbn [chain_nodes chain_out app];
    apply reads_head; cbn; now rewrite Nat.eqb_refl.
Qed.

Lemma reads_chain_end p pos x ls l' more :
  ls <> [] -> p = (pos + List.length ls - 1)%nat ->
  existsb (reads p) (LayerNode l' [chain_out pos x ls] :: more) = true.
Proof.
  intros Hne ->. destruct ls as [| l rest]; [congruence |].
  rewrite chain_out_cons. apply reads_head. cbn [existsb fst List.length].
  replace (pos + S (List.length rest) - 1)%nat with (pos + List.length rest)%nat by lia.
  now rewrite Nat.eqb_refl.
Qed.

Lemma existsb_here {A} (f : A -> bool) x l :
  f x = true -> existsb f (x :: l) = true.
Proof. intros H. cbn. now rewrite H. Qed.

Lemma existsb_later {A} (f : A -> bool) x l :
  existsb f l = true -> existsb f (x :: l) = true.
Proof. intros H. cbn. rewrite H. apply orb_true_r. Qed.

Ltac read_ok :=
  cbn [reads existsb fst List.length];
  rewrite ?orb_true_iff;
  first [ left; apply Nat.eqb_eq; lia
        | right; left; apply Nat.eqb_eq; lia ].

Ltac find_reader :=
  cbn [app]; rewrite <- ?app_assoc; cbn [app];
  lazymatch goal with
  | |- existsb _ (chain_nodes _ _ _ ++ LayerNode _ [chain_out _ _ _] :: _) = true =>
      first [ solve [apply reads_chain_or_next; cbn [fst]; lia]
            | rewrite existsb_app; apply orb_true_iff; right; find_reader ]
  | |- existsb _ (LayerNode _ [chain_out _ _ _] :: _) = true =>
      first [ solve [apply reads_chain_end; [assumption | cbn [List.length]; lia]]
            | apply existsb_later; find_reader ]
  | |- existsb _ (_ :: _) = true =>
      first [ apply existsb_here; solve [read_ok]
            | apply existsb_later; find_reader ]
  | |- existsb _ (_ ++ _) = true =>
      rewrite existsb_app; apply orb_true_iff;
      first [ left; solve [find_reader] | right; find_reader ]
  end.

Ltac solve_all_read :=
  rewrite ?length_chain_nodes;
  lazymatch goal with
  | |- all_read _ [] _ = true => reflexivity
  | |- all_read _ (chain_nodes _ _ _) _ = true =>
      apply all_read_chain; [cbn [List.length]; lia | intros ?; find_reader]
  | |- all_read ?p (?n :: ?l) ?after = true =>
      change (existsb (reads p) (l ++ after) && all_read (S p) l after = true);
      apply andb_true_iff; split; [find_reader | solve_all_read]
  | |- all_read _ (_ ++ _) _ = true =>
      apply all_read_app; [solve_all_read | solve_all_read]
  end.

Lemma net_nodes_all_read c bb dv base :
  bb = "convnet" \/ bb = "resnet" \/ bb = "densenet" ->
  exists body out,
    net_nodes c bb dv base = body ++ [out]
    /\ all_read base body [out] = true
    /\ tail_out c (base + List.length (fst (net_trunk c bb dv base)))
         (aux_tensor c base)
       = ((base + List.length body)%nat, 0%nat).
Proof.
  intros Hbb.
  unfold net_nodes, net_trunk, tail_nodes, tail_out, input_nodes, aux_tensor,
    primary_tensor, merge_layer.
  cbn [fst snd].
  generalize (net_loop_layers c bb dv) as ls. intros ls.
  destruct (0 <? n_aux_channels c), (localcon_layer c),
    (dropout_applied (dropout_rate c) dv) as [dl |];
    destruct Hbb as [-> | [-> | ->]];
    cbn [String.eqb Ascii.eqb Bool.eqb negb app List.length];
    rewrite ?length_app, ?length_chain_nodes; cbn [List.length app].
  all: rewrite <- ?app_assoc; cbn [app].
  all: match goal with
       | |- exists body out,
              ?x1 :: ?x2 :: ?x3 :: chain_nodes ?p ?t ?l ++ ?suf = _ /\ _ =>
           exists (x1 :: x2 :: x3 :: chain_nodes p t l ++ removelast suf),
                  (last suf (LayerNode Add []))
       | |- exists body out, ?x1 :: ?x2 :: chain_nodes ?p ?t ?l ++ ?suf = _ /\ _ =>
           exists (x1 :: x2 :: chain_nodes p t l ++ removelast suf),
                  (last suf (LayerNode Add []))
       end.
  all: cbn [removelast last app].
  all: split; [rewrite <- ?app_assoc; cbn [app]; reflexivity |].
  all: split; [| rewrite ?length_app; cbn [List.length]; rewrite ?length_app;
                  cbn [List.length]; rewrite ?length_chain_nodes; f_equal; lia].
  all: solve_all_read.
Qed.

(** The layers among the nodes of [net_pin], kind by kind. *)
Lemma net_nodes_counts c base :
  let n := Z.to_nat (n_blocks c) in
  let bb := backbone_block c in
  let new := net_nodes c bb (dropout_variant c) base in
  count_layers is_Conv2D new = 2%nat
  /\ count_layers is_ResidualBlock new
     = (if (bb =? "resnet")%string then n else 0)%nat
  /\ count_layers is_DenseBlock new
     = (if (bb =? "densenet")%string then n else 0)%nat
  /\ count_layers is_TransitionBlock new
     = (if (bb =? "densenet")%string then n else 0)%nat
  /\ count_layers is_ConvBlock new
     = ((if (bb =? "convnet")%string then n else 0)
        + (if (0 <? n_aux_channels c)%Z then 1 else 0) + 2)%nat
  /\ (forall f, In (TransitionBlock f) (layers_of new) -> f = n_filters c / 2).
Proof.
  cbn zeta.
  set (bb := backbone_block c). set (dv := dropout_variant c).
  unfold count_layers. rewrite layers_of_net_nodes.
  assert (Hdrop : forall p,
    (p = is_Conv2D \/ p = is_ResidualBlock \/ p = is_DenseBlock
     \/ p = is_TransitionBlock \/ p = is_ConvBlock) ->
    filter p match dropout_applied (dropout_rate c) dv with
             | Some l => [l]
             | None => []
             end = []).
  { intros p Hp.
    destruct (dropout_applied (dropout_rate c) dv) as [l |] eqn:Hl; [| reflexivity].
    apply dropout_applied_cases in Hl.
    destruct Hl as [-> | [-> | [-> | ->]]];
      destruct Hp as [-> | [-> | [-> | [-> | ->]]]]; reflexivity. }
  assert (Hmerge : forall p,
    (p = is_Conv2D \/ p = is_ResidualBlock \/ p = is_DenseBlock
     \/ p = is_TransitionBlock \/ p = is_ConvBlock) ->
    filter p match merge_layer bb with
             | Some l => [l]
             | None => []
             end = []).
  { intros p Hp.
    destruct (merge_layer bb) as [l |] eqn:Hl; [| reflexivity].
    apply merge_layer_cases in Hl.
    destruct Hl as [-> | ->];
      destruct Hp as [-> | [-> | [-> | [-> | ->]]]]; reflexivity. }
  assert (Hloop : forall p,
    List.length (filter p (net_loop_layers c bb dv))
    = (Z.to_nat (n_blocks c) * List.length (filter p (net_block_layers c bb dv)))%nat).
  { intros p. unfold net_loop_layers.
    now rewrite length_filter_repeated, length_range. }
  assert (Hc : (bb =? "convnet")%string = true ->
               (bb =? "resnet")%string = false /\ (bb =? "densenet")%string = false)
    by (intros H; split; eapply backbone_excludes; try exact H; discriminate).
  assert (Hr : (bb =? "resnet")%string = true -> (bb =? "densenet")%string = false)
    by (intros H; eapply backbone_excludes; try exact H; discriminate).
  repeat split.
  - rewrite !filter_app, !length_app, Hloop, Hdrop, Hmerge by tauto.
    unfold net_block_layers, aux_tensor.
    destruct (bb =? "convnet")%string, (bb =? "resnet")%string,
      (bb =? "densenet")%string, (localcon_layer c), (0 <? n_aux_channels c);
      cbn; lia.
  - rewrite !filter_app, !length_app, Hloop, Hdrop, Hmerge by tauto.
    unfold net_block_layers, aux_tensor.
    destruct (bb =? "convnet")%string eqn:E1;
      [destruct (Hc eq_refl) as [-> _] |];
      destruct (bb =? "resnet")%string, (bb =? "densenet")%string,
        (localcon_layer c), (0 <? n_aux_channels c); cbn; lia.
  - rewrite !filter_app, !length_app, Hloop, Hdrop, Hmerge by tauto.
    unfold net_block_layers, aux_tensor.
    destruct (bb =? "convnet")%string eqn:E1;
      [destruct (Hc eq_refl) as [_ ->] |];
      (destruct (bb =? "resnet")%string eqn:E2;
       [try rewrite (Hr eq_refl) |]);
      destruct (bb =? "densenet")%string,
        (localcon_layer c), (0 <? n_aux_channels c); cbn; lia.
  - rewrite !filter_app, !length_app, Hloop, Hdrop, Hmerge by tauto.
    unfold net_block_layers, aux_tensor.
    destruct (bb =? "convnet")%string eqn:E1;
      [destruct (Hc eq_refl) as [_ ->] |];
      (destruct (bb =? "resnet")%string eqn:E2;
       [try rewrite (Hr eq_refl) |]);
      destruct (bb =? "densenet")%string,
        (localcon_layer c), (0 <? n_aux_channels c); cbn; lia.
  - rewrite !filter_app, !length_app, Hloop, Hdrop, Hmerge by tauto.
    unfold net_block_layers, aux_tensor.
    destruct (bb =? "convnet")%string, (bb =? "resnet")%string,
      (bb =? "densenet")%string, (localcon_layer c), (0 <? n_aux_channels c);
      cbn; lia.
  - intros f Hin. rewrite !in_app_iff in Hin.
    destruct Hin as [Hin | [Hin | [Hin | [Hin | [Hin | [Hin | [Hin | Hin]]]]]]].
    + destruct Hin as [H | []]; discriminate.
    + unfold net_loop_layers in Hin. apply in_flat_map in Hin as (i & _ & Hin).
      unfold net_block_layers in Hin.
      destruct (bb =? "convnet")%string; [destruct Hin as [H | []]; discriminate |].
      destruct (bb =? "resnet")%string; [destruct Hin as [H | []]; discriminate |].
      destruct (bb =? "densenet")%string; [| destruct Hin].
      destruct Hin as [H | [H | []]]; [discriminate | congruence].
    + destruct Hin as [H | []]; discriminate.
    + destruct (dropout_applied (dropout_rate c) dv) as [l |] eqn:Hl; [| destruct Hin].
      apply dropout_applied_cases in Hl.
      destruct Hin as [Hin | []]. subst l.
      destruct Hl as [H | [H | [H | H]]]; discriminate.
    + destruct (merge_layer bb) as [l |] eqn:Hl; [| destruct Hin].
      apply merge_layer_cases in Hl. destruct Hin as [Hin | []]. subst l.
      destruct Hl; discriminate.
    + destruct (localcon_layer c); [| destruct Hin].
      destruct Hin as [H | [H | []]]; discriminate.
    + destruct (aux_tensor c base); [| destruct Hin].
      destruct Hin as [H | [H | []]]; discriminate.
    + destruct Hin as [H | [H | []]]; discriminate.
Qed.

(** For each of the three backbones the merge knows, every node [net_pin]
    creates is read by a node created after it, up to the last one, whose
    output is the output of the returned model: every layer called is
    part of the model.  Among them are exactly two plain convolutions,
    before and after the trunk, and the trunk has [max(0, n_blocks)]
    blocks of the kind of the backbone - residual blocks for ['resnet'],
    dense blocks each with its transition block of [n_filters // 2]
    filters for ['densenet'], convolution blocks for ['convnet'], beside
    the two of the output head and the one of the auxiliary input. *)
Theorem net_pin_trunk_blocks BB DV c w m w1 :
  net_pin BB DV c w = (Ok m, w1) ->
  backbone_block c = "convnet" \/ backbone_block c = "resnet"
  \/ backbone_block c = "densenet" ->
  exists body out,
    let new := body ++ [out] in
    let n := Z.to_nat (n_blocks c) in
    let bb := backbone_block c in
    graph w1 = graph w ++ new
    /\ all_read (List.length (graph w)) body [out] = true
    /\ outputs m
       = Tensor ((List.length (graph w) + List.length body)%nat, 0%nat)
    /\ count_layers is_Conv2D new = 2%nat
    /\ count_layers is_ResidualBlock new
       = (if (bb =? "resnet")%string then n else 0)%nat
    /\ count_layers is_DenseBlock new
       = (if (bb =? "densenet")%string then n else 0)%nat
    /\ count_layers is_TransitionBlock new
       = (if (bb =? "densenet")%string then n else 0)%nat
    /\ count_layers is_ConvBlock new
       = ((if (bb =? "convnet")%string then n else 0)
          + (if (0 <? n_aux_channels c)%Z then 1 else 0) + 2)%nat
    /\ (forall f, In (TransitionBlock f) (layers_of new) -> f = n_filters c / 2).
Proof.
  intros Hrun Hbb.
  destruct (net_pin_inv BB DV c w m w1 Hrun) as (_ & -> & ->).
  destruct (net_nodes_all_read c (backbone_block c) (dropout_variant c)
              (List.length (graph w)) Hbb) as (body & out & Hnew & Hread & Hout).
  exists body, out. cbn zeta. rewrite <- Hnew.
  split; [reflexivity |]. split; [exact Hread |].
  split; [cbn [outputs net_model]; now rewrite Hout |].
  apply net_nodes_counts.
Qed.

Lemma net_pin_trunk_blocks_witness :
  exists body out,
    let c := sample "densenet" 1 3 (64, 48) (Some "spatial") false "rc" true in
    let new := body ++ [out] in
    let n := Z.to_nat (n_blocks c) in
    let bb := backbone_block c in
    graph (snd (net_pin sample_backbones sample_dropouts c fresh)) = graph fresh ++ new
    /\ all_read (List.length (graph fresh)) body [out] = true
    /\ outputs (net_model c "densenet" (Some "spatial") 0)
       = Tensor ((List.length (graph fresh) + List.length body)%nat, 0%nat)
    /\ count_layers is_Conv2D new = 2%nat
    /\ count_layers is_ResidualBlock new
       = (if (bb =? "resnet")%string then n else 0)%nat
    /\ count_layers is_DenseBlock new
       = (if (bb =? "densenet")%string then n else 0)%nat
    /\ count_layers is_TransitionBlock new
       = (if (bb =? "densenet")%string then n else 0)%nat
    /\ count_layers is_ConvBlock new
       = ((if (bb =? "convnet")%string then n else 0)
          + (if (0 <? n_aux_channels c)%Z then 1 else 0) + 2)%nat
    /\ (forall f, In (TransitionBlock f) (layers_of new) -> f = n_filters c / 2).
Proof.
  eapply (net_pin_trunk_blocks sample_backbones sample_dropouts
            (sample "densenet" 1 3 (64, 48) (Some "spatial") false "rc" true)
            fresh).
  - vm_compute. reflexivity.
  - right. right. reflexivity.
Defined.

(** ** When [net_pin] returns a model *)

Lemma merge_reads_b_true bb :
  merge_reads_b bb = true <-> bb = "convnet" \/ bb = "resnet" \/ bb = "densenet".
Proof.
  unfold merge_reads_b. rewrite !orb_true_iff, !String.eqb_eq. tauto.
Qed.

(** [net_pin] returns a model only if both checked arguments are accepted
    and the call is not one with a positive dropout rate, the variant
    ['mcgaussiandrop'] or ['mcspatialdrop'] and one of the three backbones
    the merge knows: such a call, like one with a rejected argument, ends
    in an exception. *)
Theorem net_pin_returns_only_if BB DV c w m w1 :
  net_pin BB DV c w = (Ok m, w1) ->
  valid_args BB DV c = true
  /\ ~ (Qpositive (dropout_rate c) = true
        /\ (dropout_variant c = Some "mcgaussiandrop"
            \/ dropout_variant c = Some "mcspatialdrop")
        /\ (backbone_block c = "convnet" \/ backbone_block c = "resnet"
            \/ backbone_block c = "densenet")).
Proof.
  intros Hrun.
  destruct (net_pin_inv BB DV c w m w1 Hrun) as (Hvalid & _).
  split; [exact Hvalid |].
  intros (Hpos & Hdv & Hbb).
  assert (Hun : exists l,
    dropout_unapplied (dropout_rate c) (dropout_variant c) = Some l).
  { unfold dropout_unapplied. rewrite Hpos.
    destruct Hdv as [-> | ->]; eexists; reflexivity. }
  destruct Hun as (l & Hun).
  apply merge_reads_b_true in Hbb.
  destruct (net_pin_unapplied_raises BB DV c w l Hvalid Hun Hbb)
    as (e & w' & Hraise).
  rewrite Hraise in Hrun. discriminate.
Qed.

Lemma net_pin_returns_only_if_witness :
  let c := sample "convnet" 0 2 (64, 48) (Some "spatial") false "rc" false in
  valid_args sample_backbones sample_dropouts c = true
  /\ ~ (Qpositive (dropout_rate c) = true
        /\ (dropout_variant c = Some "mcgaussiandrop"
            \/ dropout_variant c = Some "mcspatialdrop")
        /\ (backbone_block c = "convnet" \/ backbone_block c = "resnet"
            \/ backbone_block c = "densenet")).
Proof.
  eapply (net_pin_returns_only_if sample_backbones sample_dropouts
            (sample "convnet" 0 2 (64, 48) (Some "spatial") false "rc" false)
            fresh).
  vm_compute. reflexivity.
Defined.

(** ** The depth of a returned U-Net *)

Lemma check_nblocks_returns_bounds fuel shape : forall power w0 e w1,
  _check_nblocks fuel shape power w0 = (Ok e, w1) ->
  e <= power
  /\ too_deep shape e = false
  /\ (forall e', e < e' <= power -> too_deep shape e' = true).
Proof.
  induction fuel as [| fuel IH]; intros power w0 e w1 Hrun; [discriminate |].
  cbn [_check_nblocks] in Hrun.
  destruct (too_deep shape power) eqn:Hdeep.
  - unfold bind, print in Hrun.
    apply IH in Hrun as (Hle & Hok & Hmax).
    split; [lia |]. split; [exact Hok |].
    intros e' He'. destruct (Z.eq_dec e' power) as [-> | Hne]; [exact Hdeep |].
    apply Hmax. lia.
  - inversion Hrun; subst.
    split; [lia |]. split; [exact Hdeep |]. intros e' He'. lia.
Qed.

Lemma depth_is_capped_log2 h w d e :
  2 <= h -> 2 <= w -> 0 <= e <= d ->
  too_deep (h, w) e = false ->
  (forall e', e < e' <= d -> too_deep (h, w) e' = true) ->
  e = Z.min d (Z.log2 (Z.min h w) - 1).
Proof.
  intros Hh Hw He Hok Hmax.
  set (L := Z.log2 (Z.min h w) - 1).
  apply too_deep_iff_log2 in Hok; [| lia | lia | lia]. fold L in Hok.
  destruct (Z.le_gt_cases d L) as [HdL | HdL].
  - rewrite Z.min_l by assumption.
    destruct (Z.eq_dec e d) as [-> | Hne]; [reflexivity |].
    assert (Hdeep : too_deep (h, w) d = true) by (apply Hmax; lia).
    assert (Hvalid : too_deep (h, w) d = false)
      by (apply too_deep_iff_log2; [lia | lia | lia | exact HdL]).
    congruence.
  - rewrite Z.min_r by lia.
    destruct (Z.eq_dec e L) as [-> | Hne]; [reflexivity |].
    assert (Hdeep : too_deep (h, w) L = true) by (apply Hmax; lia).
    assert (Hvalid : too_deep (h, w) L = false)
      by (apply too_deep_iff_log2; [lia | lia | lia | fold L; lia]).
    congruence.
Qed.

(** On a grid with both dimensions at least 2 and for a requested depth
    [d >= 0], a graph returned by [unet_pin] has
    [min(d, log2(min(h, w)) - 1)] encoder stages and as many decoder
    stages, with [log2] rounded down: the requested depth capped at the
    number of halvings that leave at least 2 cells along the shorter
    side. *)
Theorem unet_pin_depth_closed_form BB DV c fuel w m w1 :
  unet_pin BB DV fuel c w = (Ok m, w1) ->
  2 <= fst (hr_size c) -> 2 <= snd (hr_size c) -> 0 <= n_blocks c ->
  exists new,
    let e := Z.min (n_blocks c)
               (Z.log2 (Z.min (fst (hr_size c)) (snd (hr_size c))) - 1) in
    graph w1 = graph w ++ new
    /\ 0 <= e
    /\ Z.of_nat (List.length (encoder_filters new)) = e
    /\ Z.of_nat (List.length (decoder_filters new)) = e
    /\ m = unet_model c (backbone_block c) (dropout_variant c) e
             (List.length (graph w)).
Proof.
  intros Hrun Hh Hw Hd.
  destruct (unet_pin_inv BB DV fuel c w m w1 Hrun)
    as (_ & e & w' & Hcheck & Hm & Hgraph).
  destruct (hr_size c) as [h wd] eqn:Hhr. cbn [fst snd] in *.
  assert (He : e = Z.min (n_blocks c) (Z.log2 (Z.min h wd) - 1)).
  { destruct (check_nblocks_returns_bounds fuel (h, wd) (n_blocks c) w e w' Hcheck)
      as (Hle & Hok & Hmax).
    assert (H0 : too_deep (h, wd) 0 = false) by now apply too_deep_zero.
    assert (Hnn : 0 <= e).
    { destruct (Z_le_gt_dec 0 e) as [H | H]; [exact H |].
      rewrite (Hmax 0) in H0 by lia. discriminate. }
    apply (depth_is_capped_log2 h wd (n_blocks c) e);
      [assumption | assumption | lia | assumption | assumption]. }
  subst e.
  exists (unet_nodes c (dropout_variant c)
            (Z.min (n_blocks c) (Z.log2 (Z.min h wd) - 1)) (List.length (graph w))).
  cbn zeta.
  destruct (unet_nodes_observed c (dropout_variant c)
              (Z.min (n_blocks c) (Z.log2 (Z.min h wd) - 1)) (List.length (graph w)))
    as (Henc & Hdec & _).
  assert (Hlog : 1 <= Z.log2 (Z.min h wd))
    by (change 1 with (Z.log2 2); apply Z.log2_le_mono; lia).
  split; [exact Hgraph |]. split; [lia |].
  rewrite Henc, Hdec, length_rev, length_schedule.
  split; [lia |]. split; [lia |]. exact Hm.
Qed.

Lemma unet_pin_depth_closed_form_witness :
  exists new,
    let c := sample "convnet" 0 6 (64, 48) (Some "spatial") false "rc" false in
    let e := Z.min (n_blocks c)
               (Z.log2 (Z.min (fst (hr_size c)) (snd (hr_size c))) - 1) in
    graph (snd (unet_pin sample_backbones sample_dropouts 7 c fresh))
    = graph fresh ++ new
    /\ 0 <= e
    /\ Z.of_nat (List.length (encoder_filters new)) = e
    /\ Z.of_nat (List.length (decoder_filters new)) = e
    /\ fst (unet_pin sample_backbones sample_dropouts 7 c fresh)
       = Ok (unet_model c (backbone_block c) (dropout_variant c) e
               (List.length (graph fresh))).
Proof.
  destruct (unet_pin_depth_closed_form sample_backbones sample_dropouts
              (sample "convnet" 0 6 (64, 48) (Some "spatial") false "rc" false)
              7 fresh
              (unet_model
                 (sample "convnet" 0 6 (64, 48) (Some "spatial") false "rc" false)
                 "convnet" (Some "spatial") 4 0)
              (snd (unet_pin sample_backbones sample_dropouts 7
                      (sample "convnet" 0 6 (64, 48) (Some "spatial") false "rc" false)
                      fresh)))
    as (new & Hg & He & Henc & Hdec & Hm);
    [vm_compute; reflexivity | vm_compute; discriminate
     | vm_compute; discriminate | vm_compute; discriminate |].
  exists new. cbn zeta in *.
  split; [exact Hg |]. split; [exact He |]. split; [exact Henc |].
  split; [exact Hdec |]. vm_compute. reflexivity.
Defined.

(** ** The names [unet_pin] gives to its layers *)

Lemma str_inj a b : str a = str b -> a = b.
Proof.
  unfold str. intros H. apply DecimalZ.to_int_inj.
  assert (H' : Some (Z.to_int a) = Some (Z.to_int b))
    by (rewrite <- !NilEmpty.isi; now rewrite H).
  now inversion H'.
Qed.

Lemma append_inj (p a b : string) : (p ++ a = p ++ b)%string -> a = b.
Proof.
  induction p as [| ch p IH]; cbn; [easy |].
  intros H. inversion H. auto.
Qed.

Lemma count_from_bounds : forall n j x, In x (count_from j n) -> j <= x.
Proof.
  induction n as [| n IH]; intros j x; cbn; [easy |].
  intros [<- | Hin]; [lia |]. apply IH in Hin. lia.
Qed.

Lemma NoDup_count_from : forall n j, NoDup (count_from j n).
Proof.
  induction n as [| n IH]; intros j; cbn; constructor; [| apply IH].
  intros Hin. apply count_from_bounds in Hin. lia.
Qed.

Lemma NoDup_named (f : Z -> string) n j :
  (forall a b, f a = f b -> a = b) -> NoDup (map f (count_from j n)).
Proof.
  intros Hinj. apply NoDup_map_NoDup_ForallPairs; [| apply NoDup_count_from].
  intros a b _ _. apply Hinj.
Qed.

Lemma range_succ_count_from e :
  map (fun i => i + 1) (range e) = count_from 1 (Z.to_nat e).
Proof.
  unfold range. rewrite map_map.
  change 1 with (Z.of_nat 0 + 1) at 2.
  generalize 0%nat. induction (Z.to_nat e) as [| n IH]; intros k; [reflexivity |].
  cbn [seq map count_from]. f_equal.
  rewrite IH. f_equal. lia.
Qed.

Lemma encoder_suffixes_enc_nodes c dv : forall stages base x f,
  encoder_suffixes (enc_nodes c dv base x f stages)
  = map str (map (fun i => i + 1) stages).
Proof.
  induction stages as [| i rest IH]; intros base x f; [reflexivity |].
  cbn [enc_nodes map]. unfold encoder_suffixes in *. cbn [flat_map].
  rewrite IH. reflexivity.
Qed.

Lemma names_enc_nodes c dv : forall stages base x f,
  block_names (enc_nodes c dv base x f stages) = []
  /\ concat_suffixes (enc_nodes c dv base x f stages) = []
  /\ upsampling_names (enc_nodes c dv base x f stages) = [].
Proof.
  induction stages as [| i rest IH]; intros base x f; [now repeat split |].
  cbn [enc_nodes]. unfold block_names, concat_suffixes, upsampling_names in *.
  cbn [flat_map encoder_block app]. apply IH.
Qed.

Lemma names_dec_nodes c dv : forall stages base x j,
  let n := List.length stages in
  encoder_suffixes (dec_nodes c dv base x j stages) = []
  /\ block_names (dec_nodes c dv base x j stages)
     = map (fun k => "DecoderConvBlock" ++ str k)%string (count_from (j + 1) n)
  /\ concat_suffixes (dec_nodes c dv base x j stages)
     = map (fun k => "_SkipConnection" ++ str k)%string (count_from (j + 1) n)
  /\ upsampling_names (dec_nodes c dv base x j stages)
     = if ((decoder_upsampling c =? "spc") || (decoder_upsampling c =? "dc"))%string
       then map str (count_from (j + 1) n)
       else if (decoder_upsampling c =? "rc")%string
            then map (fun k => "BilinearUpsampling" ++ str k)%string
                   (count_from (j + 1) n)
            else [].
Proof.
  induction stages as [| [skip f] rest IH]; intros base x j.
  - cbn.
    now destruct (decoder_upsampling c =? "spc")%string,
      (decoder_upsampling c =? "dc")%string, (decoder_upsampling c =? "rc")%string.
  - pose proof (IH (3 + base)%nat ((2 + base)%nat, 0%nat) (j + 1)) as IHa.
    pose proof (IH (2 + base)%nat ((1 + base)%nat, 0%nat) (j + 1)) as IHb.
    clear IH. cbn zeta in *. cbn [dec_nodes List.length count_from map].
    unfold upsampling_layer in *.
    destruct (decoder_upsampling c =? "spc")%string eqn:Hspc;
      destruct (decoder_upsampling c =? "rc")%string eqn:Hrc;
      destruct (decoder_upsampling c =? "dc")%string eqn:Hdc;
      try (apply String.eqb_eq in Hrc; apply String.eqb_eq in Hdc; congruence);
      cbn [orb] in *;
      destruct IHa as (IHa1 & IHa2 & IHa3 & IHa4);
      destruct IHb as (IHb1 & IHb2 & IHb3 & IHb4);
      unfold encoder_suffixes, block_names, concat_suffixes, upsampling_names in *;
      cbn [flat_map skip_concat decoder_block kw_name app];
      rewrite ?IHa1, ?IHa2, ?IHa3, ?IHa4, ?IHb1, ?IHb2, ?IHb3, ?IHb4;
      now repeat split.
Qed.

Lemma names_input_nodes c free :
  encoder_suffixes (input_nodes c free) = []
  /\ block_names (input_nodes c free) = []
  /\ concat_suffixes (input_nodes c free) = []
  /\ upsampling_names (input_nodes c free) = [].
Proof. unfold input_nodes. now destruct (0 <? n_aux_channels c). Qed.

Lemma names_tail_nodes c f base x s_in :
  encoder_suffixes (tail_nodes c f base x s_in) = []
  /\ block_names (tail_nodes c f base x s_in) = []
  /\ concat_suffixes (tail_nodes c f base x s_in) = []
  /\ upsampling_names (tail_nodes c f base x s_in) = [].
Proof. unfold tail_nodes. now destruct (localcon_layer c), s_in. Qed.

(** In a graph returned by [unet_pin] with validated depth [e] the
    encoder blocks carry the suffixes ['1'] to [str(e)], the decoder blocks
    the names ['DecoderConvBlock1'] to ['DecoderConvBlock' + str(e)] after
    the one ['Bottleneck'], the skip concatenations and the upsampling
    layers likewise; within each kind no name is given twice.  The blocks
    of the tail and the blocks of the auxiliary input are given no name. *)
Theorem unet_layer_names_distinct BB DV c fuel w m w1 :
  unet_pin BB DV fuel c w = (Ok m, w1) ->
  exists e w' new,
    _check_nblocks fuel (hr_size c) (n_blocks c) w = (Ok e, w')
    /\ graph w1 = graph w ++ new
    /\ encoder_suffixes new = map str (count_from 1 (Z.to_nat e))
    /\ block_names new
       = "Bottleneck"
         :: map (fun k => "DecoderConvBlock" ++ str k)%string
              (count_from 1 (Z.to_nat e))
    /\ concat_suffixes new
       = map (fun k => "_SkipConnection" ++ str k)%string
           (count_from 1 (Z.to_nat e))
    /\ upsampling_names new
       = (if ((decoder_upsampling c =? "spc") || (decoder_upsampling c =? "dc"))%string
          then map str (count_from 1 (Z.to_nat e))
          else if (decoder_upsampling c =? "rc")%string
               then map (fun k => "BilinearUpsampling" ++ str k)%string
                      (count_from 1 (Z.to_nat e))
               else [])
    /\ NoDup (encoder_suffixes new) /\ NoDup (block_names new)
    /\ NoDup (concat_suffixes new) /\ NoDup (upsampling_names new).
Proof.
  intros Hrun.
  destruct (unet_pin_inv BB DV fuel c w m w1 Hrun)
    as (_ & e & w' & Hcheck & _ & Hgraph).
  exists e, w'. eexists. split; [exact Hcheck |]. split; [exact Hgraph |].
  set (base := List.length (graph w)). set (n := Z.to_nat e).
  unfold unet_nodes. fold n.
  set (b1 := (base + List.length (input_nodes c (unet_free c)))%nat).
  destruct (names_input_nodes c (unet_free c)) as (Hi1 & Hi2 & Hi3 & Hi4).
  destruct (names_enc_nodes c (dropout_variant c) (range e) b1
              (primary_tensor c base) (n_filters c)) as (He2 & He3 & He4).
  pose proof (encoder_suffixes_enc_nodes c (dropout_variant c) (range e) b1
                (primary_tensor c base) (n_filters c)) as He1.
  rewrite range_succ_count_from in He1. fold n in He1.
  destruct (names_dec_nodes c (dropout_variant c) (dec_stages c b1 n)
              (S (b1 + n)) ((b1 + n)%nat, 0%nat) 0) as (Hd1 & Hd2 & Hd3 & Hd4).
  rewrite length_dec_stages in Hd2, Hd3, Hd4. change (0 + 1) with 1 in *.
  set (dec := dec_nodes c (dropout_variant c) (S (b1 + n)) ((b1 + n)%nat, 0%nat) 0
                (dec_stages c b1 n)) in *.
  set (tl := tail_nodes _ _ _ _ _).
  destruct (names_tail_nodes c
              (dec_filters (final_filters (n_filters c) n) (dec_stages c b1 n))
              (S (b1 + n) + List.length dec)
              (dec_out c (S (b1 + n)) ((b1 + n)%nat, 0%nat) 0 (dec_stages c b1 n))
              (aux_tensor c base)) as (Ht1 & Ht2 & Ht3 & Ht4).
  fold tl in Ht1, Ht2, Ht3, Ht4.
  assert (E1 : encoder_suffixes
                 (input_nodes c (unet_free c)
                  ++ enc_nodes c (dropout_variant c) b1 (primary_tensor c base)
                       (n_filters c) (range e)
                  ++ [LayerNode (bottleneck c (dropout_variant c)
                                   (final_filters (n_filters c) n))
                        [enc_out b1 (primary_tensor c base) n]]
                  ++ dec ++ tl)
               = map str (count_from 1 n)).
  { unfold encoder_suffixes in *. rewrite !flat_map_app, Hi1, He1, Hd1, Ht1.
    cbn. now rewrite app_nil_r. }
  assert (E2 : block_names
                 (input_nodes c (unet_free c)
                  ++ enc_nodes c (dropout_variant c) b1 (primary_tensor c base)
                       (n_filters c) (range e)
                  ++ [LayerNode (bottleneck c (dropout_variant c)
                                   (final_filters (n_filters c) n))
                        [enc_out b1 (primary_tensor c base) n]]
                  ++ dec ++ tl)
               = "Bottleneck"
                 :: map (fun k => "DecoderConvBlock" ++ str k)%string
                      (count_from 1 n)).
  { unfold block_names in *. rewrite !flat_map_app, Hi2, He2, Hd2, Ht2.
    cbn. now rewrite app_nil_r. }
  assert (E3 : concat_suffixes
                 (input_nodes c (unet_free c)
                  ++ enc_nodes c (dropout_variant c) b1 (primary_tensor c base)
                       (n_filters c) (range e)
                  ++ [LayerNode (bottleneck c (dropout_variant c)
                                   (final_filters (n_filters c) n))
                        [enc_out b1 (primary_tensor c base) n]]
                  ++ dec ++ tl)
               = map (fun k => "_SkipConnection" ++ str k)%string
                   (count_from 1 n)).
  { unfold concat_suffixes in *. rewrite !flat_map_app, Hi3, He3, Hd3, Ht3.
    cbn. now rewrite app_nil_r. }
  assert (E4 : upsampling_names
                 (input_nodes c (unet_free c)
                  ++ enc_nodes c (dropout_variant c) b1 (primary_tensor c base)
                       (n_filters c) (range e)
                  ++ [LayerNode (bottleneck c (dropout_variant c)
                                   (final_filters (n_filters c) n))
                        [enc_out b1 (primary_tensor c base) n]]
                  ++ dec ++ tl)
               = (if ((decoder_upsampling c =? "spc")
                      || (decoder_upsampling c =? "dc"))%string
                  then map str (count_from 1 n)
                  else if (decoder_upsampling c =? "rc")%string
                       then map (fun k => "BilinearUpsampling" ++ str k)%string
                              (count_from 1 n)
                       else [])).
  { unfold upsampling_names in *. rewrite !flat_map_app, Hi4, He4, Hd4, Ht4.
    cbn. now rewrite app_nil_r. }
  rewrite E1, E2, E3, E4.
  repeat split.
  - apply NoDup_named, str_inj.
  - constructor.
    + rewrite in_map_iff. intros (k & Hk & _). discriminate.
    + apply NoDup_named. intros a b H. apply append_inj in H. now apply str_inj.
  - apply NoDup_named. intros a b H. apply append_inj in H. now apply str_inj.
  - destruct ((decoder_upsampling c =? "spc") || (decoder_upsampling c =? "dc"))%string;
      [apply NoDup_named, str_inj |].
    destruct (decoder_upsampling c =? "rc")%string; [| constructor].
    apply NoDup_named. intros a b H. apply append_inj in H. now apply str_inj.
Qed.

Lemma unet_layer_names_distinct_witness :
  exists e w' new,
    let c := sample "convnet" 0 3 (64, 64) (Some "spatial") false "rc" false in
    _check_nblocks 4 (hr_size c) (n_blocks c) fresh = (Ok e, w')
    /\ graph (snd (unet_pin sample_backbones sample_dropouts 4 c fresh))
       = graph fresh ++ new
    /\ encoder_suffixes new = map str (count_from 1 (Z.to_nat e))
    /\ block_names new
       = "Bottleneck"
         :: map (fun k => "DecoderConvBlock" ++ str k)%string
              (count_from 1 (Z.to_nat e))
    /\ concat_suffixes new
       = map (fun k => "_SkipConnection" ++ str k)%string
           (count_from 1 (Z.to_nat e))
    /\ upsampling_names new
       = (if ((decoder_upsampling c =? "spc") || (decoder_upsampling c =? "dc"))%string
          then map str (count_from 1 (Z.to_nat e))
          else if (decoder_upsampling c =? "rc")%string
               then map (fun k => "BilinearUpsampling" ++ str k)%string
                      (count_from 1 (Z.to_nat e))
               else [])
    /\ NoDup (encoder_suffixes new) /\ NoDup (block_names new)
    /\ NoDup (concat_suffixes new) /\ NoDup (upsampling_names new).
Proof.
  eapply (unet_layer_names_distinct sample_backbones sample_dropouts
            (sample "convnet" 0 3 (64, 64) (Some "spatial") false "rc" false)
            4 fresh).
  vm_compute. reflexivity.
Defined.

(** ** The wiring of the graphs *)

Lemma first_output_before_mono lo pos pos' t :
  (pos <= pos')%nat -> first_output_before lo pos t -> first_output_before lo pos' t.
Proof. unfold first_output_before. intros; lia. Qed.

Lemma first_output_before_last lo pos :
  (lo <= pos)%nat -> first_output_before lo (S pos) (pos, 0%nat).
Proof. unfold first_output_before. cbn. lia. Qed.

Lemma reads_first_output skips lo pos t :
  first_output_before lo pos t ->
  (lo <= fst t < pos)%nat /\ (snd t = 0%nat \/ In t skips).
Proof. unfold first_output_before. intros [H1 H2]. auto. Qed.

Lemma well_wired_app skips lo : forall a b pos,
  well_wired skips lo pos a ->
  well_wired skips lo (pos + List.length a) b ->
  well_wired skips lo pos (a ++ b).
Proof.
  induction a as [| n a IH]; intros b pos Ha Hb; cbn [app List.length] in *.
  - now rewrite Nat.add_0_r in Hb.
  - destruct Ha as [Hn Ha]. split; [exact Hn |].
    apply IH; [exact Ha |]. now rewrite Nat.add_succ_comm.
Qed.

Lemma well_wired_input_nodes skips lo pos c free :
  well_wired skips lo pos (input_nodes c free).
Proof. unfold input_nodes. destruct (0 <? n_aux_channels c); cbn; auto. Qed.

Lemma well_wired_chain skips lo : forall ls pos x,
  (lo <= pos)%nat -> first_output_before lo pos x ->
  well_wired skips lo pos (chain_nodes pos x ls)
  /\ first_output_before lo (pos + List.length ls) (chain_out pos x ls).
Proof.
  induction ls as [| l ls IH]; intros pos x Hlo Hx;
    cbn [chain_nodes chain_out well_wired List.length].
  - split; [exact I |]. now rewrite Nat.add_0_r.
  - destruct (IH (S pos) (pos, 0%nat)) as [Hw Hout];
      [lia | now apply first_output_before_last |].
    split; [| now rewrite <- Nat.add_succ_comm].
    split; [| exact Hw].
    split; [discriminate |].
    constructor; [now apply reads_first_output | constructor].
Qed.

Lemma well_wired_enc skips lo c dv : forall stages pos x f,
  (lo <= pos)%nat -> first_output_before lo pos x ->
  well_wired skips lo pos (enc_nodes c dv pos x f stages)
  /\ first_output_before lo (pos + List.length stages)
       (enc_out pos x (List.length stages)).
Proof.
  induction stages as [| i stages IH]; intros pos x f Hlo Hx;
    cbn [enc_nodes enc_out well_wired List.length].
  - split; [exact I |]. now rewrite Nat.add_0_r.
  - destruct (IH (S pos) (pos, 0%nat) (Z.min 256 (f * 2))) as [Hw Hout];
      [lia | now apply first_output_before_last |].
    split; [| now rewrite <- Nat.add_succ_comm].
    split; [| exact Hw].
    split; [discriminate |].
    constructor; [now apply reads_first_output | constructor].
Qed.

Lemma well_wired_dec skips lo c dv : forall stages pos x j,
  (lo <= pos)%nat -> first_output_before lo pos x ->
  Forall (fun st => In (fst st) skips /\ (lo <= fst (fst st) < pos)%nat) stages ->
  well_wired skips lo pos (dec_nodes c dv pos x j stages)
  /\ first_output_before lo
       (pos + List.length (dec_nodes c dv pos x j stages))
       (dec_out c pos x j stages).
Proof.
  induction stages as [| [skip f] stages IH]; intros pos x j Hlo Hx Hskips;
    cbn [dec_nodes dec_out well_wired List.length].
  - split; [exact I |]. now rewrite Nat.add_0_r.
  - inversion Hskips as [| st sts [Hin Hpos] Hrest]; subst. cbn [fst] in Hin, Hpos.
    destruct (upsampling_layer c f j) as [l |].
    + destruct (IH (3 + pos)%nat ((2 + pos)%nat, 0%nat) (j + 1)) as [Hw Hout].
      * lia.
      * unfold first_output_before. cbn. lia.
      * eapply Forall_impl; [| exact Hrest]. cbn. intros st [H1 H2]. split; [exact H1 | lia].
      * cbn [well_wired List.length]. split.
        -- split; [split; [discriminate |];
                   constructor; [now apply reads_first_output | constructor] |].
           split; [split; [discriminate |] |].
           ++ constructor; [cbn; split; [lia | now left] |].
              constructor; [| constructor]. split; [lia | now right].
           ++ split; [| exact Hw].
              split; [discriminate |].
              constructor; [cbn; split; [lia | now left] | constructor].
        -- replace (pos + S (S (S (List.length
                      (dec_nodes c dv (3 + pos) ((2 + pos)%nat, 0%nat) (j + 1) stages)))))%nat
             with (3 + pos + List.length
                      (dec_nodes c dv (3 + pos) ((2 + pos)%nat, 0%nat) (j + 1) stages))%nat
             by lia.
           exact Hout.
    + destruct (IH (2 + pos)%nat ((1 + pos)%nat, 0%nat) (j + 1)) as [Hw Hout].
      * lia.
      * unfold first_output_before. cbn. lia.
      * eapply Forall_impl; [| exact Hrest]. cbn. intros st [H1 H2]. split; [exact H1 | lia].
      * cbn [well_wired List.length]. split.
        -- split; [split; [discriminate |] |].
           ++ constructor; [now apply reads_first_output |].
              constructor; [| constructor]. split; [lia | now right].
           ++ split; [| exact Hw].
              split; [discriminate |].
              constructor; [cbn; split; [lia | now left] | constructor].
        -- replace (pos + S (S (List.length
                      (dec_nodes c dv (2 + pos) ((1 + pos)%nat, 0%nat) (j + 1) stages))))%nat
             with (2 + pos + List.length
                      (dec_nodes c dv (2 + pos) ((1 + pos)%nat, 0%nat) (j + 1) stages))%nat
             by lia.
           exact Hout.
Qed.

Lemma well_wired_tail skips lo c f pos x s_in :
  (lo <= pos)%nat -> first_output_before lo pos x ->
  (forall s, s_in = Some s -> first_output_before lo pos s) ->
  well_wired skips lo pos (tail_nodes c f pos x s_in).
Proof.
  intros Hlo [Hx1 Hx2] Hs. unfold tail_nodes.
  destruct (localcon_layer c), s_in as [s |];
    try (destruct (Hs s eq_refl) as [Hs1 Hs2]);
    cbn [app List.length well_wired];
    repeat (split; [try discriminate; try exact I |]);
    repeat (constructor; [cbn; split; [lia | now left] |]);
    try constructor; try exact I;
    try (split; [lia | now left]).
Qed.

Lemma enc_skips_lt base n t : In t (enc_skips base n) -> (fst t < base + n)%nat.
Proof.
  revert base. induction n as [| n IH]; intros base H; cbn in H; [contradiction |].
  destruct H as [<- | H]; [cbn; lia |]. apply IH in H. lia.
Qed.

Lemma primary_tensor_before c base free :
  first_output_before base (base + List.length (input_nodes c free))
    (primary_tensor c base).
Proof.
  unfold first_output_before, primary_tensor, input_nodes.
  destruct (0 <? n_aux_channels c); cbn; lia.
Qed.

Lemma aux_tensor_before c base free pos s :
  (base + List.length (input_nodes c free) <= pos)%nat ->
  aux_tensor c base = Some s -> first_output_before base pos s.
Proof.
  unfold first_output_before, aux_tensor, input_nodes.
  destruct (0 <? n_aux_channels c); [| discriminate].
  intros Hpos H. inversion H. cbn in *. lia.
Qed.

Lemma net_nodes_well_wired c bb dv base :
  well_wired [] base base (net_nodes c bb dv base).
Proof.
  unfold net_nodes, net_trunk. cbn [fst snd].
  set (ins := input_nodes c (negb (localcon_layer c))).
  set (b1 := (base + List.length ins)%nat).
  set (ls := net_loop_layers c bb dv).
  set (loop := chain_nodes (S b1) (b1, 0%nat) ls).
  set (drop := match dropout_applied (dropout_rate c) dv with
               | Some l => [LayerNode l [((S b1 + List.length loop)%nat, 0%nat)]]
               | None => []
               end).
  set (merge := match merge_layer bb with
                | Some l => [LayerNode l [(b1, 0%nat);
                                          ((S b1 + List.length loop
                                            + List.length drop)%nat, 0%nat)]]
                | None => []
                end).
  set (conv1 := [LayerNode _ [primary_tensor c base]]).
  set (conv2 := [LayerNode _ [chain_out (S b1) (b1, 0%nat) ls]]).
  set (xm := if (bb =? "convnet")%string then _ else _).
  destruct (well_wired_chain [] base ls (S b1) (b1, 0%nat)) as [Hloop Hout];
    [subst b1; lia | apply first_output_before_last; subst b1; lia |].
  fold loop in Hloop. rewrite <- (length_chain_nodes ls (S b1) (b1, 0%nat)) in Hout.
  fold loop in Hout.
  assert (Hlen : (base + List.length (ins ++ conv1 ++ loop ++ conv2 ++ drop ++ merge)
                  = S (S b1) + List.length loop + List.length drop
                    + List.length merge)%nat).
  { rewrite !length_app. subst conv1 conv2 b1. cbn [List.length]. lia. }
  pose proof (primary_tensor_before c base (negb (localcon_layer c))) as Hin.
  fold ins in Hin. fold b1 in Hin.
  unfold first_output_before in Hout, Hin.
  assert (Hb1 : b1 = (base + List.length ins)%nat) by reflexivity.
  clearbody b1 loop.
  apply well_wired_app.
  - apply well_wired_app; [subst ins; apply well_wired_input_nodes |].
    apply well_wired_app.
    + subst conv1. cbn [well_wired]. split; [| exact I]. split; [discriminate |].
      constructor; [| constructor]. split; [lia | now left].
    + apply well_wired_app;
        [subst conv1; cbn [List.length];
         replace (base + List.length ins + 1)%nat with (S b1) by lia;
         exact Hloop |].
      apply well_wired_app.
      * subst conv1 conv2. cbn [well_wired List.length].
        split; [| exact I]. split; [discriminate |].
        constructor; [| constructor]. split; [lia | now left].
      * apply well_wired_app.
        -- subst drop. destruct (dropout_applied (dropout_rate c) dv); [| exact I].
           subst conv1 conv2. cbn [well_wired List.length fst snd].
           split; [| exact I]. split; [discriminate |].
           constructor; [| constructor]. cbn [fst snd]. split; [lia | now left].
        -- subst merge. destruct (merge_layer bb); [| exact I].
           subst conv1 conv2. cbn [well_wired List.length fst snd].
           split; [| exact I]. split; [discriminate |].
           constructor; [cbn [fst snd]; split; [lia | now left] |].
           constructor; [| constructor].
           cbn [fst snd]. split; [lia | now left].
  - rewrite Hlen. apply well_wired_tail.
    + lia.
    + subst xm. unfold first_output_before.
      destruct (bb =? "convnet")%string; [cbn [fst snd]; lia |].
      subst merge. destruct (merge_layer bb); cbn [fst snd List.length]; lia.
    + intros s Hs. unfold first_output_before, aux_tensor in *.
      destruct (0 <? n_aux_channels c); [| discriminate].
      inversion Hs. cbn [fst snd]. lia.
Qed.

Lemma unet_nodes_well_wired c dv e base :
  well_wired (recorded_skips base (unet_nodes c dv e base)) base base
    (unet_nodes c dv e base).
Proof.
  destruct (unet_nodes_observed c dv e base) as (_ & _ & _ & -> & _).
  unfold unet_nodes.
  set (ins := input_nodes c (unet_free c)).
  set (b1 := (base + List.length ins)%nat). set (n := Z.to_nat e).
  set (skips := enc_skips b1 n).
  set (enc := enc_nodes c dv b1 (primary_tensor c base) (n_filters c) (range e)).
  set (dec := dec_nodes c dv (S (b1 + n)) ((b1 + n)%nat, 0%nat) 0 (dec_stages c b1 n)).
  destruct (well_wired_enc skips base c dv (range e) b1 (primary_tensor c base)
              (n_filters c)) as [Henc Hout];
    [subst b1; lia | apply primary_tensor_before |].
  fold enc in Henc. rewrite length_range in Hout. fold n in Hout.
  destruct (well_wired_dec skips base c dv (dec_stages c b1 n) (S (b1 + n))
              ((b1 + n)%nat, 0%nat) 0) as [Hdec Hdout].
  { subst b1. lia. }
  { apply first_output_before_last. subst b1. lia. }
  { apply Forall_forall. intros st Hst.
    assert (Hin : In (fst st) skips).
    { apply (in_map fst) in Hst. rewrite dec_stages_fst in Hst.
      now apply in_rev in Hst. }
    split; [exact Hin |].
    pose proof (enc_skips_ge _ _ _ Hin). pose proof (enc_skips_lt _ _ _ Hin).
    subst b1. lia. }
  fold dec in Hdec, Hdout.
  assert (Hlenc : List.length enc = n)
    by (subst enc; now rewrite length_enc_nodes, length_range).
  apply well_wired_app; [apply well_wired_input_nodes |]. fold b1.
  apply well_wired_app; [exact Henc |]. rewrite Hlenc.
  apply well_wired_app.
  - cbn. split; [| exact I]. split; [discriminate |].
    constructor; [| constructor]. now apply reads_first_output.
  - cbn [List.length].
    replace (b1 + n + 1)%nat with (S (b1 + n)) by lia.
    apply well_wired_app; [exact Hdec |].
    apply well_wired_tail.
    + subst b1. lia.
    + exact Hdout.
    + intros s Hs. apply (aux_tensor_before c base (unet_free c)); [| exact Hs].
      fold ins. subst b1. lia.
Qed.

(** In a graph returned by either builder every layer reads at least one
    tensor, and reads only tensors of nodes created earlier in the same
    call - none of a node that was in the graph before, so two models built
    one after the other share no node; each tensor read is the first
    output of its node, except for the skip tensors recorded by the
    encoder blocks of [unet_pin]. *)
Theorem builders_well_wired BB DV c w :
  (forall m w1,
      net_pin BB DV c w = (Ok m, w1) ->
      exists new,
        graph w1 = graph w ++ new
        /\ well_wired [] (List.length (graph w)) (List.length (graph w)) new)
  /\ (forall fuel m w1,
         unet_pin BB DV fuel c w = (Ok m, w1) ->
         exists new,
           graph w1 = graph w ++ new
           /\ well_wired (recorded_skips (List.length (graph w)) new)
                (List.length (graph w)) (List.length (graph w)) new).
Proof.
  split.
  - intros m w1 Hrun.
    destruct (net_pin_inv BB DV c w m w1 Hrun) as (_ & _ & ->).
    eexists. split; [reflexivity |]. apply net_nodes_well_wired.
  - intros fuel m w1 Hrun.
    destruct (unet_pin_inv BB DV fuel c w m w1 Hrun)
      as (_ & e & w' & _ & _ & Hgraph).
    eexists. split; [exact Hgraph |]. apply unet_nodes_well_wired.
Qed.

Lemma builders_well_wired_witness :
  (exists new,
      graph (snd (net_pin sample_backbones sample_dropouts
                    (sample "resnet" 1 2 (64, 64) None false "rc" true) fresh))
      = graph fresh ++ new
      /\ well_wired [] (List.length (graph fresh)) (List.length (graph fresh)) new)
  /\ (exists new,
         graph (snd (unet_pin sample_backbones sample_dropouts 4
                       (sample "resnet" 1 2 (64, 64) None false "rc" true) fresh))
         = graph fresh ++ new
         /\ well_wired (recorded_skips (List.length (graph fresh)) new)
              (List.length (graph fresh)) (List.length (graph fresh)) new).
Proof.
  destruct (builders_well_wired sample_backbones sample_dropouts
              (sample "resnet" 1 2 (64, 64) None false "rc" true) fresh)
    as [Hnet Hunet].
  split.
  - eapply Hnet. vm_compute. reflexivity.
  - eapply (Hunet 4%nat). vm_compute. reflexivity.
Defined.

(** ** The depth validator on a grid one cell wide *)

Lemma too_deep_unit_dimension h w e :
  1 <= h -> 1 <= w -> Z.min h w = 1 -> 0 <= e -> too_deep (h, w) e = true.
Proof.
  intros Hh Hw Hmin He. unfold too_deep, floordiv_pow2. cbn [fst snd].
  replace (0 <=? e) with true by (symmetry; apply Z.leb_le; lia).
  assert (Hp : 0 < 2 ^ e) by (apply Z.pow_pos_nonneg; lia).
  assert (Hone : 1 / 2 ^ e < 2) by (apply Z.div_lt_upper_bound; lia).
  apply orb_true_iff.
  destruct (Z.min_spec h w) as [[_ Hm] | [_ Hm]]; rewrite Hm in Hmin; subst;
    [left | right]; now apply Z.ltb_lt.
Qed.

Lemma too_deep_minus_one h w :
  1 <= h -> 1 <= w -> too_deep (h, w) (-1) = false.
Proof.
  intros Hh Hw. unfold too_deep, floordiv_pow2. cbn [fst snd].
  change (0 <=? -1) with false. change (2 ^ (- (-1))) with 2. cbn match.
  apply orb_false_iff. split; apply Z.ltb_ge; lia.
Qed.

(** On a grid with both dimensions between 1 and [2**53] - where the
    float quotient Python computes at a negative depth is exact - and one
    of them 1, no depth [e >= 0] passes the test, while depth -1 does
    ([1 // 2**-1] is [2.0]): for any requested depth [d >= 0] the validator
    prints [d + 1] lines and returns -1; [d + 2] rounds of fuel are
    enough. *)
Theorem check_nblocks_unit_dimension h w :
  1 <= h <= 2 ^ 53 -> 1 <= w <= 2 ^ 53 -> Z.min h w = 1 ->
  forall fuel d w0,
    -1 <= d -> (Z.to_nat (d + 1) < fuel)%nat ->
    _check_nblocks fuel (h, w) d w0
    = (Ok (-1),
       {| graph := graph w0;
          stdout := stdout w0
                    ++ map nblocks_msg (countdown d (Z.to_nat (d + 1))) |}).
Proof.
  intros [Hh _] [Hw _] Hmin.
  induction fuel as [| fuel IH]; intros d w0 Hd Hfuel; [lia |].
  cbn [_check_nblocks].
  destruct (Z.eq_dec d (-1)) as [-> | Hne].
  - rewrite too_deep_minus_one by assumption.
    cbn. rewrite app_nil_r. now destruct w0.
  - rewrite too_deep_unit_dimension by (assumption || lia).
    unfold bind, print.
    rewrite IH by lia. cbn [graph stdout]. rewrite <- app_assoc.
    replace (Z.to_nat (d + 1)) with (S (Z.to_nat (d - 1 + 1))) by lia.
    reflexivity.
Qed.

Lemma check_nblocks_unit_dimension_witness :
  _check_nblocks 4 (1, 64) 2 fresh
  = (Ok (-1),
     {| graph := graph fresh;
        stdout := stdout fresh ++ map nblocks_msg (countdown 2 (Z.to_nat (2 + 1))) |}).
Proof.
  apply (check_nblocks_unit_dimension 1 64);
    [vm_compute; split; discriminate | vm_compute; split; discriminate
     | reflexivity | lia | vm_compute; lia].
Defined.
